(** * aws-nextjs-deployment: the CDK composition and its rollout contract

    A shallow embedding of the two CDK stacks of the repository
    ([cdk/lib/app-stack.ts], [cdk/lib/artifact-stack.ts]) as the data they
    declare: resources with their properties and embedded references,
    security-group rules, IAM policy statements, outputs, the container
    definition and the health-check settings.  The resource-graph engine and
    the rollout state machine that the specification describes around this
    wiring are modelled next to it, from the specification's text. *)

From Stdlib Require Import ZArith Ascii String List Bool Lia.
From stdpp Require Import base option list gmap strings.
Import ListNotations.

Set Warnings "-register-all".
Local Open Scope Z_scope.
Local Open Scope string_scope.
Local Open Scope list_scope.

(** ** JavaScript values read by the stacks *)

Module Js.

(** A value that is a string or [undefined]: what [process.env.NAME] and an
    index into a [{[key: string]: string}] object evaluate to. *)
Inductive value : Type :=
| undefined
| str (s : string).

(** [o[k]] and [process.env.k]: the string stored under [k], [undefined]
    when the object has no such key. *)
Definition get (o : gmap string string) (k : string) : value :=
  match o !! k with
  | Some s => str s
  | None => undefined
  end.

(** [x!]: the non-null assertion is erased by the compiler; at run time the
    operand is passed on as it is. *)
Definition non_null (v : value) : value := v.

(** String conversion of an operand of [+] or of a template literal. *)
Definition to_string (v : value) : string :=
  match v with
  | undefined => "undefined"
  | str s => s
  end.

(** [v !== s] for a string literal [s]. *)
Definition strict_ne (v : value) (s : string) : bool :=
  match v with
  | undefined => true
  | str t => negb (String.eqb t s)
  end.

End Js.

(** ** The constructs of aws-cdk-lib that the stacks use, as data *)

Module Cdk.

(** A symbolic attribute of another construct: the construct's id in its
    stack and the attribute read from it (the empty path when the construct
    itself is passed). *)
Record Reference : Type := {
  targetResourceId : string;
  attributePath : string;
}.

(** What a construct's property holds: a string or [undefined], a number, a
    boolean, a reference, a list, a text with references inside it (a
    template literal), or an object. *)
Inductive Value : Type :=
| VJs (v : Js.value)
| VNum (n : Z)
| VBool (b : bool)
| VRef (r : Reference)
| VList (vs : list Value)
| VConcat (parts : list Value)
| VObj (fields : list (string * Value)).

(** A string literal. *)
Definition VStr (s : string) : Value := VJs (Js.str s).
(** The construct [target] itself, passed as a property. *)
Definition ref (target : string) : Value :=
  VRef {| targetResourceId := target; attributePath := "" |}.
(** The attribute [path] of the construct [target]. *)
Definition attr (target path : string) : Value :=
  VRef {| targetResourceId := target; attributePath := path |}.

(** A construct in a stack: [new T(this, id, { ... })], or an import of an
    existing resource by name or ARN. *)
Record Resource : Type := {
  resourceId : string;
  resourceType : string;
  properties : list (string * Value);
  dependsOn : list string;
}.

(** [new cdk.CfnOutput(this, name, { value })] *)
Record Output : Type := {
  outputName : string;
  outputValue : Value;
}.

(** The references embedded in a value, in the order they are written. *)
Fixpoint value_refs (v : Value) : list Reference :=
  match v with
  | VRef r => [r]
  | VList vs => flat_map value_refs vs
  | VConcat vs => flat_map value_refs vs
  | VObj fs => flat_map (fun kv => match kv with (_, w) => value_refs w end) fs
  | VJs _ | VNum _ | VBool _ => []
  end.

(** The references embedded in the properties of a construct. *)
Definition properties_refs (ps : list (string * Value)) : list Reference :=
  flat_map (fun kv => value_refs (snd kv)) ps.

(** The references embedded in a resource. *)
Definition resource_refs (r : Resource) : list Reference :=
  properties_refs (properties r).

End Cdk.

Module ec2.

(** The peer of a rule: [ec2.Peer.anyIpv4()], or a security group passed as
    the peer. *)
Inductive Peer : Type :=
| anyIpv4
| GroupReference (groupId : string).

(** [ec2.Port.tcp(n)] *)
Inductive Port : Type :=
| tcp (n : Z).

(** The direction of a rule. *)
Inductive Direction : Type := Ingress | Egress.

(** A rule of a security group: the owning group, the peer, the port, the
    direction and the description given to [addIngressRule]. *)
Record SecurityRule : Type := {
  ownerGroupId : string;
  peer : Peer;
  port : Port;
  direction : Direction;
  description : string;
}.

(** [group.addIngressRule(peer, port, description)] *)
Definition addIngressRule (group : string) (p : Peer) (q : Port) (d : string)
    : SecurityRule :=
  {| ownerGroupId := group; peer := p; port := q; direction := Ingress;
     description := d |}.

End ec2.

Module iam.

(** [new iam.PolicyStatement({ actions, resources, principals, conditions })];
    the last two are empty when the source leaves them out. *)
Record PolicyStatement : Type := {
  actions : list string;
  resources : list Cdk.Value;
  principals : list string;
  conditions : list (string * (string * Cdk.Value));
}.

(** A statement with actions and resources only. *)
Definition statement (acts : list string) (res : list Cdk.Value) : PolicyStatement :=
  {| actions := acts; resources := res; principals := []; conditions := [] |}.

(** A statement added to a construct's policy ([addToPolicy],
    [addToPrincipalPolicy], [addToResourcePolicy]): the construct's id and
    the statement. *)
Record Attachment : Type := {
  attachedTo : string;
  attached : PolicyStatement;
}.

(** [bucket.grantReadWrite(grantee)] *)
Record Grant : Type := {
  grantee : string;
  grantedBucket : string;
}.

End iam.

Module rds.

(** [rds.ClusterInstance.serverlessV2(id, { scaleWithWriter })] *)
Record ClusterInstance : Type := {
  instanceIdentifier : string;
  scaleWithWriter : option bool;
}.

(** [rds.ClusterInstance.serverlessV2(ident, { scaleWithWriter })] *)
Definition serverlessV2 (ident : string) (scale : option bool) : ClusterInstance :=
  {| instanceIdentifier := ident; scaleWithWriter := scale |}.

End rds.

Module ecs.

(** [ecs.Secret.fromSecretsManager(secret, field)]: the secret construct and
    the JSON field to pull from it when the task starts. *)
Inductive Secret : Type :=
| fromSecretsManager (secret : string) (field : string).

(** Container health check; durations in seconds. *)
Record HealthCheck : Type := {
  command : list string;
  interval : Z;
  timeout : Z;
  retries : nat;
  startPeriod : Z;
}.

(** [circuitBreaker: { rollback }] *)
Record DeploymentCircuitBreaker : Type := {
  rollback : bool;
}.

(** The settings of [new ecs.FargateService] that are not references;
    durations in seconds. *)
Record FargateServiceProps : Type := {
  desiredCount : nat;
  assignPublicIp : bool;
  circuitBreaker : DeploymentCircuitBreaker;
  healthCheckGracePeriod : Z;
}.

End ecs.

Module elbv2.

(** Target-group health check; durations in seconds. *)
Record HealthCheck : Type := {
  path : string;
  unhealthyThresholdCount : nat;
  healthyThresholdCount : nat;
  interval : Z;
  timeout : Z;
  healthyHttpCodes : string;
}.

End elbv2.

(** What a stack's constructor leaves behind: its resources in declaration
    order, the security-group rules, the policy statements and grants, and
    the outputs. *)
Record Stack : Type := {
  resources : list Cdk.Resource;
  rules : list ec2.SecurityRule;
  policies : list iam.Attachment;
  grants : list iam.Grant;
  outputs : list Cdk.Output;
}.

(** ** cdk/lib/app-stack.ts *)

(** [AppStackProps]; the constructor reads it through [props?.config?.x],
    so every level may be missing. *)
Module AppStackProps.

(** [props.config] *)
Record Config : Type := {
  environmentVariables : option (gmap string string);
  secrets : option (list string);
}.

(** [AppStackProps], as far as the constructor's own statements read it:
    [config].  The fields it inherits from [cdk.StackProps] go to
    [super(scope, id, props)], which is aws-cdk-lib's; of what the library
    makes of them, the account the stack resolves to is the constructor's
    [account]. *)
Record t : Type := {
  config : option Config;
}.

End AppStackProps.

Module AppStack.

Section Constructor.

(** [process.env], [this.account] and the constructor's [props] argument. *)
Variable env : gmap string string.
Variable account : string.
Variable props : option AppStackProps.t.

(** [certificatemanager.Certificate.fromCertificateArn(this,
      "DomainCertificate", process.env.CERTIFICATE_ARN!)] *)
Definition domainCert : Cdk.Resource :=
  {| Cdk.resourceId := "DomainCertificate";
     Cdk.resourceType := "certificatemanager.Certificate.fromCertificateArn";
     Cdk.properties :=
       [("certificateArn", Cdk.VJs (Js.non_null (Js.get env "CERTIFICATE_ARN")))];
     Cdk.dependsOn := [] |}.

(** [new ec2.Vpc(this, "AppVPC", { ... })] *)
Definition vpc : Cdk.Resource :=
  {| Cdk.resourceId := "AppVPC";
     Cdk.resourceType := "ec2.Vpc";
     Cdk.properties :=
       [("maxAzs", Cdk.VNum 2);
        ("subnetConfiguration",
         Cdk.VList
           [Cdk.VObj [("cidrMask", Cdk.VNum 24); ("name", Cdk.VStr "public");
                      ("subnetType", Cdk.VStr "PUBLIC")];
            Cdk.VObj [("cidrMask", Cdk.VNum 24); ("name", Cdk.VStr "private");
                      ("subnetType", Cdk.VStr "PRIVATE_WITH_EGRESS")]])];
     Cdk.dependsOn := [] |}.

(** [ecr.Repository.fromRepositoryName(this, "AppRepository",
      process.env.REPOSITORY_NAME!)] *)
Definition repository : Cdk.Resource :=
  {| Cdk.resourceId := "AppRepository";
     Cdk.resourceType := "ecr.Repository.fromRepositoryName";
     Cdk.properties :=
       [("repositoryName", Cdk.VJs (Js.non_null (Js.get env "REPOSITORY_NAME")))];
     Cdk.dependsOn := [] |}.

(** [s3.Bucket.fromBucketName(this, "AppStaticBucket",
      process.env.STATIC_BUCKET_NAME!)] *)
Definition staticBucket : Cdk.Resource :=
  {| Cdk.resourceId := "AppStaticBucket";
     Cdk.resourceType := "s3.Bucket.fromBucketName";
     Cdk.properties :=
       [("bucketName", Cdk.VJs (Js.non_null (Js.get env "STATIC_BUCKET_NAME")))];
     Cdk.dependsOn := [] |}.

(** [new s3.Bucket(this, "AppUploadBucket", { ... })] *)
Definition uploadBucket : Cdk.Resource :=
  {| Cdk.resourceId := "AppUploadBucket";
     Cdk.resourceType := "s3.Bucket";
     Cdk.properties :=
       [("versioned", Cdk.VBool false);
        ("removalPolicy", Cdk.VStr "RETAIN");
        ("blockPublicAccess", Cdk.VStr "BLOCK_ALL");
        ("autoDeleteObjects", Cdk.VBool false);
        ("bucketName", Cdk.VJs (Js.non_null (Js.get env "UPLOAD_BUCKET_NAME")))];
     Cdk.dependsOn := [] |}.

(** [secretsmanager.Secret.fromSecretNameV2(this, "AppSecret",
      process.env.SECRET_NAME!)] *)
Definition secret : Cdk.Resource :=
  {| Cdk.resourceId := "AppSecret";
     Cdk.resourceType := "secretsmanager.Secret.fromSecretNameV2";
     Cdk.properties :=
       [("secretName", Cdk.VJs (Js.non_null (Js.get env "SECRET_NAME")))];
     Cdk.dependsOn := [] |}.

(** [process.env.AURORA_READER_REPLICA !== 'false'] *)
Definition readerReplicaCondition : bool :=
  Js.strict_ne (Js.get env "AURORA_READER_REPLICA") "false".

(** [writer: rds.ClusterInstance.serverlessV2("main")] *)
Definition writer : rds.ClusterInstance := rds.serverlessV2 "main" None.

(** [rds.ClusterInstance.serverlessV2("replica", { scaleWithWriter: true })] *)
Definition replica : rds.ClusterInstance := rds.serverlessV2 "replica" (Some true).

(** [readers: [...(condition ? [replica] : [])]] *)
Definition readers : list rds.ClusterInstance :=
  [] ++ (if readerReplicaCondition then [replica] else []).

(** [new rds.DatabaseCluster(this, "AuroraServerlessCluster", { ... })];
    its writer and readers follow it in the stack. *)
Definition auroraCluster : Cdk.Resource :=
  {| Cdk.resourceId := "AuroraServerlessCluster";
     Cdk.resourceType := "rds.DatabaseCluster";
     Cdk.properties :=
       [("engine", Cdk.VStr "auroraPostgres VER_16_4");
        ("serverlessV2MinCapacity", Cdk.VStr "0.5");
        ("serverlessV2MaxCapacity", Cdk.VNum 1);
        ("vpc", Cdk.ref (Cdk.resourceId vpc));
        ("vpcSubnets", Cdk.VStr "PRIVATE_WITH_EGRESS");
        ("removalPolicy", Cdk.VStr "RETAIN");
        ("storageEncrypted", Cdk.VBool true);
        ("backup.retention.days", Cdk.VNum 15);
        ("backup.preferredWindow", Cdk.VStr "06:00-07:00");
        ("credentials", Cdk.ref (Cdk.resourceId secret))];
     Cdk.dependsOn := [] |}.

(** A writer or reader handed to the cluster becomes an instance of that
    cluster, named by its identifier. *)
Definition clusterInstance (i : rds.ClusterInstance) : Cdk.Resource :=
  {| Cdk.resourceId := rds.instanceIdentifier i;
     Cdk.resourceType := "rds.ClusterInstance.serverlessV2";
     Cdk.properties :=
       match rds.scaleWithWriter i with
       | Some b => [("scaleWithWriter", Cdk.VBool b)]
       | None => []
       end;
     Cdk.dependsOn := [Cdk.resourceId auroraCluster] |}.

(** [new ecs.Cluster(this, "AppCluster", { ... })] *)
Definition cluster : Cdk.Resource :=
  {| Cdk.resourceId := "AppCluster";
     Cdk.resourceType := "ecs.Cluster";
     Cdk.properties :=
       [("vpc", Cdk.ref (Cdk.resourceId vpc));
        ("clusterName", Cdk.VJs (Js.non_null (Js.get env "ECS_CLUSTER_NAME")))];
     Cdk.dependsOn := [] |}.

(** [new iam.Role(this, "TaskRole", { ... })] *)
Definition taskRole : Cdk.Resource :=
  {| Cdk.resourceId := "TaskRole";
     Cdk.resourceType := "iam.Role";
     Cdk.properties := [("assumedBy", Cdk.VStr "ecs-tasks.amazonaws.com")];
     Cdk.dependsOn := [] |}.

(** [new ecs.FargateTaskDefinition(this, "AppTaskDefinition", { ... })] *)
Definition taskDefinition : Cdk.Resource :=
  {| Cdk.resourceId := "AppTaskDefinition";
     Cdk.resourceType := "ecs.FargateTaskDefinition";
     Cdk.properties :=
       [("memoryLimitMiB", Cdk.VNum 512);
        ("cpu", Cdk.VNum 256);
        ("taskRole", Cdk.ref (Cdk.resourceId taskRole))];
     Cdk.dependsOn := [] |}.

(** [props?.config?.environmentVariables] *)
Definition configuredEnvironment : option (gmap string string) :=
  cfg ← (p ← props; AppStackProps.config p);
  AppStackProps.environmentVariables cfg.

(** [{ ...props?.config?.environmentVariables, PORT: "3000" }]: spreading
    [undefined] adds nothing. *)
Definition envVars : gmap string string :=
  <["PORT" := "3000"]> (default ∅ configuredEnvironment).

(** [Object.keys(envVars)] *)
Definition envKeys : list string := (map_to_list envVars).*1.

(** [props?.config?.secrets || []] *)
Definition secrets : list string :=
  default [] (cfg ← (p ← props; AppStackProps.config p);
              AppStackProps.secrets cfg).

(** [envKeys.reduce((acc, key) => ({ ...acc, [key]: envVars[key] }), {})] *)
Definition environment : gmap string Js.value :=
  foldl (fun acc key => <[key := Js.get envVars key]> acc) ∅ envKeys.

(** [secrets.reduce((acc, key) =>
      ({ ...acc, [key]: ecs.Secret.fromSecretsManager(secret, key) }), {})] *)
Definition containerSecrets : gmap string ecs.Secret :=
  foldl (fun acc key =>
           <[key := ecs.fromSecretsManager (Cdk.resourceId secret) key]> acc)
        ∅ secrets.

(** The container's [healthCheck]. *)
Definition healthCheck : ecs.HealthCheck :=
  {| ecs.command :=
       ["CMD-SHELL";
        "sh -c 'curl -f http://$(hostname -i):3000/api/healthCheck || exit 1'"];
     ecs.interval := 30;
     ecs.timeout := 5;
     ecs.retries := 3;
     ecs.startPeriod := 120 |}.

(** A container secret as a property value: the reference into the secret
    construct, with the field as its path. *)
Definition secretValue (s : ecs.Secret) : Cdk.Value :=
  match s with
  | ecs.fromSecretsManager target field => Cdk.attr target field
  end.

(** [taskDefinition.addContainer("AppContainer", { ... })] *)
Definition container : Cdk.Resource :=
  {| Cdk.resourceId := "AppContainer";
     Cdk.resourceType := "ecs.ContainerDefinition";
     Cdk.properties :=
       [("taskDefinition", Cdk.ref (Cdk.resourceId taskDefinition));
        ("image", Cdk.ref (Cdk.resourceId repository));
        ("portMappings",
         Cdk.VList
           [Cdk.VObj [("containerPort", Cdk.VNum 3000);
                      ("protocol", Cdk.VStr "tcp");
                      ("appProtocol", Cdk.VStr "http");
                      ("name", Cdk.VStr "http")]]);
        ("logging.streamPrefix", Cdk.VStr "app-container");
        ("logging.logRetention", Cdk.VStr "ONE_WEEK");
        ("environment", Cdk.VObj (map_to_list (Cdk.VJs <$> environment)));
        ("secrets", Cdk.VObj (map_to_list (secretValue <$> containerSecrets)));
        ("healthCheck.command", Cdk.VList (map Cdk.VStr (ecs.command healthCheck)));
        ("healthCheck.interval", Cdk.VNum (ecs.interval healthCheck));
        ("healthCheck.timeout", Cdk.VNum (ecs.timeout healthCheck));
        ("healthCheck.retries", Cdk.VNum (Z.of_nat (ecs.retries healthCheck)));
        ("healthCheck.startPeriod", Cdk.VNum (ecs.startPeriod healthCheck))];
     Cdk.dependsOn := [] |}.

(** [new ec2.SecurityGroup(this, "AppALBSecurityGroup", { ... })] *)
Definition albSecurityGroup : Cdk.Resource :=
  {| Cdk.resourceId := "AppALBSecurityGroup";
     Cdk.resourceType := "ec2.SecurityGroup";
     Cdk.properties :=
       [("vpc", Cdk.ref (Cdk.resourceId vpc));
        ("allowAllOutbound", Cdk.VBool true);
        ("description", Cdk.VStr "Security group for application load balancer")];
     Cdk.dependsOn := [] |}.

(** [new elasticloadbalancingv2.ApplicationLoadBalancer(this,
      "AppLoadBalancer", { ... })] *)
Definition alb : Cdk.Resource :=
  {| Cdk.resourceId := "AppLoadBalancer";
     Cdk.resourceType := "elasticloadbalancingv2.ApplicationLoadBalancer";
     Cdk.properties :=
       [("vpc", Cdk.ref (Cdk.resourceId vpc));
        ("internetFacing", Cdk.VBool true);
        ("vpcSubnets", Cdk.VStr "PUBLIC");
        ("securityGroup", Cdk.ref (Cdk.resourceId albSecurityGroup))];
     Cdk.dependsOn := [] |}.

(** [alb.addListener("https", { ... })] *)
Definition listener : Cdk.Resource :=
  {| Cdk.resourceId := "https";
     Cdk.resourceType := "elasticloadbalancingv2.ApplicationListener";
     Cdk.properties :=
       [("loadBalancer", Cdk.ref (Cdk.resourceId alb));
        ("port", Cdk.VNum 443);
        ("protocol", Cdk.VStr "HTTPS");
        ("certificates", Cdk.VList [Cdk.ref (Cdk.resourceId domainCert)])];
     Cdk.dependsOn := [] |}.

(** [new ec2.SecurityGroup(this, "ServiceSecurityGroup", { ... })] *)
Definition serviceSecurityGroup : Cdk.Resource :=
  {| Cdk.resourceId := "ServiceSecurityGroup";
     Cdk.resourceType := "ec2.SecurityGroup";
     Cdk.properties :=
       [("vpc", Cdk.ref (Cdk.resourceId vpc));
        ("allowAllOutbound", Cdk.VBool true);
        ("description", Cdk.VStr "Security group for Fargate service")];
     Cdk.dependsOn := [] |}.

(** [auroraCluster.connections.securityGroups[0]]: the group belongs to the
    cluster construct. *)
Definition dbSecurityGroup : string := Cdk.resourceId auroraCluster.

(** The settings of the Fargate service. *)
Definition fargateServiceProps : ecs.FargateServiceProps :=
  {| ecs.desiredCount := 2;
     ecs.assignPublicIp := false;
     ecs.circuitBreaker := {| ecs.rollback := true |};
     ecs.healthCheckGracePeriod := 120 |}.

(** [new ecs.FargateService(this, "AppFargateService", { ... })] *)
Definition fargateService : Cdk.Resource :=
  {| Cdk.resourceId := "AppFargateService";
     Cdk.resourceType := "ecs.FargateService";
     Cdk.properties :=
       [("cluster", Cdk.ref (Cdk.resourceId cluster));
        ("taskDefinition", Cdk.ref (Cdk.resourceId taskDefinition));
        ("desiredCount", Cdk.VNum (Z.of_nat (ecs.desiredCount fargateServiceProps)));
        ("assignPublicIp", Cdk.VBool (ecs.assignPublicIp fargateServiceProps));
        ("circuitBreaker.rollback",
         Cdk.VBool (ecs.rollback (ecs.circuitBreaker fargateServiceProps)));
        ("securityGroups", Cdk.VList [Cdk.ref (Cdk.resourceId serviceSecurityGroup)]);
        ("vpcSubnets", Cdk.VStr "PRIVATE_WITH_EGRESS");
        ("healthCheckGracePeriod",
         Cdk.VNum (ecs.healthCheckGracePeriod fargateServiceProps))];
     Cdk.dependsOn := [] |}.

(** The target group's [healthCheck]. *)
Definition targetHealthCheck : elbv2.HealthCheck :=
  {| elbv2.path := "/api/healthCheck";
     elbv2.unhealthyThresholdCount := 2;
     elbv2.healthyThresholdCount := 2;
     elbv2.interval := 60;
     elbv2.timeout := 5;
     elbv2.healthyHttpCodes := "200-299" |}.

(** [listener.addTargets("ApplicationFleet", { ... })] *)
Definition applicationFleet : Cdk.Resource :=
  {| Cdk.resourceId := "ApplicationFleet";
     Cdk.resourceType := "elasticloadbalancingv2.ApplicationTargetGroup";
     Cdk.properties :=
       [("listener", Cdk.ref (Cdk.resourceId listener));
        ("targets", Cdk.VList [Cdk.ref (Cdk.resourceId fargateService)]);
        ("port", Cdk.VNum 3000);
        ("protocol", Cdk.VStr "HTTP");
        ("healthCheck.path", Cdk.VStr (elbv2.path targetHealthCheck));
        ("healthCheck.unhealthyThresholdCount",
         Cdk.VNum (Z.of_nat (elbv2.unhealthyThresholdCount targetHealthCheck)));
        ("healthCheck.healthyThresholdCount",
         Cdk.VNum (Z.of_nat (elbv2.healthyThresholdCount targetHealthCheck)));
        ("healthCheck.interval", Cdk.VNum (elbv2.interval targetHealthCheck));
        ("healthCheck.timeout", Cdk.VNum (elbv2.timeout targetHealthCheck));
        ("healthCheck.healthyHttpCodes",
         Cdk.VStr (elbv2.healthyHttpCodes targetHealthCheck))];
     Cdk.dependsOn := [] |}.

(** [new cloudfront.CachePolicy(this, "CustomCachePolicy", { ... })] *)
Definition albCachePolicy : Cdk.Resource :=
  {| Cdk.resourceId := "CustomCachePolicy";
     Cdk.resourceType := "cloudfront.CachePolicy";
     Cdk.properties :=
       [("cachePolicyName", Cdk.VStr "CustomALBCachePolicy");
        ("comment", Cdk.VStr "Cache policy for ALB origin with Host header");
        ("defaultTtl", Cdk.VNum 0);
        ("minTtl", Cdk.VNum 0);
        ("maxTtl", Cdk.VNum 0);
        ("headerBehavior", Cdk.VList [Cdk.VStr "Host"]);
        ("enableAcceptEncodingGzip", Cdk.VBool true);
        ("enableAcceptEncodingBrotli", Cdk.VBool true)];
     Cdk.dependsOn := [] |}.

(** [new wafv2.CfnWebACL(this, "AppWebACL", { ... })] *)
Definition WebAcl : Cdk.Resource :=
  {| Cdk.resourceId := "AppWebACL";
     Cdk.resourceType := "wafv2.CfnWebACL";
     Cdk.properties :=
       [("scope", Cdk.VStr "CLOUDFRONT");
        ("defaultAction", Cdk.VStr "allow");
        ("visibilityConfig.cloudWatchMetricsEnabled", Cdk.VBool true);
        ("visibilityConfig.metricName", Cdk.VStr "AppWebACL");
        ("visibilityConfig.sampledRequestsEnabled", Cdk.VBool true);
        ("rules",
         Cdk.VList
           [Cdk.VObj [("name", Cdk.VStr "AllowAll"); ("priority", Cdk.VNum 0);
                      ("managedRuleGroup", Cdk.VStr "AWSManagedRulesCommonRuleSet");
                      ("overrideAction", Cdk.VStr "none")];
            Cdk.VObj [("name", Cdk.VStr "IPRateLimitingRule"); ("priority", Cdk.VNum 1);
                      ("rateBasedStatement.limit", Cdk.VNum 600);
                      ("rateBasedStatement.aggregateKeyType", Cdk.VStr "IP");
                      ("action", Cdk.VStr "block")]])];
     Cdk.dependsOn := [] |}.

(** [new cloudfront.Distribution(this, "AppDistribution", { ... })] *)
Definition distribution : Cdk.Resource :=
  {| Cdk.resourceId := "AppDistribution";
     Cdk.resourceType := "cloudfront.Distribution";
     Cdk.properties :=
       [("defaultBehavior.origin", Cdk.ref (Cdk.resourceId alb));
        ("defaultBehavior.protocolPolicy", Cdk.VStr "HTTPS_ONLY");
        ("defaultBehavior.viewerProtocolPolicy", Cdk.VStr "REDIRECT_TO_HTTPS");
        ("defaultBehavior.cachePolicy", Cdk.ref (Cdk.resourceId albCachePolicy));
        ("defaultBehavior.allowedMethods", Cdk.VStr "ALLOW_ALL");
        ("defaultBehavior.originRequestPolicy", Cdk.VStr "ALL_VIEWER");
        ("additionalBehaviors./static/*.origin", Cdk.ref (Cdk.resourceId staticBucket));
        ("additionalBehaviors./static/*.viewerProtocolPolicy",
         Cdk.VStr "REDIRECT_TO_HTTPS");
        ("additionalBehaviors./static/*.cachePolicy", Cdk.VStr "CACHING_OPTIMIZED");
        ("additionalBehaviors./static/*.allowedMethods", Cdk.VStr "ALLOW_GET_HEAD");
        ("certificate", Cdk.ref (Cdk.resourceId domainCert));
        ("domainNames",
         Cdk.VList
           [Cdk.VJs (Js.non_null (Js.get env "DOMAIN_NAME"));
            Cdk.VStr ("www." +:+ Js.to_string (Js.non_null (Js.get env "DOMAIN_NAME")))]);
        ("webAclId", Cdk.attr (Cdk.resourceId WebAcl) "attrArn")];
     Cdk.dependsOn := [] |}.

(** [iam.Role.fromRoleArn(this, "GitHubActionsRole",
      `arn:aws:iam::${this.account}:role/${process.env.GITHUB_ACTIONS_ROLE_NAME!}`)] *)
Definition githubActionsRole : Cdk.Resource :=
  {| Cdk.resourceId := "GitHubActionsRole";
     Cdk.resourceType := "iam.Role.fromRoleArn";
     Cdk.properties :=
       [("roleArn",
         Cdk.VStr ("arn:aws:iam::" +:+ account +:+ ":role/"
                   +:+ Js.to_string (Js.non_null (Js.get env "GITHUB_ACTIONS_ROLE_NAME"))))];
     Cdk.dependsOn := [] |}.

(** The [addIngressRule] calls, in source order. *)
Definition securityRules : list ec2.SecurityRule :=
  [ec2.addIngressRule (Cdk.resourceId albSecurityGroup) ec2.anyIpv4 (ec2.tcp 443)
     "Allow HTTPS traffic";
   ec2.addIngressRule (Cdk.resourceId albSecurityGroup) ec2.anyIpv4 (ec2.tcp 3000)
     "Allow HTTP traffic";
   ec2.addIngressRule (Cdk.resourceId serviceSecurityGroup)
     (ec2.GroupReference (Cdk.resourceId albSecurityGroup)) (ec2.tcp 3000)
     "Allow inbound from ALB";
   ec2.addIngressRule dbSecurityGroup
     (ec2.GroupReference (Cdk.resourceId serviceSecurityGroup)) (ec2.tcp 5432)
     "Allow Aurora access from ECS tasks"].

(** The [githubActionsRole.addToPrincipalPolicy] calls, in source order. *)
Definition githubActionsStatements : list iam.PolicyStatement :=
  [iam.statement ["cloudfront:CreateInvalidation"]
     [Cdk.VConcat
        [Cdk.VStr ("arn:aws:cloudfront::" +:+ account +:+ ":distribution/");
         Cdk.attr (Cdk.resourceId distribution) "distributionId"]];
   iam.statement ["ecs:UpdateService"]
     [Cdk.attr (Cdk.resourceId fargateService) "serviceArn"];
   iam.statement ["ecs:DescribeTaskDefinition"; "ecs:RegisterTaskDefinition"]
     [Cdk.VStr "*"];
   iam.statement ["iam:PassRole"] [Cdk.VStr "*"]].

(** The [cdk.CfnOutput]s, in source order. *)
Definition stackOutputs : list Cdk.Output :=
  [{| Cdk.outputName := "CloudFrontDistribution";
      Cdk.outputValue := Cdk.attr (Cdk.resourceId distribution) "distributionId" |};
   {| Cdk.outputName := "ECSCluster";
      Cdk.outputValue := Cdk.attr (Cdk.resourceId cluster) "clusterName" |};
   {| Cdk.outputName := "ECSService";
      Cdk.outputValue := Cdk.attr (Cdk.resourceId fargateService) "serviceName" |};
   {| Cdk.outputName := "CloudFrontURL";
      Cdk.outputValue :=
        Cdk.VConcat [Cdk.VStr "https://";
                     Cdk.attr (Cdk.resourceId distribution) "domainName"] |}].

(** The constructor: every construct it creates, in the order of the
    source, when no call into aws-cdk-lib raises; [Library.construct] runs
    it against the library's validation. *)
Definition stack : Stack :=
  {| resources :=
       [domainCert; vpc; repository; staticBucket; uploadBucket; secret;
        auroraCluster; clusterInstance writer]
       ++ map clusterInstance readers
       ++ [cluster; taskRole; taskDefinition; container; albSecurityGroup; alb;
           listener; serviceSecurityGroup; fargateService; applicationFleet;
           albCachePolicy; WebAcl; distribution; githubActionsRole];
     rules := securityRules;
     policies :=
       map (fun s => {| iam.attachedTo := Cdk.resourceId githubActionsRole;
                        iam.attached := s |})
           githubActionsStatements;
     grants := [{| iam.grantee := Cdk.resourceId taskRole;
                   iam.grantedBucket := Cdk.resourceId uploadBucket |}];
     outputs := stackOutputs |}.

End Constructor.

(** The environment inputs the constructor reads with a non-null assertion. *)
Definition requiredInputs : list string :=
  ["CERTIFICATE_ARN"; "REPOSITORY_NAME"; "STATIC_BUCKET_NAME"; "UPLOAD_BUCKET_NAME";
   "SECRET_NAME"; "ECS_CLUSTER_NAME"; "DOMAIN_NAME"; "GITHUB_ACTIONS_ROLE_NAME"].

(** The constructs that are declared whatever the environment says. *)
Definition unconditional : list string :=
  ["DomainCertificate"; "AppVPC"; "AppRepository"; "AppStaticBucket";
   "AppUploadBucket"; "AppSecret"; "AuroraServerlessCluster"; "main"; "AppCluster";
   "TaskRole"; "AppTaskDefinition"; "AppContainer"; "AppALBSecurityGroup";
   "AppLoadBalancer"; "https"; "ServiceSecurityGroup"; "AppFargateService";
   "ApplicationFleet"; "CustomCachePolicy"; "AppWebACL"; "AppDistribution";
   "GitHubActionsRole"].

(** An order of all the constructs in which each one comes after the
    constructs it depends on; [rank] is the position in it. *)
Definition dependencyOrder : list string :=
  ["DomainCertificate"; "AppVPC"; "AppRepository"; "AppStaticBucket";
   "AppUploadBucket"; "AppSecret"; "AppCluster"; "TaskRole"; "AppTaskDefinition";
   "AppContainer"; "AppALBSecurityGroup"; "AppLoadBalancer"; "https";
   "ServiceSecurityGroup"; "AuroraServerlessCluster"; "main"; "replica";
   "AppFargateService"; "ApplicationFleet"; "CustomCachePolicy"; "AppWebACL";
   "AppDistribution"; "GitHubActionsRole"].

(** The index of the first occurrence of [x] in [l]. *)
Fixpoint position (x : string) (l : list string) : nat :=
  match l with
  | [] => O
  | y :: l' => if String.eqb x y then O else S (position x l')
  end.

(** The position of a construct in [dependencyOrder]. *)
Definition rank (id : string) : nat := position id dependencyOrder.

End AppStack.

(** ** cdk/lib/artifact-stack.ts *)

Module ArtifactStack.

Section Constructor.

Variable env : gmap string string.
Variable account : string.

(** [new ecr.Repository(this, "AppRepository", { ... })] *)
Definition repository : Cdk.Resource :=
  {| Cdk.resourceId := "AppRepository";
     Cdk.resourceType := "ecr.Repository";
     Cdk.properties :=
       [("repositoryName", Cdk.VJs (Js.non_null (Js.get env "REPOSITORY_NAME")));
        ("imageScanOnPush", Cdk.VBool true);
        ("removalPolicy", Cdk.VStr "DESTROY")];
     Cdk.dependsOn := [] |}.

(** [new s3.Bucket(this, "AppStaticBucket", { ... })] *)
Definition staticBucket : Cdk.Resource :=
  {| Cdk.resourceId := "AppStaticBucket";
     Cdk.resourceType := "s3.Bucket";
     Cdk.properties :=
       [("versioned", Cdk.VBool false);
        ("removalPolicy", Cdk.VStr "DESTROY");
        ("autoDeleteObjects", Cdk.VBool true);
        ("blockPublicAccess", Cdk.VStr "BLOCK_ALL");
        ("bucketName", Cdk.VJs (Js.non_null (Js.get env "STATIC_BUCKET_NAME")))];
     Cdk.dependsOn := [] |}.

(** [staticBucket.addToResourcePolicy(...)]: read access for CloudFront. *)
Definition staticBucketPolicy : iam.PolicyStatement :=
  {| iam.actions := ["s3:GetObject"];
     iam.resources := [Cdk.attr (Cdk.resourceId staticBucket) "arnForObjects(*)"];
     iam.principals := ["cloudfront.amazonaws.com"];
     iam.conditions :=
       [("StringLike",
         ("AWS:SourceArn",
          Cdk.VStr ("arn:aws:cloudfront::" +:+ account +:+ ":distribution/*")))] |}.

(** [new iam.User(this, "GitHubActionsDeploymentUser", { ... })] *)
Definition githubActionsUser : Cdk.Resource :=
  {| Cdk.resourceId := "GitHubActionsDeploymentUser";
     Cdk.resourceType := "iam.User";
     Cdk.properties :=
       [("userName", Cdk.VJs (Js.non_null (Js.get env "GITHUB_ACTIONS_USER_NAME")))];
     Cdk.dependsOn := [] |}.

(** [new iam.Role(this, "GithubActionsDeploymentRole", { ... })] *)
Definition githubActionsRole : Cdk.Resource :=
  {| Cdk.resourceId := "GithubActionsDeploymentRole";
     Cdk.resourceType := "iam.Role";
     Cdk.properties :=
       [("assumedBy", Cdk.ref (Cdk.resourceId githubActionsUser));
        ("description", Cdk.VStr "Role assumed by github user for deployment tasks");
        ("roleName", Cdk.VJs (Js.non_null (Js.get env "GITHUB_ACTIONS_ROLE_NAME")))];
     Cdk.dependsOn := [] |}.

(** The [githubActionsRole.addToPolicy] calls, in source order. *)
Definition githubActionsRoleStatements : list iam.PolicyStatement :=
  [iam.statement
     ["ecr:InitiateLayerUpload"; "ecr:UploadLayerPart"; "ecr:CompleteLayerUpload";
      "ecr:PutImage"; "ecr:BatchCheckLayerAvailability"]
     [Cdk.attr (Cdk.resourceId repository) "repositoryArn"];
   iam.statement ["ecr:GetAuthorizationToken"] [Cdk.VStr "*"];
   iam.statement ["s3:PutObject"; "s3:GetObject"; "s3:DeleteObject"]
     [Cdk.attr (Cdk.resourceId staticBucket) "arnForObjects(*)"];
   iam.statement ["s3:ListBucket"]
     [Cdk.attr (Cdk.resourceId staticBucket) "bucketArn"]].

(** [githubActionsUser.addToPolicy(...)] *)
Definition githubActionsUserStatements : list iam.PolicyStatement :=
  [iam.statement ["sts:AssumeRole"]
     [Cdk.attr (Cdk.resourceId githubActionsRole) "roleArn"]].

(** [new iam.CfnAccessKey(this, "GitHubActionsUserAccessKeyId", { ... })] *)
Definition accessKey : Cdk.Resource :=
  {| Cdk.resourceId := "GitHubActionsUserAccessKeyId";
     Cdk.resourceType := "iam.CfnAccessKey";
     Cdk.properties :=
       [("userName", Cdk.attr (Cdk.resourceId githubActionsUser) "userName")];
     Cdk.dependsOn := [] |}.

(** The [cdk.CfnOutput]s, in source order. *)
Definition stackOutputs : list Cdk.Output :=
  [{| Cdk.outputName := "GitHubActionsUserAccessKey";
      Cdk.outputValue := Cdk.attr (Cdk.resourceId accessKey) "ref" |};
   {| Cdk.outputName := "GitHubActionsUserSecretAccessKey";
      Cdk.outputValue := Cdk.attr (Cdk.resourceId accessKey) "attrSecretAccessKey" |}].

(** A statement added to the policy of [target]. *)
Definition attach (target : Cdk.Resource) (s : iam.PolicyStatement) : iam.Attachment :=
  {| iam.attachedTo := Cdk.resourceId target; iam.attached := s |}.

(** The constructor: every construct it creates, in the order of the source. *)
Definition stack : Stack :=
  {| resources := [repository; staticBucket; githubActionsUser; githubActionsRole;
                   accessKey];
     rules := [];
     policies :=
       [attach staticBucket staticBucketPolicy]
       ++ map (attach githubActionsRole) githubActionsRoleStatements
       ++ map (attach githubActionsUser) githubActionsUserStatements;
     grants := [];
     outputs := stackOutputs |}.

End Constructor.

End ArtifactStack.

(** ** The external CI deployment identity *)

Module CiIdentity.

(** The constructs that stand for the GitHub Actions user and role: the
    user and the role of the artifact stack, and the same role imported by
    ARN into the application stack. *)
Definition constructs : list string :=
  ["GitHubActionsDeploymentUser"; "GithubActionsDeploymentRole"; "GitHubActionsRole"].

(** The statement is attached to one of the identity's constructs. *)
Definition attachedToIdentity (a : iam.Attachment) : bool :=
  existsb (String.eqb (iam.attachedTo a)) constructs.

(** Every statement attached to the identity, across both stacks. *)
Definition statements (env : gmap string string) (account : string)
    (props : option AppStackProps.t) : list iam.PolicyStatement :=
  map iam.attached
    (filter (fun a => attachedToIdentity a = true)
       (policies (ArtifactStack.stack env account)
        ++ policies (AppStack.stack env account props))).

(** A permission: one action of a statement with that statement's resources. *)
Definition permissions (env : gmap string string) (account : string)
    (props : option AppStackProps.t) : list (string * list Cdk.Value) :=
  flat_map (fun s => map (fun a => (a, iam.resources s)) (iam.actions s))
    (statements env account props).

(** The actions behind each capability the specification names for the
    identity, each with its direct prerequisites. *)
Definition imagePush : list string :=
  ["ecr:GetAuthorizationToken"; "ecr:InitiateLayerUpload"; "ecr:UploadLayerPart";
   "ecr:CompleteLayerUpload"; "ecr:PutImage"; "ecr:BatchCheckLayerAvailability"].

(** Updating the service with a new task definition: the update itself,
    reading and registering task definitions, and passing the task roles. *)
Definition serviceUpdate : list string :=
  ["ecs:UpdateService"; "ecs:DescribeTaskDefinition"; "ecs:RegisterTaskDefinition";
   "iam:PassRole"].

(** Invalidating the distribution's cache. *)
Definition cacheInvalidation : list string := ["cloudfront:CreateInvalidation"].

(** Assuming the deployment role is the prerequisite of all three. *)
Definition assumeRole : list string := ["sts:AssumeRole"].

(** The constrained set as the specification words it: image push, service
    update and cache invalidation only. *)
Definition constrainedSet : list string :=
  imagePush ++ serviceUpdate ++ cacheInvalidation ++ assumeRole.

(** What the workflow's static-asset sync to the static bucket needs. *)
Definition staticAssetSync : list string :=
  ["s3:PutObject"; "s3:GetObject"; "s3:DeleteObject"; "s3:ListBucket"].

(** A statement's resources are unscoped when one of them is ["*"]. *)
Definition unscoped (res : list Cdk.Value) : bool :=
  existsb (fun v => match v with
                    | Cdk.VJs (Js.str s) => String.eqb s "*"
                    | _ => false
                    end) res.

(** An action that stands for more than one operation: ["*"], or a name
    with a [*] in it such as ["ecs:*"]. *)
Definition wildcardAction (a : string) : bool :=
  existsb (Ascii.eqb "*"%char) (list_ascii_of_string a).

End CiIdentity.

(** ** Errors of the composition and of the rollout *)

(** Modelled from the spec: the error taxonomy of its section 7, with the
    resolver's [UnresolvedDependency] of section 4.3; the sources raise no
    error of their own. *)
Inductive Error : Type :=
| DuplicateResource (id : string)
| UnknownResource (id : string)
| DanglingReference (target : string)
| UnresolvedDependency (target : string)
| CyclicDependency (nodes : list string)
| MissingRequiredInput (name : string)
| RolloutTimeout
| RolloutRollbackFailed.

(** ** The resource graph engine *)

Module Graph.

(** Membership of a string in a list, as a boolean. *)
Definition mem (x : string) (l : list string) : bool := existsb (String.eqb x) l.

(** The ids of the resources a stack declares, in declaration order. *)
Definition ids (s : Stack) : list string := map Cdk.resourceId (resources s).

(** Modelled from the spec: the Resource Registry's [declare], missing from
    the sources.  Re-declaring an existing id fails with [DuplicateResource]. *)
Definition declare (registry : list Cdk.Resource) (r : Cdk.Resource)
    : Error + list Cdk.Resource :=
  if mem (Cdk.resourceId r) (map Cdk.resourceId registry)
  then inl (DuplicateResource (Cdk.resourceId r))
  else inr (registry ++ [r]).

(** Modelled from the spec: declaring the resources of a composition one
    after the other, in declaration order, with the registry's [declare]. *)
Fixpoint declare_all (registry : list Cdk.Resource) (rs : list Cdk.Resource)
    : Error + list Cdk.Resource :=
  match rs with
  | [] => inr registry
  | r :: rs' =>
      match declare registry r with
      | inl e => inl e
      | inr registry' => declare_all registry' rs'
      end
  end.

(** The security group a rule's peer refers to, if it is one. *)
Definition peer_group (p : ec2.Peer) : list string :=
  match p with
  | ec2.GroupReference g => [g]
  | ec2.anyIpv4 => []
  end.

(** Modelled from the spec: the edges of the Dependency Graph Builder,
    missing from the sources.  A resource depends on the target of every
    reference embedded in its properties, on its explicit [dependsOn], and,
    for every security rule it owns, on the rule's peer group. *)
Definition deps (s : Stack) (r : Cdk.Resource) : list string :=
  map Cdk.targetResourceId (Cdk.resource_refs r)
  ++ Cdk.dependsOn r
  ++ flat_map
       (fun rule =>
          if String.eqb (ec2.ownerGroupId rule) (Cdk.resourceId r)
          then peer_group (ec2.peer rule) else [])
       (rules s).

(** Modelled from the spec: the edges of the graph, each from the resource
    depended on to the resource that depends on it. *)
Definition edges (s : Stack) : list (string * string) :=
  flat_map (fun r => map (fun d => (d, Cdk.resourceId r)) (deps s r)) (resources s).

(** The references embedded in a policy statement. *)
Definition statement_refs (p : iam.PolicyStatement) : list Cdk.Reference :=
  flat_map Cdk.value_refs (iam.resources p)
  ++ flat_map (fun c => Cdk.value_refs (snd (snd c))) (iam.conditions p).

(** Modelled from the spec: every resource id the composition points at,
    which the validation has to find in the graph: the dependencies of its
    resources, the owners of its rules, the constructs its statements and
    grants are attached to and the resources they name, and the sources of
    its outputs (an output is resolved like a reference). *)
Definition targets (s : Stack) : list string :=
  flat_map (deps s) (resources s)
  ++ map ec2.ownerGroupId (rules s)
  ++ flat_map (fun a => iam.attachedTo a
                        :: map Cdk.targetResourceId (statement_refs (iam.attached a)))
       (policies s)
  ++ flat_map (fun g => [iam.grantee g; iam.grantedBucket g]) (grants s)
  ++ map Cdk.targetResourceId
       (flat_map (fun o => Cdk.value_refs (Cdk.outputValue o)) (outputs s)).

(** Modelled from the spec: the validation that every reference's target is
    in the graph after condition pruning, missing from the sources.  It runs
    over the whole composition, so a resource left out by a false condition
    is caught wherever the reference to it was written. *)
Definition check_references (s : Stack) : option Error :=
  match find (fun t => negb (mem t (ids s))) (targets s) with
  | Some t => Some (DanglingReference t)
  | None => None
  end.

(** Modelled from the spec: a resource is ready to be placed in the order
    once every resource it depends on has been placed. *)
Definition ready (s : Stack) (emitted : list Cdk.Resource) (r : Cdk.Resource) : bool :=
  forallb (fun d => mem d (map Cdk.resourceId emitted)) (deps s r).

(** The pending resources after the resource [r] was placed. *)
Definition without (r : Cdk.Resource) (l : list Cdk.Resource) : list Cdk.Resource :=
  filter (fun r' => Cdk.resourceId r' ≠ Cdk.resourceId r) l.

(** Modelled from the spec: the deterministic topological sort of the
    Dependency Graph Builder, missing from the sources.  Each round emits
    the first pending resource, in declaration order, whose dependencies
    were all emitted; when none is ready the pending resources hold a cycle
    and the sort fails with [CyclicDependency] naming them. *)
Fixpoint order (fuel : nat) (s : Stack) (pending emitted : list Cdk.Resource)
    : Error + list Cdk.Resource :=
  match pending with
  | [] => inr emitted
  | _ :: _ =>
      match fuel with
      | O => inl (CyclicDependency (map Cdk.resourceId pending))
      | S fuel' =>
          match find (ready s emitted) pending with
          | None => inl (CyclicDependency (map Cdk.resourceId pending))
          | Some r => order fuel' s (without r pending) (emitted ++ [r])
          end
      end
  end.

(** Modelled from the spec: the immutable plan the build produces: the
    resources in build order, and the edges of the graph. *)
Record Plan : Type := {
  planOrder : list Cdk.Resource;
  planEdges : list (string * string);
}.

(** Modelled from the spec: [build], the composition's validation and
    ordering pass, missing from the sources: declare every resource, check
    every reference, sort. *)
Definition build (s : Stack) : Error + Plan :=
  match declare_all [] (resources s) with
  | inl e => inl e
  | inr registry =>
      match check_references s with
      | Some e => inl e
      | None =>
          match order (length registry) s registry [] with
          | inl e => inl e
          | inr o => inr {| planOrder := o; planEdges := edges s |}
          end
      end
  end.

(** The ids of the resources in plan order, when the build succeeds. *)
Definition built_ids (s : Stack) : Error + list string :=
  match build s with
  | inl e => inl e
  | inr plan => inr (map Cdk.resourceId (planOrder plan))
  end.

(** Modelled from the spec: the Reference Resolver's [resolve], missing from
    the sources.  A target that is not in the graph (pruned by a false
    condition, or never declared) fails with [DanglingReference]; a target
    in the graph that is not materialized yet fails with
    [UnresolvedDependency]; otherwise the attribute's value is read. *)
Definition resolve (graph materialized : list string)
    (attribute : Cdk.Reference → string) (r : Cdk.Reference) : Error + string :=
  if negb (mem (Cdk.targetResourceId r) graph)
  then inl (DanglingReference (Cdk.targetResourceId r))
  else if negb (mem (Cdk.targetResourceId r) materialized)
  then inl (UnresolvedDependency (Cdk.targetResourceId r))
  else inr (attribute r).

(** The resource [res] with one more property, the reference [r]. *)
Definition add_reference (r : Cdk.Reference) (res : Cdk.Resource) : Cdk.Resource :=
  {| Cdk.resourceId := Cdk.resourceId res;
     Cdk.resourceType := Cdk.resourceType res;
     Cdk.properties := Cdk.properties res ++ [("reference", Cdk.VRef r)];
     Cdk.dependsOn := Cdk.dependsOn res |}.

(** The composition [s] with the reference [r] declared on its resource
    [owner]. *)
Definition with_reference (s : Stack) (owner : string) (r : Cdk.Reference) : Stack :=
  {| resources :=
       map (fun res => if String.eqb (Cdk.resourceId res) owner
                       then add_reference r res else res)
           (resources s);
     rules := rules s;
     policies := policies s;
     grants := grants s;
     outputs := outputs s |}.

End Graph.

(** ** The rollout state machine *)

Module Rollout.

Local Open Scope Z_scope.

(** Modelled from the spec: the states of the rollout state machine,
    [PENDING → SCALING_UP → HEALTH_EVALUATION → {STEADY | ROLLING_BACK} →
    (ROLLED_BACK | FAILED)]; the orchestrator is missing from the sources. *)
Inductive Phase : Type :=
| PENDING
| SCALING_UP
| HEALTH_EVALUATION
| STEADY
| ROLLING_BACK
| ROLLED_BACK
| FAILED.

(** Modelled from the spec: the sub-state of one task instance,
    [starting → healthy → (optionally) unhealthy → replaced]. *)
Inductive SubState : Type := starting | healthy | unhealthy | replaced.

(** Modelled from the spec: the instances of the previous task definition,
    which serve the traffic while the rollout runs, and the new ones. *)
Inductive Generation : Type := Previous | New.

#[global] Instance Phase_eq_dec : EqDecision Phase.
Proof. solve_decision. Defined.
#[global] Instance SubState_eq_dec : EqDecision SubState.
Proof. solve_decision. Defined.
#[global] Instance Generation_eq_dec : EqDecision Generation.
Proof. solve_decision. Defined.

(** Modelled from the spec: the parameters of the health-check component
    and of the orchestrator (poll interval, consecutive-success and
    consecutive-failure thresholds, start period, tolerance of unhealthy
    instances, grace period after deployment start, stabilization window);
    the orchestrator is missing from the sources, which only set some of
    them.  Durations and instants are in seconds. *)
Record Config : Type := {
  interval : Z;
  healthyThreshold : nat;
  unhealthyThreshold : nat;
  startPeriod : Z;
  tolerance : nat;
  gracePeriod : Z;
  stabilization : Z;
}.

(** Modelled from the spec: one task instance as the control loop tracks
    it: its sub-state, the instant it was started, and its runs of
    consecutive passed and failed checks. *)
Record TaskInstance : Type := {
  generation : Generation;
  sub : SubState;
  launchedAt : Z;
  successes : nat;
  failures : nat;
}.

(** Modelled from the spec: the per-deployment record
    [{desiredCount, runningHealthy, runningUnhealthy, phase, startedAt}],
    with the instance table and the load-balancing target set the control
    loop owns, the number of new instances started, the instant since which
    the desired count has been healthy, the number of rollbacks begun and
    the runtime error recorded, if any. *)
Record RolloutState : Type := {
  desiredCount : nat;
  runningHealthy : nat;
  runningUnhealthy : nat;
  phase : Phase;
  startedAt : Z;
  instances : gmap nat TaskInstance;
  targetSet : gset nat;
  launched : nat;
  stableSince : option Z;
  rollbacks : nat;
  failure : option Error;
}.

(** Modelled from the spec: the events the control loop handles, each on
    its own: a new instance is started, a poll result arrives, the grace
    period runs out, a new deployment request cancels the rollout, the
    rollback ends well or not. *)
Inductive Event : Type :=
| Launch (i : nat) (now : Z)
| Poll (i : nat) (now : Z) (ok : bool)
| GraceExpired (now : Z)
| Cancel
| Restored (ok : bool).

(** An instance of the previous task definition: healthy and serving. *)
Definition previousInstance (now : Z) : TaskInstance :=
  {| generation := Previous; sub := healthy; launchedAt := now;
     successes := 0; failures := 0 |}.

(** Modelled from the spec: a new instance as it is started: starting,
    its start period beginning at [now], nothing counted yet. *)
Definition newInstance (now : Z) : TaskInstance :=
  {| generation := New; sub := starting; launchedAt := now;
     successes := 0; failures := 0 |}.

(** Modelled from the spec: [PENDING], the state a deployment starts in:
    the new task definition is registered and the instances of the previous
    one are healthy and serve all the traffic. *)
Definition deploy (desired : nat) (now : Z) (previous : gset nat) : RolloutState :=
  {| desiredCount := desired;
     runningHealthy := 0;
     runningUnhealthy := 0;
     phase := PENDING;
     startedAt := now;
     instances := gset_to_gmap (previousInstance now) previous;
     targetSet := previous;
     launched := 0;
     stableSince := None;
     rollbacks := 0;
     failure := None |}.

(** Modelled from the spec: the instances of one generation are replaced:
    torn down on a rollback, drained and removed once the rollout is
    steady. *)
Definition retire (g : Generation) (t : TaskInstance) : TaskInstance :=
  if decide (generation t = g)
  then {| generation := generation t; sub := replaced; launchedAt := launchedAt t;
          successes := successes t; failures := failures t |}
  else t.

(** The instances of one generation. *)
Definition of_generation (g : Generation) (m : gmap nat TaskInstance) : gset nat :=
  dom (filter (fun kv => generation kv.2 = g) m).

(** Modelled from the spec: entering [ROLLING_BACK]: the new instances are
    torn down and leave the target set. *)
Definition rollBack (why : option Error) (st : RolloutState) : RolloutState :=
  {| desiredCount := desiredCount st;
     runningHealthy := 0;
     runningUnhealthy := 0;
     phase := ROLLING_BACK;
     startedAt := startedAt st;
     instances := retire New <$> instances st;
     targetSet := targetSet st ∖ of_generation New (instances st);
     launched := launched st;
     stableSince := None;
     rollbacks := S (rollbacks st);
     failure := why |}.

(** Modelled from the spec: entering [STEADY]: the instances of the previous
    task definition are drained and removed. *)
Definition settle (since : Z) (st : RolloutState) : RolloutState :=
  {| desiredCount := desiredCount st;
     runningHealthy := runningHealthy st;
     runningUnhealthy := runningUnhealthy st;
     phase := STEADY;
     startedAt := startedAt st;
     instances := retire Previous <$> instances st;
     targetSet := targetSet st ∖ of_generation Previous (instances st);
     launched := launched st;
     stableSince := Some since;
     rollbacks := rollbacks st;
     failure := failure st |}.

(** Modelled from the spec: the rollout stays under evaluation; [since]
    is the instant since which the desired count has been healthy, if it
    is. *)
Definition stable (since : option Z) (st : RolloutState) : RolloutState :=
  {| desiredCount := desiredCount st;
     runningHealthy := runningHealthy st;
     runningUnhealthy := runningUnhealthy st;
     phase := phase st;
     startedAt := startedAt st;
     instances := instances st;
     targetSet := targetSet st;
     launched := launched st;
     stableSince := since;
     rollbacks := rollbacks st;
     failure := failure st |}.

(** Modelled from the spec: the aggregation the control loop runs after a
    poll result was counted, in [HEALTH_EVALUATION].  More unhealthy
    instances than the tolerance, inside the grace period after deployment
    start, begin the rollback; the desired count of healthy new instances,
    held for the stabilization window, makes the rollout [STEADY]. *)
Definition evaluate (cfg : Config) (now : Z) (st : RolloutState) : RolloutState :=
  if decide ((tolerance cfg < runningUnhealthy st)%nat
             ∧ now - startedAt st ≤ gracePeriod cfg)
  then rollBack None st
  else if decide (desiredCount st ≤ runningHealthy st)%nat
  then
    let since := default now (stableSince st) in
    if decide (stabilization cfg ≤ now - since)
    then settle since st
    else stable (Some since) st
  else stable None st.

(** The state after the control loop counted a poll of the instance [i]:
    the instance's new record, the target set and the two counters. *)
Definition counted (i : nat) (t : TaskInstance) (targets : gset nat)
    (h u : nat) (st : RolloutState) : RolloutState :=
  {| desiredCount := desiredCount st;
     runningHealthy := h;
     runningUnhealthy := u;
     phase := phase st;
     startedAt := startedAt st;
     instances := <[i := t]> (instances st);
     targetSet := targets;
     launched := launched st;
     stableSince := stableSince st;
     rollbacks := rollbacks st;
     failure := failure st |}.

(** Modelled from the spec: a passed check.  The instance is healthy, and
    enters the target set, only once its consecutive successes reach the
    healthy threshold. *)
Definition record_success (cfg : Config) (i : nat) (t : TaskInstance)
    (st : RolloutState) : RolloutState :=
  let n := S (successes t) in
  if decide (sub t = starting ∧ (healthyThreshold cfg ≤ n)%nat)
  then counted i
         {| generation := generation t; sub := healthy; launchedAt := launchedAt t;
            successes := n; failures := 0 |}
         ({[i]} ∪ targetSet st) (S (runningHealthy st)) (runningUnhealthy st) st
  else counted i
         {| generation := generation t; sub := sub t; launchedAt := launchedAt t;
            successes := n; failures := 0 |}
         (targetSet st) (runningHealthy st) (runningUnhealthy st) st.

(** Modelled from the spec: a failed check outside the start period.  The
    instance is unhealthy, and leaves the target set, once its consecutive
    failures reach the unhealthy threshold. *)
Definition record_failure (cfg : Config) (i : nat) (t : TaskInstance)
    (st : RolloutState) : RolloutState :=
  let n := S (failures t) in
  if decide (unhealthyThreshold cfg ≤ n)%nat
  then counted i
         {| generation := generation t; sub := unhealthy; launchedAt := launchedAt t;
            successes := 0; failures := n |}
         (targetSet st ∖ {[i]})
         (if decide (sub t = healthy) then pred (runningHealthy st)
          else runningHealthy st)
         (S (runningUnhealthy st)) st
  else counted i
         {| generation := generation t; sub := sub t; launchedAt := launchedAt t;
            successes := 0; failures := n |}
         (targetSet st) (runningHealthy st) (runningUnhealthy st) st.

(** Modelled from the spec: one poll result, handled in
    [HEALTH_EVALUATION] for a new instance that is starting or healthy.  A
    failed check before the start period has elapsed does not count against
    the instance: it is dropped. *)
Definition poll (cfg : Config) (i : nat) (now : Z) (ok : bool)
    (st : RolloutState) : RolloutState :=
  match phase st, instances st !! i with
  | HEALTH_EVALUATION, Some t =>
      if decide (generation t = New ∧ (sub t = starting ∨ sub t = healthy))
      then
        if ok then evaluate cfg now (record_success cfg i t st)
        else if decide (now - launchedAt t < startPeriod cfg) then st
        else evaluate cfg now (record_failure cfg i t st)
      else st
  | _, _ => st
  end.

(** Modelled from the spec: [SCALING_UP]: new instances are started up to
    the desired count while the previous ones keep serving; with the last
    one started the rollout moves to [HEALTH_EVALUATION]. *)
Definition launch (i : nat) (now : Z) (st : RolloutState) : RolloutState :=
  match phase st with
  | PENDING | SCALING_UP =>
      if decide (instances st !! i = None ∧ (launched st < desiredCount st)%nat)
      then
        {| desiredCount := desiredCount st;
           runningHealthy := runningHealthy st;
           runningUnhealthy := runningUnhealthy st;
           phase := if decide (S (launched st) = desiredCount st)
                    then HEALTH_EVALUATION else SCALING_UP;
           startedAt := startedAt st;
           instances := <[i := newInstance now]> (instances st);
           targetSet := targetSet st;
           launched := S (launched st);
           stableSince := stableSince st;
           rollbacks := rollbacks st;
           failure := failure st |}
      else st
  | _ => st
  end.

(** Modelled from the spec: the end of a rollback, in [ROLLED_BACK] or in
    [FAILED]. *)
Definition finish (p : Phase) (why : option Error) (st : RolloutState) : RolloutState :=
  {| desiredCount := desiredCount st;
     runningHealthy := runningHealthy st;
     runningUnhealthy := runningUnhealthy st;
     phase := p;
     startedAt := startedAt st;
     instances := instances st;
     targetSet := targetSet st;
     launched := launched st;
     stableSince := stableSince st;
     rollbacks := rollbacks st;
     failure := why |}.

(** Modelled from the spec: the control loop's transition on one event.
    Besides launches and polls: the grace period running out before the
    rollout is steady is a [RolloutTimeout] and begins the rollback; a new
    deployment request cancels a rollout in flight and begins the rollback;
    the outcome of a rollback ends it in [ROLLED_BACK] or, with
    [RolloutRollbackFailed], in [FAILED]. *)
Definition step (cfg : Config) (st : RolloutState) (ev : Event) : RolloutState :=
  match ev with
  | Launch i now => launch i now st
  | Poll i now ok => poll cfg i now ok st
  | GraceExpired now =>
      match phase st with
      | HEALTH_EVALUATION =>
          if decide (gracePeriod cfg < now - startedAt st)
          then rollBack (Some RolloutTimeout) st else st
      | _ => st
      end
  | Cancel =>
      match phase st with
      | PENDING | SCALING_UP | HEALTH_EVALUATION => rollBack None st
      | _ => st
      end
  | Restored ok =>
      match phase st with
      | ROLLING_BACK =>
          if ok then finish ROLLED_BACK (failure st) st
          else finish FAILED (Some RolloutRollbackFailed) st
      | _ => st
      end
  end.

(** The control loop run over a sequence of events. *)
Definition run (cfg : Config) (st : RolloutState) (evs : list Event) : RolloutState :=
  foldl (step cfg) st evs.

(** The states a deployment can reach. *)
Inductive reachable (cfg : Config) (desired : nat) (now : Z) (previous : gset nat)
    : RolloutState → Prop :=
| reachable_deploy : reachable cfg desired now previous (deploy desired now previous)
| reachable_step st ev :
    reachable cfg desired now previous st →
    reachable cfg desired now previous (step cfg st ev).

(** One round of polls at the instant [now]: every listed instance is
    polled, with the result the health endpoint gives then. *)
Definition poll_round (cfg : Config) (health : nat → Z → bool) (ids : list nat)
    (now : Z) (st : RolloutState) : RolloutState :=
  foldl (fun s i => step cfg s (Poll i now (health i now))) st ids.

(** [rounds] rounds of polls, one every [interval], the first at
    [interval * k]. *)
Fixpoint poll_rounds (cfg : Config) (health : nat → Z → bool) (ids : list nat)
    (rounds : nat) (k : Z) (st : RolloutState) : RolloutState :=
  match rounds with
  | O => st
  | S rounds' =>
      poll_rounds cfg health ids rounds' (k + 1)
        (poll_round cfg health ids (interval cfg * k) st)
  end.

(** Every instance in the target set is a known instance in the healthy
    sub-state. *)
Definition serves_healthy_only (st : RolloutState) : Prop :=
  ∀ i, i ∈ targetSet st → ∃ t, instances st !! i = Some t ∧ sub t = healthy.

(** An event that is a launch or a poll whose failure, if it is one, falls
    strictly inside the start period of the polled instance. *)
Definition fails_early (cfg : Config) (st : RolloutState) (ev : Event) : Prop :=
  match ev with
  | Launch _ _ => True
  | Poll i now ok =>
      ok = false →
      ∃ t, instances st !! i = Some t ∧ now - launchedAt t < startPeriod cfg
  | GraceExpired _ | Cancel | Restored _ => False
  end.

(** Every event of the run is a launch or a poll whose failure, if it is
    one, falls inside the start period of the polled instance. *)
Fixpoint fail_early (cfg : Config) (st : RolloutState) (evs : list Event) : Prop :=
  match evs with
  | [] => True
  | ev :: evs' => fails_early cfg st ev ∧ fail_early cfg (step cfg st ev) evs'
  end.

(** The phases of a rollout that was rolled back. *)
Definition rolled_back (p : Phase) : Prop :=
  p = ROLLING_BACK ∨ p = ROLLED_BACK ∨ p = FAILED.

(** The rollout of two new instances, numbered 0 and 1 and started at the
    instant 0 at which the deployment began. *)
Definition two_started (cfg : Config) (previous : gset nat) : RolloutState :=
  run cfg (deploy 2 0 previous) [Launch 0 0; Launch 1 0].

(** What an instance adds to the count of healthy instances. *)
Definition is_healthy (t : TaskInstance) : nat :=
  if decide (sub t = healthy) then 1 else 0.

(** The number of passed polls an instance still needs to be healthy. *)
Definition needs (cfg : Config) (t : TaskInstance) : nat :=
  if decide (sub t = healthy) then 0
  else Nat.max 1 (healthyThreshold cfg - successes t).

(** What the instance [i] adds to the count of healthy instances. *)
Definition counts_healthy (st : RolloutState) (i : nat) : nat :=
  from_option is_healthy 0%nat (instances st !! i).

(** The number of passed polls the instance [i] still needs to be healthy. *)
Definition deficit (cfg : Config) (st : RolloutState) (i : nat) : nat :=
  from_option (needs cfg) 0%nat (instances st !! i).

(** A new instance started at the instant 0 that is starting or healthy. *)
Definition young_instance (t : TaskInstance) : Prop :=
  generation t = New ∧ launchedAt t = 0
  ∧ (sub t = starting ∨ sub t = healthy).

(** The instance [i] is a new instance started at the instant 0 that is
    starting or healthy. *)
Definition young (st : RolloutState) (i : nat) : Prop :=
  ∃ t, instances st !! i = Some t ∧ young_instance t.

(** The rollout of the two instances is under health evaluation, nothing
    was counted as unhealthy and nothing was rolled back. *)
Definition evaluating (st : RolloutState) : Prop :=
  phase st = HEALTH_EVALUATION
  ∧ desiredCount st = 2%nat
  ∧ runningUnhealthy st = 0%nat
  ∧ rollbacks st = 0%nat
  ∧ young st 0 ∧ young st 1
  ∧ runningHealthy st = (counts_healthy st 0 + counts_healthy st 1)%nat
  ∧ ((counts_healthy st 0 + counts_healthy st 1 = 2)%nat → is_Some (stableSince st)).

(** The rollout is steady and was never rolled back. *)
Definition settled (st : RolloutState) : Prop :=
  phase st = STEADY ∧ rollbacks st = 0%nat.

(** The passed polls the two instances still need, together. *)
Definition total_deficit (cfg : Config) (st : RolloutState) : nat :=
  (deficit cfg st 0 + deficit cfg st 1)%nat.

(** The settings of the stack's container health check and service, as the
    orchestrator's parameters; what the stack leaves open (healthy
    threshold, tolerance, stabilization window) is passed in. *)
Definition ofContainerCheck (hc : ecs.HealthCheck) (svc : ecs.FargateServiceProps)
    (healthyCount tol : nat) (window : Z) : Config :=
  {| interval := ecs.interval hc;
     healthyThreshold := healthyCount;
     unhealthyThreshold := ecs.retries hc;
     startPeriod := ecs.startPeriod hc;
     tolerance := tol;
     gracePeriod := ecs.healthCheckGracePeriod svc;
     stabilization := window |}.

(** The settings of the stack's target-group health check and service, as
    the orchestrator's parameters; what the stack leaves open (start
    period, tolerance, stabilization window) is passed in. *)
Definition ofTargetCheck (hc : elbv2.HealthCheck) (svc : ecs.FargateServiceProps)
    (start : Z) (tol : nat) (window : Z) : Config :=
  {| interval := elbv2.interval hc;
     healthyThreshold := elbv2.healthyThresholdCount hc;
     unhealthyThreshold := elbv2.unhealthyThresholdCount hc;
     startPeriod := start;
     tolerance := tol;
     gracePeriod := ecs.healthCheckGracePeriod svc;
     stabilization := window |}.

End Rollout.

(** ** cdk/bin/cdk.ts *)

Module Bin.

(** [new AppStack(app, 'AppStack'); new ArtifactStack(app, 'ArtifactStack')]:
    the stacks of the application under their ids, each constructed with no
    props, over [process.env] as [dotenv.config] has left it. *)
Definition app (env : gmap string string) (account : string) : list (string * Stack) :=
  [("AppStack", AppStack.stack env account None);
   ("ArtifactStack", ArtifactStack.stack env account)].

End Bin.

(** ** What the constructors read *)

Module Inputs.

(** The names under which [app-stack.ts] reads [process.env], in source
    order. *)
Definition appStack : list string :=
  ["CERTIFICATE_ARN"; "REPOSITORY_NAME"; "STATIC_BUCKET_NAME"; "UPLOAD_BUCKET_NAME";
   "SECRET_NAME"; "AURORA_READER_REPLICA"; "ECS_CLUSTER_NAME"; "DOMAIN_NAME";
   "GITHUB_ACTIONS_ROLE_NAME"].

(** The names under which [artifact-stack.ts] reads [process.env], in source
    order. *)
Definition artifactStack : list string :=
  ["REPOSITORY_NAME"; "STATIC_BUCKET_NAME"; "GITHUB_ACTIONS_USER_NAME";
   "GITHUB_ACTIONS_ROLE_NAME"].

End Inputs.

(** ** Reading a stack *)

Module Construct.

(** The value under the key [k] in an object written as a list of fields. *)
Definition field (k : string) (fs : list (string * Cdk.Value)) : option Cdk.Value :=
  snd <$> List.find (fun kv => String.eqb (fst kv) k) fs.

(** The property [k] of a construct. *)
Definition property (r : Cdk.Resource) (k : string) : option Cdk.Value :=
  field k (Cdk.properties r).

(** The constructs other than the one with the id [id]. *)
Definition except (id : string) (rs : list Cdk.Resource) : list Cdk.Resource :=
  List.filter (fun r => negb (String.eqb (Cdk.resourceId r) id)) rs.

(** The ids a construct is given when it is created: the targets of the
    references among its properties, and the constructs it belongs to. *)
Definition refers (r : Cdk.Resource) : list string :=
  map Cdk.targetResourceId (Cdk.resource_refs r) ++ Cdk.dependsOn r.

(** Every construct of [rs] is given only constructs that were created
    before it: those of [declared], and those that precede it in [rs]. *)
Fixpoint declared_before_use (declared : list string) (rs : list Cdk.Resource) : bool :=
  match rs with
  | [] => true
  | r :: rs' =>
      forallb (fun t => bool_decide (t ∈ declared)) (refers r)
      && declared_before_use (declared ++ [Cdk.resourceId r]) rs'
  end.

(** The ids that the calls made on the constructs mention: the group and the
    peer group of every [addIngressRule], the construct and the referenced
    constructs of every policy statement, both sides of every grant, and
    the constructs the outputs read. *)
Definition mentioned (s : Stack) : list string :=
  flat_map (fun r => ec2.ownerGroupId r :: Graph.peer_group (ec2.peer r)) (rules s)
  ++ flat_map (fun a => iam.attachedTo a
                        :: map Cdk.targetResourceId (Graph.statement_refs (iam.attached a)))
       (policies s)
  ++ flat_map (fun g => [iam.grantee g; iam.grantedBucket g]) (grants s)
  ++ map Cdk.targetResourceId
       (flat_map (fun o => Cdk.value_refs (Cdk.outputValue o)) (outputs s)).

(** The ids of everything a stack's constructor creates in its scope: the
    constructs and the outputs. *)
Definition scope_ids (s : Stack) : list string :=
  map Cdk.resourceId (resources s) ++ map Cdk.outputName (outputs s).

(** The subnet types that a VPC's [subnetConfiguration] declares. *)
Definition subnetTypes (vpc : Cdk.Resource) : list Cdk.Value :=
  match property vpc "subnetConfiguration" with
  | Some (Cdk.VList groups) =>
      omap (fun g => match g with
                     | Cdk.VObj fs => field "subnetType" fs
                     | _ => None
                     end) groups
  | _ => []
  end.

(** The container ports that a container's [portMappings] declare. *)
Definition containerPorts (container : Cdk.Resource) : list Cdk.Value :=
  match property container "portMappings" with
  | Some (Cdk.VList mappings) =>
      omap (fun m => match m with
                     | Cdk.VObj fs => field "containerPort" fs
                     | _ => None
                     end) mappings
  | _ => []
  end.

End Construct.

(** ** aws-cdk-lib, as far as the constructors depend on it *)

Module Library.

(** aws-cdk-lib is not among the sources.  Each [new T(this, id, ...)] and
    [T.fromX(this, id, ...)] of a constructor hands it a construct, and its
    own validation then creates the construct or raises.  [accepts created
    r] stands for that validation: whether the library creates the
    construct [r] after the constructs [created]. *)
Definition Validation : Type := list Cdk.Resource → Cdk.Resource → bool.

(** An exception of the library leaving a constructor: the construct that
    was being created, and the constructs created before it. *)
Record Raised : Type := {
  raisedAt : string;
  createdBefore : list Cdk.Resource;
}.

(** The statements of a constructor run in order: a construct is created
    when the library accepts it; at the first one it rejects, the exception
    leaves the constructor and the statements after it do not run. *)
Fixpoint create (accepts : Validation) (created rs : list Cdk.Resource)
    : Raised + list Cdk.Resource :=
  match rs with
  | [] => inr created
  | r :: rs' =>
      if accepts created r
      then create accepts (created ++ [r]) rs'
      else inl {| raisedAt := Cdk.resourceId r; createdBefore := created |}
  end.

(** A constructor run against the library: the stack [s] that its
    statements declare, when the library accepts every construct of it. *)
Definition construct (accepts : Validation) (s : Stack) : Raised + Stack :=
  match create accepts [] (resources s) with
  | inl e => inl e
  | inr _ => inr s
  end.

End Library.

(** ** JavaScript objects with the order of their properties *)

Module JsObject.

(** The value of a decimal digit. *)
Definition digit (c : ascii) : option N :=
  let n := N_of_ascii c in
  if ((48 <=? n) && (n <=? 57))%N then Some (n - 48)%N else None.

(** The number that a text of decimal digits writes, after [acc]. *)
Fixpoint decimal (acc : N) (s : string) : option N :=
  match s with
  | EmptyString => Some acc
  | String c s' =>
      match digit c with
      | Some d => decimal (10 * acc + d)%N s'
      | None => None
      end
  end.

(** An array index: a property key that is the canonical decimal text of an
    integer from 0 to 2^32 - 2, so with no sign and no leading zero. *)
Definition arrayIndex (k : string) : option N :=
  match k with
  | EmptyString => None
  | String c rest =>
      if Ascii.eqb c "0"
      then if String.eqb rest "" then Some 0%N else None
      else match decimal 0 k with
           | Some n => if (n <? 4294967295)%N then Some n else None
           | None => None
           end
  end.

(** An object as the list of its own properties in the order in which
    [Object.keys], a spread and the synthesized template go through them:
    the array indices in ascending order, then the other keys in the order
    in which they were created. *)
Definition t (V : Type) : Type := list (string * V).

(** A new property with the array index [n] takes its place among the
    array indices, which come first. *)
Fixpoint insertIndex {V} (n : N) (key : string) (v : V) (o : t V) : t V :=
  match o with
  | [] => [(key, v)]
  | (k, w) :: o' =>
      match arrayIndex k with
      | Some m => if (m <? n)%N then (k, w) :: insertIndex n key v o'
                  else (key, v) :: (k, w) :: o'
      | None => (key, v) :: (k, w) :: o'
      end
  end.

(** [{ ...o, [key]: v }]: the spread copies the properties of [o] in their
    order; the computed key then replaces the value of a property that is
    there, where it is, and creates one that is not. *)
Definition define {V} (o : t V) (key : string) (v : V) : t V :=
  if existsb (fun kw => String.eqb (fst kw) key) o
  then map (fun kw => if String.eqb (fst kw) key then (fst kw, v) else kw) o
  else match arrayIndex key with
       | Some n => insertIndex n key v o
       | None => o ++ [(key, v)]
       end.

(** The distinct elements of a list, each where it occurs first. *)
Fixpoint distinct (l : list string) : list string :=
  match l with
  | [] => []
  | x :: l' => x :: List.filter (fun y => negb (String.eqb y x)) (distinct l')
  end.

End JsObject.

(** ** The container's secrets with the order of their keys *)

Module Container.

(** [secrets.reduce((acc, key) =>
      ({ ...acc, [key]: ecs.Secret.fromSecretsManager(secret, key) }), {})],
    as the object with its properties in order; [AppStack.containerSecrets]
    is the same object as a finite map. *)
Definition secretsInOrder (env : gmap string string) (props : option AppStackProps.t)
    : JsObject.t ecs.Secret :=
  foldl (fun acc key =>
           JsObject.define acc key
             (ecs.fromSecretsManager (Cdk.resourceId (AppStack.secret env)) key))
        [] (AppStack.secrets props).

(** The property the reduce writes for one key. *)
Definition bySecretKey (key : string) : string * ecs.Secret :=
  (key, ecs.fromSecretsManager "AppSecret" key).

End Container.

(** ** Tactics *)

(** Case analysis on membership in a list that is written out. *)
Ltac elem_cases H :=
  repeat (apply elem_of_cons in H; destruct H as [?|H]; [subst |]);
  try (by apply elem_of_nil in H).

(** Membership in a list that is written out. *)
Ltac elem_solve :=
  solve [repeat first [apply list_elem_of_here | apply list_elem_of_further]].

(** * Properties *)

(** ** Folding inserts over a list of keys *)

Lemma foldl_insert_lookup {V} (f : string → V) (l : list string)
    (acc : gmap string V) (k : string) :
  foldl (fun a key => <[key := f key]> a) acc l !! k
  = if decide (k ∈ l) then Some (f k) else acc !! k.
Proof.
  revert acc. induction l as [|x l IH]; intros acc; cbn [foldl].
  - rewrite decide_False; [done | apply not_elem_of_nil].
  - rewrite IH. destruct (decide (k ∈ l)) as [Hl|Hl].
    + rewrite decide_True; [done | by right].
    + destruct (decide (k = x)) as [->|Hne].
      * rewrite decide_True; [by rewrite lookup_insert_eq | by left].
      * rewrite decide_False; [by rewrite lookup_insert_ne |].
        intros [?|?]%elem_of_cons; done.
Qed.

Lemma environment_eq props :
  AppStack.environment props = Js.str <$> AppStack.envVars props.
Proof.
  apply map_eq. intros k. unfold AppStack.environment.
  rewrite foldl_insert_lookup, lookup_fmap. unfold AppStack.envKeys, Js.get.
  destruct (AppStack.envVars props !! k) as [v|] eqn:Hk.
  - rewrite decide_True; [done |].
    apply list_elem_of_fmap. exists (k, v). split; [done |].
    by apply elem_of_map_to_list.
  - rewrite decide_False; [done |].
    intros [[k' v] [-> Hin]]%list_elem_of_fmap.
    apply elem_of_map_to_list in Hin. simpl in Hk. congruence.
Qed.

(** ** The graph engine: registry, reference check and ordering *)

Lemma mem_spec (x : string) (l : list string) : Graph.mem x l = true ↔ x ∈ l.
Proof.
  unfold Graph.mem. rewrite existsb_exists. split.
  - intros (y & Hin & Heq). apply String.eqb_eq in Heq. subst y.
    by apply list_elem_of_In.
  - intros Hin. exists x. split; [by apply list_elem_of_In | apply String.eqb_refl].
Qed.

Lemma mem_false (x : string) (l : list string) : Graph.mem x l = false ↔ x ∉ l.
Proof.
  rewrite <- mem_spec. destruct (Graph.mem x l); split; congruence.
Qed.

Lemma declare_all_ok (rs registry : list Cdk.Resource) :
  NoDup (map Cdk.resourceId (registry ++ rs)) →
  Graph.declare_all registry rs = inr (registry ++ rs).
Proof.
  revert registry. induction rs as [|r rs IH]; intros registry Hnd; simpl.
  - by rewrite app_nil_r.
  - unfold Graph.declare.
    assert (Hfresh : Graph.mem (Cdk.resourceId r) (map Cdk.resourceId registry) = false).
    { apply mem_false. rewrite map_app in Hnd. simpl in Hnd.
      apply NoDup_app in Hnd as (_ & Hdisj & _). intros Hin.
      apply (Hdisj _ Hin). by left. }
    rewrite Hfresh. rewrite (IH (registry ++ [r])).
    + by rewrite <- app_assoc.
    + by rewrite <- app_assoc.
Qed.

Lemma find_first {A} (P : A → bool) (l : list A) (x : A) :
  (∀ y, y ∈ l → P y = true → y = x) → x ∈ l → P x = true → find P l = Some x.
Proof.
  induction l as [|y l IH]; intros Honly Hin Hx.
  - by apply elem_of_nil in Hin.
  - simpl. destruct (P y) eqn:Hy.
    + f_equal. apply Honly; [by left | done].
    + apply IH; [| | done].
      * intros z Hz. apply Honly. by right.
      * apply elem_of_cons in Hin as [->|Hin]; [congruence | done].
Qed.

Lemma check_references_ok (s : Stack) :
  Forall (fun t => t ∈ Graph.ids s) (Graph.targets s) →
  Graph.check_references s = None.
Proof.
  intros Hall. unfold Graph.check_references.
  destruct (find _ _) as [t|] eqn:Hfind; [|done].
  apply find_some in Hfind as [Hin Hout].
  apply list_elem_of_In in Hin. rewrite Forall_forall in Hall.
  apply Hall, mem_spec in Hin. by rewrite Hin in Hout.
Qed.

Lemma check_references_dangling (s : Stack) (x : string) :
  (∀ t, t ∈ Graph.targets s → t ∈ Graph.ids s ∨ t = x) →
  x ∈ Graph.targets s → x ∉ Graph.ids s →
  Graph.check_references s = Some (DanglingReference x).
Proof.
  intros Honly Hin Hout. unfold Graph.check_references.
  rewrite (find_first _ _ x); [done | | done |].
  - intros t Ht Hneg. destruct (Honly t Ht) as [Hids|]; [|done].
    apply mem_spec in Hids. by rewrite Hids in Hneg.
  - apply mem_false in Hout. by rewrite Hout.
Qed.

Lemma without_elem (r x : Cdk.Resource) (l : list Cdk.Resource) :
  x ∈ Graph.without r l ↔ x ∈ l ∧ Cdk.resourceId x ≠ Cdk.resourceId r.
Proof. unfold Graph.without. rewrite list_elem_of_filter. tauto. Qed.

Lemma without_absent (r : Cdk.Resource) (l : list Cdk.Resource) :
  Cdk.resourceId r ∉ map Cdk.resourceId l → Graph.without r l = l.
Proof.
  induction l as [|y l IH]; intros Hout; [done |].
  unfold Graph.without. rewrite filter_cons.
  rewrite decide_True.
  - f_equal. apply IH. intros Hin. apply Hout. by right.
  - intros Heq. apply Hout. rewrite <- Heq. by left.
Qed.

Lemma without_perm (r : Cdk.Resource) (l : list Cdk.Resource) :
  NoDup (map Cdk.resourceId l) → r ∈ l → l ≡ₚ r :: Graph.without r l.
Proof.
  induction l as [|y l IH]; intros Hnd Hin.
  - by apply elem_of_nil in Hin.
  - simpl in Hnd. apply NoDup_cons in Hnd as [Hy Hnd].
    unfold Graph.without. rewrite filter_cons.
    apply elem_of_cons in Hin as [->|Hin].
    + rewrite decide_False by (intros H; by apply H).
      f_equiv. fold (Graph.without y l). by rewrite without_absent.
    + rewrite decide_True.
      * rewrite (IH Hnd Hin) at 1. apply Permutation_swap.
      * intros Heq. apply Hy. rewrite Heq. apply list_elem_of_fmap. by exists r.
Qed.

Lemma without_NoDup (r : Cdk.Resource) (l : list Cdk.Resource) :
  NoDup (map Cdk.resourceId l) → NoDup (map Cdk.resourceId (Graph.without r l)).
Proof.
  induction l as [|y l IH]; intros Hnd; [done |].
  simpl in Hnd. apply NoDup_cons in Hnd as [Hy Hnd].
  unfold Graph.without. rewrite filter_cons. case_decide.
  - simpl. apply NoDup_cons. split; [|by apply IH].
    intros (z & Heq & Hz)%list_elem_of_fmap. apply without_elem in Hz as [Hz _].
    apply Hy. rewrite Heq. apply list_elem_of_fmap. by exists z.
  - by apply IH.
Qed.

Lemma order_step (s : Stack) (fuel : nat) (pending emitted : list Cdk.Resource) :
  pending ≠ [] →
  Graph.order (S fuel) s pending emitted
  = match find (Graph.ready s emitted) pending with
    | None => inl (CyclicDependency (map Cdk.resourceId pending))
    | Some r => Graph.order fuel s (Graph.without r pending) (emitted ++ [r])
    end.
Proof. by destruct pending. Qed.

Lemma order_perm (s : Stack) (fuel : nat) (pending emitted o : list Cdk.Resource) :
  NoDup (map Cdk.resourceId pending) →
  Graph.order fuel s pending emitted = inr o → o ≡ₚ emitted ++ pending.
Proof.
  revert pending emitted. induction fuel as [|fuel IH]; intros pending emitted Hnd Ho.
  - destruct pending; simpl in Ho; [|done]. injection Ho as <-. by rewrite app_nil_r.
  - destruct (decide (pending = [])) as [->|Hne].
    { simpl in Ho. injection Ho as <-. by rewrite app_nil_r. }
    rewrite order_step in Ho by done.
    destruct (find _ _) as [r|] eqn:Hfind; [|done].
    apply find_some in Hfind as [Hin _]. apply list_elem_of_In in Hin.
    apply IH in Ho; [|by apply without_NoDup].
    rewrite Ho, <- app_assoc. f_equiv. simpl. symmetry. by apply without_perm.
Qed.

Lemma least_rank {A} (f : A → nat) (l : list A) :
  l ≠ [] → ∃ m, m ∈ l ∧ ∀ x, x ∈ l → (f m ≤ f x)%nat.
Proof.
  induction l as [|y l IH]; [done | intros _].
  destruct (decide (l = [])) as [->|Hne].
  - exists y. split; [by left |]. intros x Hx. apply list_elem_of_singleton in Hx. by subst.
  - destruct (IH Hne) as (m & Hm & Hmin).
    destruct (decide (f y ≤ f m)%nat) as [Hle|Hgt].
    + exists y. split; [by left |]. intros x [->|Hx]%elem_of_cons; [done |].
      specialize (Hmin x Hx). lia.
    + exists m. split; [by right |]. intros x [->|Hx]%elem_of_cons; [lia | by apply Hmin].
Qed.

(** The sort succeeds on every graph that has a ranking of its nodes along
    which every dependency goes upwards. *)
Lemma order_complete (s : Stack) (rank : string → nat) (fuel : nat)
    (pending emitted : list Cdk.Resource) :
  NoDup (map Cdk.resourceId pending) →
  (length pending ≤ fuel)%nat →
  (∀ r d, r ∈ pending → d ∈ Graph.deps s r →
     (rank d < rank (Cdk.resourceId r))%nat
     ∧ (d ∈ map Cdk.resourceId pending ∨ d ∈ map Cdk.resourceId emitted)) →
  ∃ o, Graph.order fuel s pending emitted = inr o.
Proof.
  revert pending emitted.
  induction fuel as [|fuel IH]; intros pending emitted Hnd Hlen Hdeps.
  - destruct pending; [by eexists | simpl in Hlen; lia].
  - destruct (decide (pending = [])) as [->|Hne]; [by eexists |].
    rewrite order_step by done.
    destruct (find _ _) as [r|] eqn:Hfind.
    + apply find_some in Hfind as [Hin Hready]. apply list_elem_of_In in Hin.
      pose proof (without_perm r pending Hnd Hin) as Hperm.
      apply IH.
      * by apply without_NoDup.
      * apply Permutation_length in Hperm. simpl in Hperm. lia.
      * intros r' d Hr' Hd. apply without_elem in Hr' as [Hr' Hneq].
        destruct (Hdeps r' d Hr' Hd) as [Hrank Hwhere]. split; [done |].
        destruct Hwhere as [Hp|He].
        -- apply list_elem_of_fmap in Hp as (x & -> & Hx).
           destruct (decide (Cdk.resourceId x = Cdk.resourceId r)) as [Heq|Hdiff].
           ++ right. rewrite map_app. apply elem_of_app. right. rewrite Heq. by left.
           ++ left. apply list_elem_of_fmap. exists x. split; [done |].
              by apply without_elem.
        -- right. rewrite map_app. apply elem_of_app. by left.
    + exfalso.
      destruct (least_rank (fun r => rank (Cdk.resourceId r)) pending Hne)
        as (m & Hm & Hmin).
      pose proof (find_none _ _ Hfind m (proj1 (list_elem_of_In _ _) Hm)) as Hnot.
      unfold Graph.ready in Hnot.
      assert (Hall : forallb (fun d => Graph.mem d (map Cdk.resourceId emitted))
                       (Graph.deps s m) = true); [|congruence].
      apply forallb_forall. intros d Hd. apply list_elem_of_In in Hd.
      destruct (Hdeps m d Hm Hd) as [Hrank [Hp|He]]; [|by apply mem_spec].
      apply list_elem_of_fmap in Hp as (x & -> & Hx).
      specialize (Hmin x Hx). simpl in Hmin. lia.
Qed.

(** A composition without duplicate ids, whose references all point into
    it, and whose dependencies go upwards along some ranking, is built into
    a plan that holds exactly its resources and its edges. *)
Lemma build_ok (s : Stack) (rank : string → nat) :
  NoDup (Graph.ids s) →
  Forall (fun t => t ∈ Graph.ids s) (Graph.targets s) →
  (∀ r d, r ∈ resources s → d ∈ Graph.deps s r →
     (rank d < rank (Cdk.resourceId r))%nat) →
  ∃ plan, Graph.build s = inr plan
          ∧ Graph.planOrder plan ≡ₚ resources s
          ∧ Graph.planEdges plan = Graph.edges s.
Proof.
  intros Hnd Hrefs Hrank. unfold Graph.build.
  rewrite (declare_all_ok (resources s) []) by done. simpl.
  rewrite check_references_ok by done.
  destruct (order_complete s rank (length (resources s)) (resources s) [])
    as [o Ho]; [done | done | |].
  - intros r d Hr Hd. split; [by apply Hrank |]. left.
    rewrite Forall_forall in Hrefs. apply Hrefs.
    unfold Graph.targets. apply elem_of_app. left.
    apply list_elem_of_In, in_flat_map. exists r.
    split; by apply list_elem_of_In.
  - rewrite Ho. eexists. split; [done |]. split; [|done]. simpl.
    by apply order_perm in Ho.
Qed.

(** A composition in which some reference points at an id that is not in
    the graph is never built into a plan. *)
Lemma build_dangling (s : Stack) (x : string) :
  NoDup (Graph.ids s) →
  (∀ t, t ∈ Graph.targets s → t ∈ Graph.ids s ∨ t = x) →
  x ∈ Graph.targets s → x ∉ Graph.ids s →
  Graph.build s = inl (DanglingReference x).
Proof.
  intros Hnd Honly Hin Hout. unfold Graph.build.
  rewrite (declare_all_ok (resources s) []) by done. simpl.
  by rewrite (check_references_dangling s x).
Qed.

Lemma resolve_dangling (graph materialized : list string)
    (attribute : Cdk.Reference → string) (r : Cdk.Reference) :
  Cdk.targetResourceId r ∉ graph →
  Graph.resolve graph materialized attribute r
  = inl (DanglingReference (Cdk.targetResourceId r)).
Proof.
  intros Hout. unfold Graph.resolve. apply mem_false in Hout. by rewrite Hout.
Qed.

(** ** The application stack as a graph *)

Lemma flat_map_empty {A B} (f : A → list B) (l : list A) :
  (∀ x, x ∈ l → f x = []) → flat_map f l = [].
Proof.
  induction l as [|x l IH]; intros Hall; [done |]. simpl.
  rewrite (Hall x) by (by left). apply IH. intros y Hy. apply Hall. by right.
Qed.

Lemma environment_value_refs (m : gmap string Js.value) :
  Cdk.value_refs (Cdk.VObj (map_to_list (Cdk.VJs <$> m))) = [].
Proof.
  simpl. apply flat_map_empty. intros [k w] Hin.
  apply elem_of_map_to_list in Hin. rewrite lookup_fmap in Hin.
  destruct (m !! k); simpl in Hin; [|done]. by injection Hin as <-.
Qed.

Lemma containerSecrets_lookup env props key :
  AppStack.containerSecrets env props !! key
  = if decide (key ∈ AppStack.secrets props)
    then Some (ecs.fromSecretsManager "AppSecret" key) else None.
Proof.
  unfold AppStack.containerSecrets. rewrite foldl_insert_lookup.
  by rewrite lookup_empty.
Qed.

Lemma secrets_value_refs env props (r : Cdk.Reference) :
  r ∈ Cdk.value_refs
        (Cdk.VObj (map_to_list (AppStack.secretValue
                                  <$> AppStack.containerSecrets env props))) →
  Cdk.targetResourceId r = "AppSecret"
  ∧ Cdk.attributePath r ∈ AppStack.secrets props.
Proof.
  simpl. intros Hin. apply list_elem_of_In, in_flat_map in Hin as ([k w] & Hkw & Hr).
  apply list_elem_of_In, elem_of_map_to_list in Hkw.
  rewrite lookup_fmap, containerSecrets_lookup in Hkw.
  destruct (decide (k ∈ AppStack.secrets props)); simpl in Hkw; [|done].
  injection Hkw as <-. simpl in Hr. destruct Hr as [<-|[]]. done.
Qed.

Lemma container_deps env account props d :
  d ∈ Graph.deps (AppStack.stack env account props) (AppStack.container env props) →
  d ∈ ["AppTaskDefinition"; "AppRepository"; "AppSecret"].
Proof.
  unfold Graph.deps. rewrite !elem_of_app. intros [Hd|[Hd|Hd]].
  - apply list_elem_of_fmap in Hd as (r & -> & Hr).
    unfold Cdk.resource_refs, Cdk.properties_refs, AppStack.container in Hr.
    cbn [Cdk.properties flat_map snd] in Hr.
    rewrite environment_value_refs in Hr.
    rewrite !elem_of_app in Hr.
    repeat match type of Hr with _ ∨ _ => destruct Hr as [Hr|Hr] end;
      first [ apply secrets_value_refs in Hr as [-> _]; set_solver
            | vm_compute in Hr; elem_cases Hr; set_solver ].
  - by apply elem_of_nil in Hd.
  - vm_compute in Hd. elem_cases Hd.
Qed.

Lemma app_ids env account props :
  Graph.ids (AppStack.stack env account props)
  = if AppStack.readerReplicaCondition env
    then ["DomainCertificate"; "AppVPC"; "AppRepository"; "AppStaticBucket";
          "AppUploadBucket"; "AppSecret"; "AuroraServerlessCluster"; "main"; "replica";
          "AppCluster"; "TaskRole"; "AppTaskDefinition"; "AppContainer";
          "AppALBSecurityGroup"; "AppLoadBalancer"; "https"; "ServiceSecurityGroup";
          "AppFargateService"; "ApplicationFleet"; "CustomCachePolicy"; "AppWebACL";
          "AppDistribution"; "GitHubActionsRole"]
    else AppStack.unconditional.
Proof.
  unfold Graph.ids, AppStack.stack, AppStack.readers. cbn [resources].
  by destruct (AppStack.readerReplicaCondition env).
Qed.

Lemma app_unconditional env account props (x : string) :
  x ∈ AppStack.unconditional → x ∈ Graph.ids (AppStack.stack env account props).
Proof.
  rewrite app_ids. destruct (AppStack.readerReplicaCondition env); [|done].
  unfold AppStack.unconditional. intros Hx. elem_cases Hx; set_solver.
Qed.

Lemma app_ids_NoDup env account props :
  NoDup (Graph.ids (AppStack.stack env account props)).
Proof.
  rewrite app_ids.
  destruct (AppStack.readerReplicaCondition env);
    apply (bool_decide_unpack _); by vm_compute.
Qed.

Lemma app_deps env account props (r : Cdk.Resource) (d : string) :
  r ∈ resources (AppStack.stack env account props) →
  d ∈ Graph.deps (AppStack.stack env account props) r →
  (AppStack.rank d < AppStack.rank (Cdk.resourceId r))%nat
  ∧ d ∈ AppStack.unconditional.
Proof.
  intros Hr Hd.
  assert (Hcases : r = AppStack.container env props
                   ∨ (r ≠ AppStack.container env props
                      ∧ r ∈ resources (AppStack.stack env account props))).
  { destruct (decide (Cdk.resourceId r = "AppContainer")) as [Hid|Hid].
    - left. unfold AppStack.stack, AppStack.readers in Hr. cbn [resources] in Hr.
      destruct (AppStack.readerReplicaCondition env); cbn [map app] in Hr;
        elem_cases Hr; first [done | by vm_compute in Hid].
    - right. split; [|done]. intros ->. by apply Hid. }
  destruct Hcases as [->|[Hne Hr']].
  - apply container_deps in Hd.
    elem_cases Hd; (split; [vm_compute; lia | elem_solve]).
  - clear Hr. unfold AppStack.stack, AppStack.readers in Hr'. cbn [resources] in Hr'.
    destruct (AppStack.readerReplicaCondition env); cbn [map app] in Hr';
      elem_cases Hr'; try done;
      vm_compute in Hd; elem_cases Hd; (split; [vm_compute; lia | elem_solve]).
Qed.

Lemma app_targets env account props :
  Forall (fun t => t ∈ AppStack.unconditional)
    (Graph.targets (AppStack.stack env account props)).
Proof.
  unfold Graph.targets. rewrite !Forall_app. repeat split.
  - apply Forall_forall. intros d Hd.
    apply list_elem_of_In, in_flat_map in Hd as (r & Hr & Hd).
    apply list_elem_of_In in Hr, Hd. by destruct (app_deps env account props r d).
  - apply Forall_forall. intros t Ht. vm_compute in Ht. elem_cases Ht; elem_solve.
  - apply Forall_forall. intros t Ht. vm_compute in Ht. elem_cases Ht; elem_solve.
  - apply Forall_forall. intros t Ht. vm_compute in Ht. elem_cases Ht; elem_solve.
  - apply Forall_forall. intros t Ht. vm_compute in Ht. elem_cases Ht; elem_solve.
Qed.

(** Whatever the environment and the configuration, the application stack
    is built into a plan that holds exactly its resources and edges. *)
Lemma app_stack_builds env account props :
  ∃ plan, Graph.build (AppStack.stack env account props) = inr plan
          ∧ Graph.planOrder plan ≡ₚ resources (AppStack.stack env account props)
          ∧ Graph.planEdges plan = Graph.edges (AppStack.stack env account props).
Proof.
  apply (build_ok _ AppStack.rank).
  - apply app_ids_NoDup.
  - eapply Forall_impl; [apply app_targets |].
    intros t. apply app_unconditional.
  - intros r d Hr Hd. by destruct (app_deps env account props r d).
Qed.

Lemma app_edges env account props (e : string * string) :
  e ∈ Graph.edges (AppStack.stack env account props) →
  e.1 ∈ AppStack.unconditional
  ∧ e.2 ∈ Graph.ids (AppStack.stack env account props)
  ∧ (AppStack.rank e.1 < AppStack.rank e.2)%nat.
Proof.
  unfold Graph.edges. intros He.
  apply list_elem_of_In, in_flat_map in He as (r & Hr & He).
  apply list_elem_of_In in Hr.
  apply list_elem_of_In, list_elem_of_fmap in He as (d & -> & Hd). simpl.
  destruct (app_deps env account props r d Hr Hd) as [Hrank Hd']. repeat split; [done | | done].
  apply list_elem_of_fmap. by exists r.
Qed.

Lemma replica_conditional : "replica" ∉ AppStack.unconditional.
Proof. intros H. unfold AppStack.unconditional in H. by elem_cases H. Qed.

(** ** A reference declared on a resource of a composition *)

Lemma with_reference_ids (s : Stack) (owner : string) (ref : Cdk.Reference) :
  Graph.ids (Graph.with_reference s owner ref) = Graph.ids s.
Proof.
  unfold Graph.ids, Graph.with_reference. cbn [resources].
  rewrite map_map. apply map_ext. intros res. by destruct (String.eqb _ _).
Qed.

Lemma add_reference_deps (s : Stack) (owner : string) (ref : Cdk.Reference)
    (res : Cdk.Resource) (d : string) :
  d ∈ Graph.deps (Graph.with_reference s owner ref) (Graph.add_reference ref res)
  ↔ d ∈ Graph.deps s res ∨ d = Cdk.targetResourceId ref.
Proof.
  unfold Graph.deps, Cdk.resource_refs, Cdk.properties_refs. cbn.
  rewrite flat_map_app, map_app. cbn. rewrite !elem_of_app, list_elem_of_singleton.
  tauto.
Qed.

Lemma with_reference_deps (s : Stack) (owner : string) (ref : Cdk.Reference)
    (res : Cdk.Resource) (d : string) :
  d ∈ Graph.deps (Graph.with_reference s owner ref)
        (if String.eqb (Cdk.resourceId res) owner
         then Graph.add_reference ref res else res)
  ↔ d ∈ Graph.deps s res
    ∨ (Cdk.resourceId res = owner ∧ d = Cdk.targetResourceId ref).
Proof.
  destruct (String.eqb_spec (Cdk.resourceId res) owner) as [Heq|Hne].
  - rewrite add_reference_deps. tauto.
  - unfold Graph.deps. cbn. tauto.
Qed.

Lemma with_reference_targets (s : Stack) (owner : string) (ref : Cdk.Reference)
    (t : string) :
  t ∈ Graph.targets (Graph.with_reference s owner ref)
  ↔ t ∈ Graph.targets s ∨ (owner ∈ Graph.ids s ∧ t = Cdk.targetResourceId ref).
Proof.
  unfold Graph.targets. cbn [rules policies grants outputs].
  rewrite (elem_of_app (flat_map _ _)), (elem_of_app (flat_map (Graph.deps s) _)).
  assert (Hdeps : t ∈ flat_map (Graph.deps (Graph.with_reference s owner ref))
                        (resources (Graph.with_reference s owner ref))
                  ↔ t ∈ flat_map (Graph.deps s) (resources s)
                    ∨ (owner ∈ Graph.ids s ∧ t = Cdk.targetResourceId ref));
    [|tauto].
  cbn [Graph.with_reference resources]. split.
  - intros Ht. apply list_elem_of_In, in_flat_map in Ht as (res' & Hres' & Ht).
    apply in_map_iff in Hres' as (res & <- & Hres).
    apply list_elem_of_In in Hres.
    apply list_elem_of_In, with_reference_deps in Ht as [Ht|[Hid ->]].
    + left. apply list_elem_of_In, in_flat_map. exists res.
      split; by apply list_elem_of_In.
    + right. split; [|done]. apply list_elem_of_fmap. by exists res.
  - intros [Ht|[Howner ->]]; apply list_elem_of_In, in_flat_map.
    + apply list_elem_of_In, in_flat_map in Ht as (res & Hres & Ht).
      eexists. split; [apply in_map, Hres |].
      apply list_elem_of_In, with_reference_deps. left. by apply list_elem_of_In.
    + apply list_elem_of_fmap in Howner as (res & -> & Hres).
      eexists. split; [apply in_map, list_elem_of_In, Hres |].
      apply list_elem_of_In, with_reference_deps. by right.
Qed.

(** A reference to an id outside the graph, declared on any resource of a
    composition that is otherwise sound, fails the build with
    [DanglingReference]. *)
Lemma with_reference_dangling (s : Stack) (owner : string) (ref : Cdk.Reference) :
  NoDup (Graph.ids s) →
  Forall (fun t => t ∈ Graph.ids s) (Graph.targets s) →
  owner ∈ Graph.ids s →
  Cdk.targetResourceId ref ∉ Graph.ids s →
  Graph.build (Graph.with_reference s owner ref)
  = inl (DanglingReference (Cdk.targetResourceId ref)).
Proof.
  intros Hnd Hrefs Howner Hout. apply build_dangling.
  - by rewrite with_reference_ids.
  - intros t [Ht|[_ ->]]%with_reference_targets; [|by right].
    left. rewrite with_reference_ids. rewrite Forall_forall in Hrefs. by apply Hrefs.
  - apply with_reference_targets. by right.
  - by rewrite with_reference_ids.
Qed.

(** ** The reader replica and its condition *)

Lemma readerReplicaCondition_false (env : gmap string string) :
  AppStack.readerReplicaCondition env = false
  ↔ env !! "AURORA_READER_REPLICA" = Some "false".
Proof.
  unfold AppStack.readerReplicaCondition, Js.strict_ne, Js.get.
  destruct (env !! "AURORA_READER_REPLICA") as [v|]; [|done].
  destruct (String.eqb_spec v "false") as [->|Hne]; simpl; [done |].
  split; [done | intros [= ->]; done].
Qed.

(** C1. For every value of AURORA_READER_REPLICA, unset included, the
    reader replica is among the cluster's readers, and among the resources
    of the stack, iff its condition is true; the condition is false exactly
    when the input is the text false; an unset input keeps the replica, and
    the text false leaves the readers empty. *)
Theorem C1_reader_replica_condition (env : gmap string string) (account : string)
    (props : option AppStackProps.t) :
  (AppStack.replica ∈ AppStack.readers env
   ↔ AppStack.readerReplicaCondition env = true)
  ∧ ("replica" ∈ Graph.ids (AppStack.stack env account props)
     ↔ AppStack.readerReplicaCondition env = true)
  ∧ (AppStack.readerReplicaCondition env = false
     ↔ env !! "AURORA_READER_REPLICA" = Some "false")
  ∧ (env !! "AURORA_READER_REPLICA" = None →
     AppStack.readerReplicaCondition env = true
     ∧ AppStack.readers env = [AppStack.replica])
  ∧ (env !! "AURORA_READER_REPLICA" = Some "false" → AppStack.readers env = []).
Proof.
  split; [|split; [|split; [apply readerReplicaCondition_false | split]]].
  - unfold AppStack.readers.
    destruct (AppStack.readerReplicaCondition env); simpl.
    + split; [done | intros _; by left].
    + split; [intros H; by apply elem_of_nil in H | done].
  - rewrite app_ids. destruct (AppStack.readerReplicaCondition env).
    + split; [done | intros _; elem_solve].
    + split; [intros H; by apply replica_conditional in H | done].
  - intros Hunset.
    assert (Hc : AppStack.readerReplicaCondition env = true).
    { unfold AppStack.readerReplicaCondition, Js.get. by rewrite Hunset. }
    split; [done |]. unfold AppStack.readers. by rewrite Hc.
  - intros Hoff. apply readerReplicaCondition_false in Hoff.
    unfold AppStack.readers. by rewrite Hoff.
Qed.

Example readers_by_flag :
  AppStack.readers ∅ = [rds.serverlessV2 "replica" (Some true)]
  ∧ AppStack.readers {["AURORA_READER_REPLICA" := "true"]} = [AppStack.replica]
  ∧ AppStack.readers {["AURORA_READER_REPLICA" := "false"]} = []
  ∧ AppStack.readers {["AURORA_READER_REPLICA" := "FALSE"]} = [AppStack.replica]
  ∧ AppStack.readers {["AURORA_READER_REPLICA" := "0"]} = [AppStack.replica].
Proof. by vm_compute. Qed.

(** ** The container's environment and secrets *)

Lemma environment_lookup props (k : string) :
  AppStack.environment props !! k
  = if decide (k = "PORT") then Some (Js.str "3000")
    else Js.str <$> (default ∅ (AppStack.configuredEnvironment props) !! k).
Proof.
  rewrite environment_eq, lookup_fmap. unfold AppStack.envVars.
  destruct (decide (k = "PORT")) as [->|Hne].
  - by rewrite lookup_insert_eq.
  - by rewrite lookup_insert_ne.
Qed.

Lemma environment_given (m : gmap string string) (keys : option (list string)) :
  AppStack.environment
    (Some {| AppStackProps.config :=
               Some {| AppStackProps.environmentVariables := Some m;
                       AppStackProps.secrets := keys |} |})
  = <["PORT" := Js.str "3000"]> (Js.str <$> m).
Proof. rewrite environment_eq. unfold AppStack.envVars. cbn. by rewrite fmap_insert. Qed.

Lemma environment_not_given (props : option AppStackProps.t) :
  AppStack.configuredEnvironment props = None →
  AppStack.environment props = {["PORT" := Js.str "3000"]}.
Proof.
  intros Hnone. rewrite environment_eq. unfold AppStack.envVars. rewrite Hnone. cbn.
  by rewrite fmap_insert, fmap_empty.
Qed.

(** C10. For every configured environment-variable map, the container's
    environment maps PORT to the text 3000, also when the configuration
    supplies a PORT of its own, and passes every other configured pair
    through unchanged, adding no other key.  This holds for any props; for
    the props that carry a map [m] the environment is [m] with PORT set to
    3000, pair for pair, and that is what the container definition holds;
    with no props, no config or no map the environment is PORT alone. *)
Theorem C10_port_is_3000 (env : gmap string string) (props : option AppStackProps.t) :
  AppStack.environment props !! "PORT" = Some (Js.str "3000")
  ∧ (∀ k, k ≠ "PORT" →
       AppStack.environment props !! k
       = Js.str <$> (default ∅ (AppStack.configuredEnvironment props) !! k))
  ∧ ("environment", Cdk.VObj (map_to_list (Cdk.VJs <$> AppStack.environment props)))
    ∈ Cdk.properties (AppStack.container env props)
  ∧ (∀ (m : gmap string string) (keys : option (list string)),
       let given := Some {| AppStackProps.config :=
                              Some {| AppStackProps.environmentVariables := Some m;
                                      AppStackProps.secrets := keys |} |} in
       AppStack.configuredEnvironment given = Some m
       ∧ AppStack.environment given !! "PORT" = Some (Js.str "3000")
       ∧ (∀ k, k ≠ "PORT" → AppStack.environment given !! k = Js.str <$> m !! k)
       ∧ AppStack.environment given = <["PORT" := Js.str "3000"]> (Js.str <$> m)
       ∧ ("environment",
          Cdk.VObj (map_to_list
                      (Cdk.VJs <$> <["PORT" := Js.str "3000"]> (Js.str <$> m))))
         ∈ Cdk.properties (AppStack.container env given))
  ∧ AppStack.environment None = {["PORT" := Js.str "3000"]}
  ∧ AppStack.environment (Some {| AppStackProps.config := None |})
    = {["PORT" := Js.str "3000"]}
  ∧ (∀ keys, AppStack.environment
               (Some {| AppStackProps.config :=
                          Some {| AppStackProps.environmentVariables := None;
                                  AppStackProps.secrets := keys |} |})
             = {["PORT" := Js.str "3000"]}).
Proof.
  split; [by rewrite environment_lookup |].
  split; [intros k Hk; rewrite environment_lookup; by rewrite decide_False |].
  split; [unfold AppStack.container; cbn [Cdk.properties]; elem_solve |].
  split.
  { intros m keys given. split; [reflexivity |].
    split; [unfold given; rewrite environment_given; apply lookup_insert_eq |].
    split.
    - intros k Hk. unfold given. rewrite environment_given.
      rewrite lookup_insert_ne by done. apply lookup_fmap.
    - split; [apply environment_given |].
      rewrite <- (environment_given m keys).
      unfold AppStack.container. cbn [Cdk.properties]. elem_solve. }
  split; [by apply environment_not_given |].
  split; [by apply environment_not_given |].
  intros keys. by apply environment_not_given.
Qed.

Example port_override :
  AppStack.environment
    (Some {| AppStackProps.config :=
               Some {| AppStackProps.environmentVariables :=
                         Some {["PORT" := "8080"; "NODE_ENV" := "production"]};
                       AppStackProps.secrets := None |} |})
  = {["PORT" := Js.str "3000"; "NODE_ENV" := Js.str "production"]}.
Proof. by vm_compute. Qed.

Lemma secrets_given (vars : option (gmap string string)) (keys : list string) :
  AppStack.secrets
    (Some {| AppStackProps.config :=
               Some {| AppStackProps.environmentVariables := vars;
                       AppStackProps.secrets := Some keys |} |})
  = keys.
Proof. reflexivity. Qed.

Lemma containerSecrets_none (env : gmap string string) (props : option AppStackProps.t) :
  AppStack.secrets props = [] → AppStack.containerSecrets env props = ∅.
Proof. intros Hnone. unfold AppStack.containerSecrets. by rewrite Hnone. Qed.

(** C8. For every configured list of secret keys, the container's secrets
    map each listed key, and no other, to a by-key reference into the one
    secret construct [AppSecret]; what the container definition holds for
    them are references whose path is the key, never a value; and the
    plaintext environment holds only PORT and the configured environment
    variables, whatever the list of secrets is.  This holds for any props;
    for the props that carry a list [keys] it is the keys of that list
    that are mapped, and with no props, no config or no list there is no
    secret; the secret construct is an import by the name read from
    SECRET_NAME. *)
Theorem C8_secrets_by_reference (env : gmap string string)
    (props : option AppStackProps.t) :
  (∀ key, AppStack.containerSecrets env props !! key
          = if decide (key ∈ AppStack.secrets props)
            then Some (ecs.fromSecretsManager
                         (Cdk.resourceId (AppStack.secret env)) key)
            else None)
  ∧ ("secrets",
     Cdk.VObj (map_to_list (AppStack.secretValue
                              <$> AppStack.containerSecrets env props)))
    ∈ Cdk.properties (AppStack.container env props)
  ∧ (∀ key v, (AppStack.secretValue <$> AppStack.containerSecrets env props) !! key
              = Some v →
              v = Cdk.VRef {| Cdk.targetResourceId := "AppSecret";
                              Cdk.attributePath := key |}
              ∧ key ∈ AppStack.secrets props)
  ∧ (∀ k v, AppStack.environment props !! k = Some v →
            (k = "PORT" ∧ v = Js.str "3000")
            ∨ ∃ m s, AppStack.configuredEnvironment props = Some m
                     ∧ m !! k = Some s ∧ v = Js.str s)
  ∧ (∀ props', AppStack.configuredEnvironment props'
               = AppStack.configuredEnvironment props →
               AppStack.environment props' = AppStack.environment props)
  ∧ (∀ (vars : option (gmap string string)) (keys : list string),
       let given := Some {| AppStackProps.config :=
                              Some {| AppStackProps.environmentVariables := vars;
                                      AppStackProps.secrets := Some keys |} |} in
       AppStack.secrets given = keys
       ∧ AppStack.configuredEnvironment given = vars
       ∧ (∀ key, key ∈ keys →
            AppStack.containerSecrets env given !! key
            = Some (ecs.fromSecretsManager "AppSecret" key)
            ∧ (AppStack.secretValue <$> AppStack.containerSecrets env given) !! key
              = Some (Cdk.VRef {| Cdk.targetResourceId := "AppSecret";
                                  Cdk.attributePath := key |}))
       ∧ (∀ key, key ∉ keys → AppStack.containerSecrets env given !! key = None)
       ∧ ("secrets",
          Cdk.VObj (map_to_list (AppStack.secretValue
                                   <$> AppStack.containerSecrets env given)))
         ∈ Cdk.properties (AppStack.container env given)
       ∧ (∀ k v, AppStack.environment given !! k = Some v →
            (k = "PORT" ∧ v = Js.str "3000")
            ∨ ∃ m s, vars = Some m ∧ m !! k = Some s ∧ v = Js.str s))
  ∧ AppStack.containerSecrets env None = ∅
  ∧ AppStack.containerSecrets env (Some {| AppStackProps.config := None |}) = ∅
  ∧ (∀ vars, AppStack.containerSecrets env
               (Some {| AppStackProps.config :=
                          Some {| AppStackProps.environmentVariables := vars;
                                  AppStackProps.secrets := None |} |})
             = ∅)
  ∧ Cdk.resourceId (AppStack.secret env) = "AppSecret"
  ∧ Cdk.resourceType (AppStack.secret env) = "secretsmanager.Secret.fromSecretNameV2"
  ∧ Cdk.properties (AppStack.secret env)
    = [("secretName", Cdk.VJs (Js.get env "SECRET_NAME"))].
Proof.
  assert (Henv : ∀ p k v, AppStack.environment p !! k = Some v →
            (k = "PORT" ∧ v = Js.str "3000")
            ∨ ∃ m s, AppStack.configuredEnvironment p = Some m
                     ∧ m !! k = Some s ∧ v = Js.str s).
  { intros p k v. rewrite environment_lookup.
    destruct (decide (k = "PORT")) as [->|Hne].
    + intros [= <-]. by left.
    + destruct (AppStack.configuredEnvironment p) as [m|]; simpl.
      * destruct (m !! k) as [s|] eqn:Hk; simpl; [|done].
        intros [= <-]. right. by exists m, s.
      * by rewrite lookup_empty. }
  split; [intros key; apply containerSecrets_lookup |].
  split; [unfold AppStack.container; cbn [Cdk.properties]; elem_solve |].
  split.
  { intros key v. rewrite lookup_fmap, containerSecrets_lookup.
    destruct (decide (key ∈ AppStack.secrets props)); simpl; [|done].
    by intros [= <-]. }
  split; [apply Henv |].
  split.
  { intros props' Heq. apply map_eq. intros k.
    by rewrite !environment_lookup, Heq. }
  split.
  { intros vars keys given. split; [reflexivity |]. split; [reflexivity |].
    split.
    - intros key Hkey. rewrite lookup_fmap, containerSecrets_lookup.
      unfold given. rewrite secrets_given. by rewrite decide_True.
    - split.
      + intros key Hkey. rewrite containerSecrets_lookup.
        unfold given. rewrite secrets_given. by rewrite decide_False.
      + split; [unfold AppStack.container; cbn [Cdk.properties]; elem_solve |].
        intros k v Hkv. apply Henv in Hkv as [?|(m & s & Hm & ? & ?)]; [by left |].
        right. exists m, s. done. }
  split; [by apply containerSecrets_none |].
  split; [by apply containerSecrets_none |].
  split; [intros vars; by apply containerSecrets_none |].
  done.
Qed.

Example secrets_declared :
  AppStack.containerSecrets ∅
    (Some {| AppStackProps.config :=
               Some {| AppStackProps.environmentVariables := None;
                       AppStackProps.secrets := Some ["DATABASE_URL"; "API_KEY"] |} |})
  = {["DATABASE_URL" := ecs.fromSecretsManager "AppSecret" "DATABASE_URL";
      "API_KEY" := ecs.fromSecretsManager "AppSecret" "API_KEY"]}.
Proof. by vm_compute. Qed.

(** ** The load balancer's security group *)

(** C9. For every composition, the rules of the load balancer's security
    group are two ingress rules that admit any IPv4 source, on TCP 443 and
    on TCP 3000; no rule of that group has a security group as its peer. *)
Theorem C9_alb_ingress_any_ipv4 (env : gmap string string) (account : string)
    (props : option AppStackProps.t) :
  filter (fun r => ec2.ownerGroupId r = Cdk.resourceId AppStack.albSecurityGroup)
         (rules (AppStack.stack env account props))
  = [{| ec2.ownerGroupId := "AppALBSecurityGroup"; ec2.peer := ec2.anyIpv4;
        ec2.port := ec2.tcp 443; ec2.direction := ec2.Ingress;
        ec2.description := "Allow HTTPS traffic" |};
     {| ec2.ownerGroupId := "AppALBSecurityGroup"; ec2.peer := ec2.anyIpv4;
        ec2.port := ec2.tcp 3000; ec2.direction := ec2.Ingress;
        ec2.description := "Allow HTTP traffic" |}]
  ∧ Forall (fun r => ec2.ownerGroupId r = "AppALBSecurityGroup" →
                     ec2.peer r = ec2.anyIpv4)
      (rules (AppStack.stack env account props))
  ∧ ("securityGroup", Cdk.ref "AppALBSecurityGroup") ∈ Cdk.properties AppStack.alb.
Proof.
  split; [by vm_compute | split].
  - unfold AppStack.stack, AppStack.securityRules. cbn [rules].
    repeat constructor; cbn; intros Hown; first [done | by vm_compute in Hown].
  - unfold AppStack.alb. cbn [Cdk.properties]. elem_solve.
Qed.

(** ** The composition and its inputs *)

(** C2. For every environment and configuration the application stack is
    built into a plan that holds exactly its resources; every edge of the
    plan joins two declared resources; when the reader-replica condition is
    false the replica is not in the graph, no reference or edge of the
    composition points at it, and a reference to it declared on any
    resource fails the build with [DanglingReference] instead of producing a
    plan; resolving a reference whose target is not in the graph fails with
    [DanglingReference], whatever has been materialized. *)
Theorem C2_no_reference_to_pruned_replica (env : gmap string string)
    (account : string) (props : option AppStackProps.t) :
  let s := AppStack.stack env account props in
  (∃ plan, Graph.build s = inr plan
           ∧ Graph.planOrder plan ≡ₚ resources s
           ∧ Forall (fun e => e.1 ∈ Graph.ids s ∧ e.2 ∈ Graph.ids s)
               (Graph.planEdges plan)
           ∧ (AppStack.readerReplicaCondition env = false →
              ("replica" ∉ map Cdk.resourceId (Graph.planOrder plan))
              ∧ Forall (fun e => e.1 ≠ "replica" ∧ e.2 ≠ "replica")
                  (Graph.planEdges plan)))
  ∧ (AppStack.readerReplicaCondition env = false →
     ("replica" ∉ Graph.ids s)
     ∧ ("replica" ∉ Graph.targets s)
     ∧ ∀ owner path, owner ∈ Graph.ids s →
         Graph.build
           (Graph.with_reference s owner
              {| Cdk.targetResourceId := "replica"; Cdk.attributePath := path |})
         = inl (DanglingReference "replica"))
  ∧ (∀ materialized attribute r,
       Cdk.targetResourceId r ∉ Graph.ids s →
       Graph.resolve (Graph.ids s) materialized attribute r
       = inl (DanglingReference (Cdk.targetResourceId r))).
Proof.
  intros s.
  assert (Hpruned : AppStack.readerReplicaCondition env = false → "replica" ∉ Graph.ids s).
  { intros Hoff. unfold s. rewrite app_ids, Hoff. apply replica_conditional. }
  assert (Htargets : Forall (fun t => t ∈ Graph.ids s) (Graph.targets s)).
  { eapply Forall_impl; [apply app_targets |]. intros t. apply app_unconditional. }
  split; [|split].
  - destruct (app_stack_builds env account props) as (plan & Hbuild & Hperm & Hedges).
    exists plan. fold s in Hbuild, Hperm, Hedges.
    split; [done | split; [done | split]].
    + rewrite Hedges. apply Forall_forall. intros e He.
      destruct (app_edges env account props e He) as (H1 & H2 & _).
      split; [by apply app_unconditional | done].
    + intros Hoff. split.
      * rewrite Hperm. by apply Hpruned.
      * rewrite Hedges. apply Forall_forall. intros e He.
        destruct (app_edges env account props e He) as (H1 & H2 & _).
        split; intros Heq; rewrite Heq in *.
        -- by apply replica_conditional.
        -- by apply Hpruned.
  - intros Hoff. split; [by apply Hpruned | split].
    + intros Hin. rewrite Forall_forall in Htargets. by apply Hpruned, Htargets.
    + intros owner path Howner.
      apply (with_reference_dangling s owner
               {| Cdk.targetResourceId := "replica"; Cdk.attributePath := path |});
        [apply app_ids_NoDup | done | done | by apply Hpruned].
  - intros materialized attribute r. apply resolve_dangling.
Qed.

Example replica_reference_dangles :
  Graph.build
    (Graph.with_reference
       (AppStack.stack {["AURORA_READER_REPLICA" := "false"]} "123456789012" None)
       "AppFargateService"
       {| Cdk.targetResourceId := "replica"; Cdk.attributePath := "" |})
  = inl (DanglingReference "replica").
Proof. by vm_compute. Qed.

(** Creating constructs against the library either creates them all, each
    one accepted after those before it, or raises at the first one that is
    rejected. *)
Lemma create_spec (accepts : Library.Validation) (rs created : list Cdk.Resource) :
  (Library.create accepts created rs = inr (created ++ rs)
   ∧ ∀ pre r post, rs = pre ++ r :: post → accepts (created ++ pre) r = true)
  ∨ (∃ pre r post,
       rs = pre ++ r :: post
       ∧ Library.create accepts created rs
         = inl {| Library.raisedAt := Cdk.resourceId r;
                  Library.createdBefore := created ++ pre |}
       ∧ accepts (created ++ pre) r = false
       ∧ ∀ pre' r' post', pre = pre' ++ r' :: post' →
           accepts (created ++ pre') r' = true).
Proof.
  revert created. induction rs as [|x rs IH]; intros created; simpl.
  - left. rewrite app_nil_r. split; [done |].
    intros pre r post Heq. by destruct pre.
  - destruct (accepts created x) eqn:Hx.
    + destruct (IH (created ++ [x])) as [[Hok Hall]|(pre & r & post & -> & Hraise & Hrej & Hbefore)].
      * left. rewrite Hok, <- app_assoc. split; [done |].
        intros pre r post Heq. destruct pre as [|y pre]; simpl in Heq.
        -- injection Heq as <- <-. by rewrite app_nil_r.
        -- injection Heq as <- ->.
           specialize (Hall pre r post eq_refl). by rewrite <- app_assoc in Hall.
      * right. exists (x :: pre), r, post.
        rewrite <- app_assoc in Hraise, Hrej. simpl in Hraise, Hrej.
        split_and!; try done.
        intros pre' r' post' Heq. destruct pre' as [|y pre']; simpl in Heq.
        -- injection Heq as <- _. by rewrite app_nil_r.
        -- injection Heq as <- ->.
           specialize (Hbefore pre' r' post' eq_refl).
           by rewrite <- app_assoc in Hbefore.
    + right. exists [], x, rs. rewrite app_nil_r. split_and!; try done.
      intros pre' r' post' Heq. by destruct pre'.
Qed.

Lemma construct_ok (accepts : Library.Validation) (s : Stack) :
  Library.construct accepts s = inr s
  ↔ ∀ pre r post, resources s = pre ++ r :: post → accepts pre r = true.
Proof.
  unfold Library.construct.
  destruct (create_spec accepts (resources s) [])
    as [[Hok Hall]|(pre & r & post & Heq & Hraise & Hrej & _)].
  - rewrite Hok. split; [intros _; exact Hall | done].
  - rewrite Hraise. split; [done |]. intros Hall.
    specialize (Hall pre r post Heq). simpl in Hrej. congruence.
Qed.

Lemma construct_raised (accepts : Library.Validation) (s : Stack) (e : Library.Raised) :
  Library.construct accepts s = inl e →
  ∃ r post,
    resources s = Library.createdBefore e ++ r :: post
    ∧ Library.raisedAt e = Cdk.resourceId r
    ∧ accepts (Library.createdBefore e) r = false
    ∧ ∀ pre' r' post', Library.createdBefore e = pre' ++ r' :: post' →
        accepts pre' r' = true.
Proof.
  unfold Library.construct.
  destruct (create_spec accepts (resources s) [])
    as [[Hok Hall]|(pre & r & post & Heq & Hraise & Hrej & Hbefore)].
  - by rewrite Hok.
  - rewrite Hraise. intros [= <-]. exists r, post. simpl. by split_and!.
Qed.

Lemma construct_result (accepts : Library.Validation) (s s' : Stack) :
  Library.construct accepts s = inr s' → s' = s.
Proof.
  unfold Library.construct. destruct (Library.create _ _ _); [done |].
  by intros [= <-].
Qed.

(** C5, as the code has it. The composition makes no presence check on the
    environment inputs it requires, and has no error of its own.  Whatever
    validation aws-cdk-lib applies to the constructs it is handed: the
    constructor composes the whole stack exactly when the library accepts
    every construct; otherwise the exception is the library's, raised at
    the first construct it rejects, after the constructs before it were
    created; a composed stack is built into a plan of all its resources,
    so no outcome is [MissingRequiredInput].  Each input is handed to its
    construct as it was read, [undefined] when absent, the text itself when
    present, and an absent domain name or role name reads as the text
    undefined inside the www domain name and the role ARN. *)
Theorem C5_inputs_passed_unchecked (accepts : Library.Validation)
    (env : gmap string string) (account : string) (props : option AppStackProps.t) :
  let s := AppStack.stack env account props in
  (Library.construct accepts s = inr s
   ↔ ∀ pre r post, resources s = pre ++ r :: post → accepts pre r = true)
  ∧ (∀ e, Library.construct accepts s = inl e →
       ∃ r post,
         resources s = Library.createdBefore e ++ r :: post
         ∧ Library.raisedAt e = Cdk.resourceId r
         ∧ accepts (Library.createdBefore e) r = false
         ∧ ∀ pre' r' post', Library.createdBefore e = pre' ++ r' :: post' →
             accepts pre' r' = true)
  ∧ (∀ s', Library.construct accepts s = inr s' →
       s' = s
       ∧ ∃ plan, Graph.build s' = inr plan
                 ∧ Graph.planOrder plan ≡ₚ resources s')
  ∧ Cdk.properties (AppStack.domainCert env)
    = [("certificateArn", Cdk.VJs (Js.get env "CERTIFICATE_ARN"))]
  ∧ Cdk.properties (AppStack.repository env)
    = [("repositoryName", Cdk.VJs (Js.get env "REPOSITORY_NAME"))]
  ∧ Cdk.properties (AppStack.staticBucket env)
    = [("bucketName", Cdk.VJs (Js.get env "STATIC_BUCKET_NAME"))]
  ∧ ("bucketName", Cdk.VJs (Js.get env "UPLOAD_BUCKET_NAME"))
    ∈ Cdk.properties (AppStack.uploadBucket env)
  ∧ Cdk.properties (AppStack.secret env)
    = [("secretName", Cdk.VJs (Js.get env "SECRET_NAME"))]
  ∧ ("clusterName", Cdk.VJs (Js.get env "ECS_CLUSTER_NAME"))
    ∈ Cdk.properties (AppStack.cluster env)
  ∧ ("domainNames",
     Cdk.VList [Cdk.VJs (Js.get env "DOMAIN_NAME");
                Cdk.VStr ("www." +:+ Js.to_string (Js.get env "DOMAIN_NAME"))])
    ∈ Cdk.properties (AppStack.distribution env)
  ∧ Cdk.properties (AppStack.githubActionsRole env account)
    = [("roleArn",
        Cdk.VStr ("arn:aws:iam::" +:+ account +:+ ":role/"
                  +:+ Js.to_string (Js.get env "GITHUB_ACTIONS_ROLE_NAME")))]
  ∧ (∀ name, env !! name = None → Js.get env name = Js.undefined)
  ∧ (∀ name v, env !! name = Some v → Js.get env name = Js.str v)
  ∧ Js.to_string Js.undefined = "undefined".
Proof.
  intros s. split; [apply construct_ok |]. split; [apply construct_raised |].
  split.
  { intros s' Hs'. apply construct_result in Hs'. subst s'. split; [done |].
    destruct (app_stack_builds env account props) as (plan & Hbuild & Hperm & _).
    by exists plan. }
  repeat split; try (cbn [Cdk.properties AppStack.uploadBucket AppStack.cluster
                          AppStack.distribution]; elem_solve).
  - intros name Hname. unfold Js.get. by rewrite Hname.
  - intros name v Hname. unfold Js.get. by rewrite Hname.
Qed.

(** C5 as stated fails: with the upload bucket name and the cluster name
    absent, and every other input present, the composition is still built,
    all 23 resources of it, the upload bucket and the cluster with an
    undefined name. *)
Lemma C5_counterexample :
  let env : gmap string string :=
    {["CERTIFICATE_ARN" := "arn:aws:acm:us-east-1:123456789012:certificate/abc";
      "REPOSITORY_NAME" := "app"; "STATIC_BUCKET_NAME" := "app-static";
      "SECRET_NAME" := "app-secret"; "DOMAIN_NAME" := "example.com";
      "GITHUB_ACTIONS_ROLE_NAME" := "github-actions-deployment-role"]} in
  env !! "UPLOAD_BUCKET_NAME" = None
  ∧ env !! "ECS_CLUSTER_NAME" = None
  ∧ "UPLOAD_BUCKET_NAME" ∈ AppStack.requiredInputs
  ∧ "ECS_CLUSTER_NAME" ∈ AppStack.requiredInputs
  ∧ Graph.built_ids (AppStack.stack env "123456789012" None)
    = inr ["DomainCertificate"; "AppVPC"; "AppRepository"; "AppStaticBucket";
           "AppUploadBucket"; "AppSecret"; "AppCluster"; "TaskRole";
           "AppTaskDefinition"; "AppContainer"; "AppALBSecurityGroup";
           "AppLoadBalancer"; "https"; "ServiceSecurityGroup";
           "AuroraServerlessCluster"; "main"; "replica"; "AppFargateService";
           "ApplicationFleet"; "CustomCachePolicy"; "AppWebACL";
           "AppDistribution"; "GitHubActionsRole"]
  ∧ ("bucketName", Cdk.VJs Js.undefined) ∈ Cdk.properties (AppStack.uploadBucket env)
  ∧ ("clusterName", Cdk.VJs Js.undefined) ∈ Cdk.properties (AppStack.cluster env).
Proof.
  cbv zeta. split_and!.
  - by vm_compute.
  - by vm_compute.
  - unfold AppStack.requiredInputs. elem_solve.
  - unfold AppStack.requiredInputs. elem_solve.
  - by vm_compute.
  - vm_compute. elem_solve.
  - vm_compute. elem_solve.
Qed.

Example domain_name_absent :
  ("domainNames", Cdk.VList [Cdk.VJs Js.undefined; Cdk.VStr "www.undefined"])
  ∈ Cdk.properties (AppStack.distribution ∅).
Proof. vm_compute. elem_solve. Qed.

(** ** The permissions of the CI identity *)

(** C6, as the code has it. Every permission attached to the GitHub Actions
    user and role, across both stacks, is one of sixteen named actions:
    those of image push, service update and cache invalidation with their
    prerequisites, and those of the static-asset sync to the static bucket;
    none is a wildcard action; only the registry login, the two
    task-definition actions and iam:PassRole are granted on every
    resource; the S3 actions are scoped to the static bucket. *)
Theorem C6_ci_permissions (env : gmap string string) (account : string)
    (props : option AppStackProps.t) :
  map fst (CiIdentity.permissions env account props)
  = ["ecr:InitiateLayerUpload"; "ecr:UploadLayerPart"; "ecr:CompleteLayerUpload";
     "ecr:PutImage"; "ecr:BatchCheckLayerAvailability"; "ecr:GetAuthorizationToken";
     "s3:PutObject"; "s3:GetObject"; "s3:DeleteObject"; "s3:ListBucket";
     "sts:AssumeRole"; "cloudfront:CreateInvalidation"; "ecs:UpdateService";
     "ecs:DescribeTaskDefinition"; "ecs:RegisterTaskDefinition"; "iam:PassRole"]
  ∧ Forall (fun p => p.1 ∈ CiIdentity.constrainedSet ++ CiIdentity.staticAssetSync
                     ∧ CiIdentity.wildcardAction p.1 = false)
      (CiIdentity.permissions env account props)
  ∧ Forall (fun p => CiIdentity.unscoped p.2 = true →
                     p.1 ∈ ["ecr:GetAuthorizationToken"; "ecs:DescribeTaskDefinition";
                            "ecs:RegisterTaskDefinition"; "iam:PassRole"])
      (CiIdentity.permissions env account props)
  ∧ Forall (fun p => p.1 ∈ CiIdentity.staticAssetSync →
                     map Cdk.targetResourceId (flat_map Cdk.value_refs p.2)
                     = ["AppStaticBucket"])
      (CiIdentity.permissions env account props).
Proof.
  unfold CiIdentity.permissions, CiIdentity.statements.
  unfold ArtifactStack.stack, AppStack.stack. cbn [policies].
  unfold ArtifactStack.githubActionsRoleStatements,
    ArtifactStack.githubActionsUserStatements, AppStack.githubActionsStatements.
  cbn. split; [reflexivity | split; [|split]].
  - apply Forall_forall. intros p Hp.
    elem_cases Hp; (split; [vm_compute; elem_solve | reflexivity]).
  - apply Forall_forall. intros p Hp.
    elem_cases Hp; cbn; intros Hstar; first [discriminate | elem_solve].
  - apply Forall_forall. intros p Hp.
    elem_cases Hp; cbn; intros Hs3; first [reflexivity | exfalso].
    all: vm_compute in Hs3; by elem_cases Hs3.
Qed.

(** C6 as stated fails: the role may delete objects of the static bucket,
    which is none of image push, service update and cache invalidation. *)
Lemma C6_counterexample :
  ∃ p, p ∈ CiIdentity.permissions ∅ "123456789012" None
       ∧ p.1 = "s3:DeleteObject"
       ∧ (p.1 ∉ CiIdentity.constrainedSet).
Proof.
  exists ("s3:DeleteObject", [Cdk.attr "AppStaticBucket" "arnForObjects(*)"]).
  split; [vm_compute; elem_solve | split; [done |]].
  intros Hin. vm_compute in Hin. by elem_cases Hin.
Qed.

(** ** The rollout: who receives traffic *)

Local Open Scope Z_scope.

Lemma of_generation_elem (g : Rollout.Generation)
    (m : gmap nat Rollout.TaskInstance) (i : nat) :
  i ∈ Rollout.of_generation g m
  ↔ ∃ t, m !! i = Some t ∧ Rollout.generation t = g.
Proof.
  unfold Rollout.of_generation. rewrite elem_of_dom. split.
  - intros [t Ht]. apply map_lookup_filter_Some in Ht as [Ht Hg]. by exists t.
  - intros (t & Ht & Hg). exists t. by apply map_lookup_filter_Some.
Qed.

Lemma retire_serves (g : Rollout.Generation) (m : gmap nat Rollout.TaskInstance)
    (targets : gset nat) :
  (∀ i, i ∈ targets → ∃ t, m !! i = Some t ∧ Rollout.sub t = Rollout.healthy) →
  ∀ i, i ∈ targets ∖ Rollout.of_generation g m →
       ∃ t, (Rollout.retire g <$> m) !! i = Some t ∧ Rollout.sub t = Rollout.healthy.
Proof.
  intros Hinv i [Hin Hout]%elem_of_difference.
  destruct (Hinv i Hin) as (t & Ht & Hsub). exists t.
  rewrite lookup_fmap, Ht. simpl. split; [|done]. f_equal.
  unfold Rollout.retire. rewrite decide_False; [done |].
  intros Hg. apply Hout, of_generation_elem. by exists t.
Qed.

Lemma rollBack_serves why st :
  Rollout.serves_healthy_only st → Rollout.serves_healthy_only (Rollout.rollBack why st).
Proof. intros Hinv i Hi. by apply (retire_serves Rollout.New _ _ Hinv). Qed.

Lemma evaluate_serves cfg now st :
  Rollout.serves_healthy_only st → Rollout.serves_healthy_only (Rollout.evaluate cfg now st).
Proof.
  intros Hinv. unfold Rollout.evaluate.
  repeat case_decide; [by apply rollBack_serves | | done | done].
  intros i Hi. by apply (retire_serves Rollout.Previous _ _ Hinv).
Qed.

Lemma record_success_serves cfg i t st :
  Rollout.instances st !! i = Some t →
  Rollout.serves_healthy_only st →
  Rollout.serves_healthy_only (Rollout.record_success cfg i t st).
Proof.
  intros Ht Hinv. unfold Rollout.record_success.
  case_decide as Hh; intros j Hj; cbn in *.
  - destruct (decide (j = i)) as [->|Hne].
    + rewrite lookup_insert_eq. by eexists.
    + rewrite lookup_insert_ne by done. apply Hinv.
      apply elem_of_union in Hj as [Hj|Hj]; [|done].
      by apply elem_of_singleton in Hj.
  - destruct (decide (j = i)) as [->|Hne].
    + rewrite lookup_insert_eq. eexists. split; [done |]. cbn.
      destruct (Hinv i Hj) as (t' & Ht' & Hsub). congruence.
    + rewrite lookup_insert_ne by done. by apply Hinv.
Qed.

Lemma record_failure_serves cfg i t st :
  Rollout.instances st !! i = Some t →
  Rollout.serves_healthy_only st →
  Rollout.serves_healthy_only (Rollout.record_failure cfg i t st).
Proof.
  intros Ht Hinv. unfold Rollout.record_failure.
  case_decide as Hu; intros j Hj; cbn in *.
  - apply elem_of_difference in Hj as [Hj Hne].
    rewrite lookup_insert_ne; [by apply Hinv |].
    intros ->. by apply Hne, elem_of_singleton.
  - destruct (decide (j = i)) as [->|Hne].
    + rewrite lookup_insert_eq. eexists. split; [done |]. cbn.
      destruct (Hinv i Hj) as (t' & Ht' & Hsub). congruence.
    + rewrite lookup_insert_ne by done. by apply Hinv.
Qed.

Lemma step_serves cfg st ev :
  Rollout.serves_healthy_only st → Rollout.serves_healthy_only (Rollout.step cfg st ev).
Proof.
  intros Hinv. destruct ev as [i now|i now ok|now| |ok]; cbn.
  - unfold Rollout.launch.
    destruct (Rollout.phase st); try done; case_decide as Hl; try done;
      destruct Hl as [Hfree _]; intros j Hj; cbn in *;
      destruct (Hinv j Hj) as (t & Ht & Hsub);
      (rewrite lookup_insert_ne by congruence); by exists t.
  - unfold Rollout.poll.
    destruct (Rollout.phase st); try done.
    destruct (Rollout.instances st !! i) as [t|] eqn:Ht; [|done].
    case_decide; [|done]. destruct ok.
    + by apply evaluate_serves, record_success_serves.
    + case_decide; [done |]. by apply evaluate_serves, record_failure_serves.
  - destruct (Rollout.phase st); try done. case_decide; [|done].
    by apply rollBack_serves.
  - destruct (Rollout.phase st); try done; by apply rollBack_serves.
  - destruct (Rollout.phase st); try done. by destruct ok.
Qed.

Lemma deploy_serves desired now previous :
  Rollout.serves_healthy_only (Rollout.deploy desired now previous).
Proof.
  intros i Hi. cbn in *. exists (Rollout.previousInstance now).
  split; [|done]. by apply lookup_gset_to_gmap_Some.
Qed.

Lemma reachable_serves cfg desired now previous st :
  Rollout.reachable cfg desired now previous st → Rollout.serves_healthy_only st.
Proof.
  induction 1 as [|st ev _ IH]; [apply deploy_serves | by apply step_serves].
Qed.

Lemma reachable_run cfg desired now previous st evs :
  Rollout.reachable cfg desired now previous st →
  Rollout.reachable cfg desired now previous (Rollout.run cfg st evs).
Proof.
  revert st. induction evs as [|ev evs IH]; intros st Hst; [done |].
  cbn. apply IH. by constructor.
Qed.

(** What the aggregation after a counted poll can do to a state. *)
Lemma evaluate_cases cfg now st :
  (Rollout.evaluate cfg now st = Rollout.rollBack None st
   ∧ (Rollout.tolerance cfg < Rollout.runningUnhealthy st)%nat
   ∧ now - Rollout.startedAt st ≤ Rollout.gracePeriod cfg)
  ∨ (∃ since, Rollout.evaluate cfg now st = Rollout.settle since st
              ∧ (Rollout.desiredCount st ≤ Rollout.runningHealthy st)%nat
              ∧ since = default now (Rollout.stableSince st)
              ∧ Rollout.stabilization cfg ≤ now - since)
  ∨ (∃ since, Rollout.evaluate cfg now st = Rollout.stable since st
              ∧ ¬ ((Rollout.tolerance cfg < Rollout.runningUnhealthy st)%nat
                   ∧ now - Rollout.startedAt st ≤ Rollout.gracePeriod cfg)
              ∧ (((Rollout.desiredCount st ≤ Rollout.runningHealthy st)%nat
                  ∧ since = Some (default now (Rollout.stableSince st))
                  ∧ ¬ Rollout.stabilization cfg
                      ≤ now - default now (Rollout.stableSince st))
                 ∨ (¬ (Rollout.desiredCount st ≤ Rollout.runningHealthy st)%nat
                    ∧ since = None))).
Proof.
  unfold Rollout.evaluate. repeat case_decide.
  - by left.
  - right. left. by eexists.
  - right. right. eexists. split; [done |]. split; [done |]. by left.
  - right. right. eexists. split; [done |]. split; [done |]. by right.
Qed.

(** An instance enters the target set only by a passed poll in
    [HEALTH_EVALUATION] that completes its run of consecutive successes. *)
Lemma registration cfg st ev i :
  i ∉ Rollout.targetSet st →
  i ∈ Rollout.targetSet (Rollout.step cfg st ev) →
  ∃ now t t',
    ev = Rollout.Poll i now true
    ∧ Rollout.phase st = Rollout.HEALTH_EVALUATION
    ∧ Rollout.instances st !! i = Some t
    ∧ Rollout.sub t = Rollout.starting
    ∧ Rollout.instances (Rollout.step cfg st ev) !! i = Some t'
    ∧ Rollout.generation t' = Rollout.New
    ∧ Rollout.sub t' = Rollout.healthy
    ∧ Rollout.successes t' = S (Rollout.successes t)
    ∧ (Rollout.healthyThreshold cfg ≤ Rollout.successes t')%nat
    ∧ (Rollout.runningHealthy st < Rollout.runningHealthy (Rollout.step cfg st ev))%nat.
Proof.
  intros Hout Hin. destruct ev as [j now|j now ok|now| |ok]; cbn in Hin.
  - exfalso. unfold Rollout.launch in Hin.
    destruct (Rollout.phase st); try done; case_decide; done.
  - unfold Rollout.poll in Hin |- *. cbn [Rollout.step]. unfold Rollout.poll.
    destruct (Rollout.phase st) eqn:Hphase; try done.
    destruct (Rollout.instances st !! j) as [t|] eqn:Ht; [|done].
    case_decide as Hguard; [|done]. destruct Hguard as [Hnew Hsub].
    destruct ok.
    + unfold Rollout.record_success in Hin |- *.
      case_decide as Hh.
      * destruct Hh as [Hstarting Hthreshold].
        match type of Hin with
        | _ ∈ Rollout.targetSet (Rollout.evaluate _ _ ?s1) =>
            destruct (evaluate_cases cfg now s1)
              as [(Heq & _)|[(since & Heq & _)|(since & Heq & _)]];
              rewrite Heq in Hin |- *; cbn in Hin |- *
        end.
        -- exfalso. apply elem_of_difference in Hin as [Hin Hgone].
           apply elem_of_union in Hin as [->%elem_of_singleton|Hin]; [|done].
           apply Hgone, of_generation_elem. eexists.
           rewrite lookup_insert_eq. by split.
        -- apply elem_of_difference in Hin as [Hin _].
           apply elem_of_union in Hin as [->%elem_of_singleton|Hin]; [|done].
           exists now, t,
             {| Rollout.generation := Rollout.generation t;
                Rollout.sub := Rollout.healthy;
                Rollout.launchedAt := Rollout.launchedAt t;
                Rollout.successes := S (Rollout.successes t);
                Rollout.failures := 0 |}.
           split_and!; try done; cbn; try lia.
           rewrite lookup_fmap, lookup_insert_eq. cbn.
           unfold Rollout.retire. rewrite decide_False; [done |]. cbn. congruence.
        -- apply elem_of_union in Hin as [->%elem_of_singleton|Hin]; [|done].
           exists now, t,
             {| Rollout.generation := Rollout.generation t;
                Rollout.sub := Rollout.healthy;
                Rollout.launchedAt := Rollout.launchedAt t;
                Rollout.successes := S (Rollout.successes t);
                Rollout.failures := 0 |}.
           split_and!; try done; cbn; try lia.
           by rewrite lookup_insert_eq.
      * exfalso.
        match type of Hin with
        | _ ∈ Rollout.targetSet (Rollout.evaluate _ _ ?s1) =>
            destruct (evaluate_cases cfg now s1)
              as [(Heq & _)|[(since & Heq & _)|(since & Heq & _)]];
              rewrite Heq in Hin; cbn in Hin
        end; [apply elem_of_difference in Hin as [Hin _]
             |apply elem_of_difference in Hin as [Hin _] |]; done.
    + exfalso. case_decide; [done |].
      unfold Rollout.record_failure in Hin.
      match type of Hin with
      | _ ∈ Rollout.targetSet (Rollout.evaluate _ _ ?s1) =>
          destruct (evaluate_cases cfg now s1)
            as [(Heq & _)|[(since & Heq & _)|(since & Heq & _)]];
            rewrite Heq in Hin; cbn in Hin
      end; case_decide; cbn in Hin;
        repeat (apply elem_of_difference in Hin as [Hin _]); done.
  - exfalso. destruct (Rollout.phase st); try done. case_decide; [|done].
    cbn in Hin. by apply elem_of_difference in Hin as [Hin _].
  - exfalso. destruct (Rollout.phase st); try done;
      cbn in Hin; by apply elem_of_difference in Hin as [Hin _].
  - exfalso. destruct (Rollout.phase st); try done. by destruct ok.
Qed.

(** The rollout becomes [STEADY] only with the desired count of healthy new
    instances. *)
Lemma steady_gate cfg st ev :
  Rollout.phase st ≠ Rollout.STEADY →
  Rollout.phase (Rollout.step cfg st ev) = Rollout.STEADY →
  (Rollout.desiredCount (Rollout.step cfg st ev)
   ≤ Rollout.runningHealthy (Rollout.step cfg st ev))%nat.
Proof.
  intros Hnot Hsteady. destruct ev as [j now|j now ok|now| |ok]; cbn in *.
  - exfalso. unfold Rollout.launch in Hsteady.
    destruct (Rollout.phase st) eqn:Hphase; try done;
      repeat case_decide; cbn in Hsteady; try case_decide; congruence.
  - unfold Rollout.poll in *.
    destruct (Rollout.phase st) eqn:Hphase; try congruence.
    destruct (Rollout.instances st !! j) as [t|]; [|congruence].
    case_decide; [|congruence].
    assert (Hgate : ∀ s1, Rollout.phase s1 = Rollout.HEALTH_EVALUATION →
              Rollout.phase (Rollout.evaluate cfg now s1) = Rollout.STEADY →
              (Rollout.desiredCount (Rollout.evaluate cfg now s1)
               ≤ Rollout.runningHealthy (Rollout.evaluate cfg now s1))%nat).
    { intros s1 Hs1 Hs.
      destruct (evaluate_cases cfg now s1)
        as [(Heq & _)|[(since & Heq & Hge & _)|(since & Heq & _)]];
        rewrite Heq in Hs |- *; cbn in *; [done | done | congruence]. }
    destruct ok.
    + apply Hgate; [|done]. unfold Rollout.record_success. by case_decide.
    + case_decide; [congruence |].
      apply Hgate; [|done]. unfold Rollout.record_failure. by case_decide.
  - exfalso. destruct (Rollout.phase st) eqn:Hphase; try congruence.
    case_decide; [done | congruence].
  - exfalso. destruct (Rollout.phase st) eqn:Hphase; done || congruence.
  - exfalso. destruct (Rollout.phase st) eqn:Hphase; try congruence. by destruct ok.
Qed.

(** C7. In every state a deployment can reach, every member of the
    load-balancing target set is an instance in the healthy sub-state, so
    none is starting or unhealthy; an instance enters the target set only
    by the passed poll that brings its consecutive successes to the healthy
    threshold, the transition that also adds it to the count of healthy
    instances; and the rollout becomes [STEADY] only when that count has
    reached the desired count. *)
Theorem C7_traffic_only_to_healthy (cfg : Rollout.Config) (desired : nat) (now : Z)
    (previous : gset nat) (st : Rollout.RolloutState) :
  Rollout.reachable cfg desired now previous st →
  Rollout.serves_healthy_only st
  ∧ (∀ i t, i ∈ Rollout.targetSet st → Rollout.instances st !! i = Some t →
            Rollout.sub t ≠ Rollout.starting ∧ Rollout.sub t ≠ Rollout.unhealthy)
  ∧ (∀ ev i, i ∉ Rollout.targetSet st →
             i ∈ Rollout.targetSet (Rollout.step cfg st ev) →
             ∃ at_ t t',
               ev = Rollout.Poll i at_ true
               ∧ Rollout.phase st = Rollout.HEALTH_EVALUATION
               ∧ Rollout.instances st !! i = Some t
               ∧ Rollout.sub t = Rollout.starting
               ∧ Rollout.instances (Rollout.step cfg st ev) !! i = Some t'
               ∧ Rollout.generation t' = Rollout.New
               ∧ Rollout.sub t' = Rollout.healthy
               ∧ Rollout.successes t' = S (Rollout.successes t)
               ∧ (Rollout.healthyThreshold cfg ≤ Rollout.successes t')%nat
               ∧ (Rollout.runningHealthy st
                  < Rollout.runningHealthy (Rollout.step cfg st ev))%nat)
  ∧ (∀ ev, Rollout.phase st ≠ Rollout.STEADY →
           Rollout.phase (Rollout.step cfg st ev) = Rollout.STEADY →
           (Rollout.desiredCount (Rollout.step cfg st ev)
            ≤ Rollout.runningHealthy (Rollout.step cfg st ev))%nat).
Proof.
  intros Hreach. pose proof (reachable_serves _ _ _ _ _ Hreach) as Hinv.
  split_and!.
  - done.
  - intros i t Hi Ht. destruct (Hinv i Hi) as (t' & Ht' & Hsub).
    assert (t' = t) as -> by congruence. rewrite Hsub. by split.
  - intros ev i. apply registration.
  - intros ev. apply steady_gate.
Qed.

(** The settings of the application stack's target group and service, with
    no start period, no tolerance and no stabilization window. *)
Example target_group_rollout :
  Rollout.ofTargetCheck AppStack.targetHealthCheck AppStack.fargateServiceProps 0 0 0
  = {| Rollout.interval := 60; Rollout.healthyThreshold := 2;
       Rollout.unhealthyThreshold := 2; Rollout.startPeriod := 0;
       Rollout.tolerance := 0; Rollout.gracePeriod := 120;
       Rollout.stabilization := 0 |}.
Proof. reflexivity. Qed.

Lemma C7_witness :
  let cfg := Rollout.ofTargetCheck AppStack.targetHealthCheck
               AppStack.fargateServiceProps 0 0 0 in
  let st := Rollout.run cfg (Rollout.deploy 2 0 {[10%nat; 11%nat]})
              [Rollout.Launch 0 0; Rollout.Launch 1 0;
               Rollout.Poll 0 60 true; Rollout.Poll 1 60 false;
               Rollout.Poll 0 120 true] in
  Rollout.reachable cfg 2 0 {[10%nat; 11%nat]} st
  ∧ elements (Rollout.targetSet st) = [10%nat; 11%nat; 0%nat]
  ∧ Rollout.serves_healthy_only st.
Proof.
  intros cfg st.
  assert (Hreach : Rollout.reachable cfg 2 0 {[10%nat; 11%nat]} st).
  { apply reachable_run. constructor. }
  split; [done | split; [by vm_compute |]].
  exact (proj1 (C7_traffic_only_to_healthy cfg 2 0 {[10%nat; 11%nat]} st Hreach)).
Defined.

(** ** The rollout: failed polls and the rollback *)





(** ** The rollout: failures inside the start period *)

(** A failed poll strictly inside the start period of the polled instance
    changes nothing. *)
Lemma early_failure_dropped cfg st i at_ t :
  Rollout.instances st !! i = Some t →
  at_ - Rollout.launchedAt t < Rollout.startPeriod cfg →
  Rollout.step cfg st (Rollout.Poll i at_ false) = st.
Proof.
  intros Ht Hearly. cbn. unfold Rollout.poll. rewrite Ht.
  destruct (Rollout.phase st); try done.
  case_decide; [|done]. by rewrite decide_True.
Qed.

Lemma evaluate_quiet cfg at_ st :
  Rollout.runningUnhealthy st = 0%nat →
  Rollout.rollbacks (Rollout.evaluate cfg at_ st) = Rollout.rollbacks st
  ∧ Rollout.runningUnhealthy (Rollout.evaluate cfg at_ st) = 0%nat
  ∧ (Rollout.phase (Rollout.evaluate cfg at_ st) = Rollout.phase st
     ∨ Rollout.phase (Rollout.evaluate cfg at_ st) = Rollout.STEADY).
Proof.
  intros Hzero.
  destruct (evaluate_cases cfg at_ st)
    as [(Heq & Hover & _)|[(since & Heq & _)|(since & Heq & _)]]; rewrite Heq; cbn.
  - lia.
  - split_and!; [done | done | by right].
  - split_and!; [done | done | by left].
Qed.

(** While every failed poll falls inside a start period, and nothing else
    happens than launches and polls, no instance is counted as unhealthy
    and no rollback begins. *)
Lemma fail_early_quiet cfg st evs :
  Rollout.fail_early cfg st evs →
  Rollout.runningUnhealthy st = 0%nat →
  ¬ Rollout.rolled_back (Rollout.phase st) →
  Rollout.runningUnhealthy (Rollout.run cfg st evs) = 0%nat
  ∧ Rollout.rollbacks (Rollout.run cfg st evs) = Rollout.rollbacks st
  ∧ ¬ Rollout.rolled_back (Rollout.phase (Rollout.run cfg st evs)).
Proof.
  revert st. induction evs as [|ev evs IH]; intros st Hearly Hzero Hphase; [done |].
  destruct Hearly as [Hev Hearly]. cbn [Rollout.run foldl].
  assert (Hstep : Rollout.runningUnhealthy (Rollout.step cfg st ev) = 0%nat
                  ∧ Rollout.rollbacks (Rollout.step cfg st ev) = Rollout.rollbacks st
                  ∧ ¬ Rollout.rolled_back (Rollout.phase (Rollout.step cfg st ev))).
  { destruct ev as [j at_|j at_ ok|at_| |ok]; try done.
    - cbn. unfold Rollout.launch.
      destruct (Rollout.phase st) eqn:Hp;
        try (split_and!; [done | done | by rewrite Hp]).
      all: case_decide; [|split_and!; [done | done | by rewrite Hp]].
      all: cbn; split_and!; [done | done |].
      all: unfold Rollout.rolled_back; case_decide; by intros [?|[?|?]].
    - destruct ok.
      + cbn. unfold Rollout.poll.
        destruct (Rollout.phase st) eqn:Hp;
          try (split_and!; [done | done | by rewrite Hp]).
        destruct (Rollout.instances st !! j) as [t|] eqn:Ht;
          [|split_and!; [done | done | by rewrite Hp]].
        case_decide; [|split_and!; [done | done | by rewrite Hp]].
        match goal with
        | |- context [Rollout.evaluate cfg at_ ?s1] =>
            assert (Hs1 : Rollout.runningUnhealthy s1 = 0%nat
                          ∧ Rollout.rollbacks s1 = Rollout.rollbacks st
                          ∧ Rollout.phase s1 = Rollout.HEALTH_EVALUATION)
              by (unfold Rollout.record_success; by case_decide);
            destruct Hs1 as (Hu1 & Hr1 & Hp1);
            destruct (evaluate_quiet cfg at_ s1 Hu1) as (Hr & Hu & Hph)
        end.
        split_and!; [done | by rewrite Hr |].
        unfold Rollout.rolled_back. destruct Hph as [Hph|Hph]; rewrite Hph;
          [rewrite Hp1|]; by intros [?|[?|?]].
      + destruct (Hev eq_refl) as (t & Ht & Hlt).
        by rewrite (early_failure_dropped cfg st j at_ t). }
  destruct Hstep as (Hu & Hr & Hp).
  destruct (IH _ Hearly Hu Hp) as (Hu' & Hr' & Hp').
  split_and!; [exact Hu' | rewrite <- Hr; exact Hr' | exact Hp'].
Qed.

(** What counting a passed poll does to a young instance. *)
Lemma record_success_young cfg st i t :
  Rollout.young_instance t →
  ∃ t', Rollout.record_success cfg i t st
        = Rollout.counted i t'
            (if decide (Rollout.sub t = Rollout.starting
                        ∧ (Rollout.healthyThreshold cfg ≤ S (Rollout.successes t))%nat)
             then {[i]} ∪ Rollout.targetSet st else Rollout.targetSet st)
            (Rollout.runningHealthy st + Rollout.is_healthy t' - Rollout.is_healthy t)
            (Rollout.runningUnhealthy st) st
        ∧ Rollout.young_instance t'
        ∧ (Rollout.is_healthy t ≤ Rollout.is_healthy t')%nat
        ∧ (Rollout.needs cfg t' < Rollout.needs cfg t ∨ Rollout.needs cfg t = 0)%nat
        ∧ (Rollout.needs cfg t' ≤ Rollout.needs cfg t)%nat.
Proof.
  intros (Hnew & Hat & Hsub). unfold Rollout.record_success.
  case_decide as Hh.
  - destruct Hh as [Hstarting Hthreshold].
    exists {| Rollout.generation := Rollout.generation t;
              Rollout.sub := Rollout.healthy;
              Rollout.launchedAt := Rollout.launchedAt t;
              Rollout.successes := S (Rollout.successes t);
              Rollout.failures := 0 |}.
    unfold Rollout.is_healthy, Rollout.needs. cbn. rewrite Hstarting.
    repeat case_decide; try congruence.
    split_and!; [f_equal; lia | by split_and!; [| |right] | lia | lia | lia].
  - exists {| Rollout.generation := Rollout.generation t;
              Rollout.sub := Rollout.sub t;
              Rollout.launchedAt := Rollout.launchedAt t;
              Rollout.successes := S (Rollout.successes t);
              Rollout.failures := 0 |}.
    unfold Rollout.is_healthy, Rollout.needs. cbn.
    destruct (decide (Rollout.sub t = Rollout.healthy)) as [Hs|Hs].
    + split_and!; [f_equal; lia | by split_and!; [| |right] | lia | lia | lia].
    + destruct Hsub as [Hsub|Hsub]; [|done].
      assert (¬ (Rollout.healthyThreshold cfg ≤ S (Rollout.successes t))%nat) by tauto.
      split_and!; [f_equal; lia | by split_and!; [| |left] | lia | lia | lia].
Qed.

Lemma counts_healthy_bound st j : (Rollout.counts_healthy st j ≤ 1)%nat.
Proof.
  unfold Rollout.counts_healthy, Rollout.is_healthy.
  destruct (Rollout.instances st !! j); cbn; [case_decide |]; lia.
Qed.

(** A passed poll on one of the two instances, while the rollout is under
    evaluation: the rollout becomes steady, or stays under evaluation with
    that instance nearer to healthy. *)
Lemma poll_pass cfg st i at_ :
  Rollout.evaluating st → (i = 0 ∨ i = 1)%nat →
  let st' := Rollout.step cfg st (Rollout.Poll i at_ true) in
  Rollout.settled st'
  ∨ (Rollout.evaluating st'
     ∧ (∀ j, Rollout.deficit cfg st' j ≤ Rollout.deficit cfg st j)%nat
     ∧ (Rollout.deficit cfg st' i < Rollout.deficit cfg st i
        ∨ Rollout.deficit cfg st i = 0)%nat
     ∧ (∀ since, Rollout.stableSince st = Some since →
                 (Rollout.counts_healthy st 0 + Rollout.counts_healthy st 1 = 2)%nat →
                 Rollout.stableSince st' = Some since
                 ∧ at_ - since < Rollout.stabilization cfg)).
Proof.
  intros (Hp & Hd & Hu & Hr & Hy0 & Hy1 & Hrh & Hss) Hi st'.
  assert (Hyi : Rollout.young st i) by (by destruct Hi as [->| ->]).
  destruct Hyi as (t & Ht & Hyoung).
  assert (Hst' : st' = Rollout.evaluate cfg at_ (Rollout.record_success cfg i t st)).
  { unfold st'. cbn. unfold Rollout.poll. rewrite Hp, Ht.
    destruct Hyoung as (? & ? & ?). by rewrite decide_True. }
  destruct (record_success_young cfg st i t Hyoung)
    as (t' & Heq & Hy' & Hmono & Hneeds & Hle).
  rewrite Heq in Hst'. clear Heq.
  match type of Hst' with
  | _ = Rollout.evaluate _ _ ?s => set (s1 := s) in *
  end.
  assert (Hci : Rollout.counts_healthy st i = Rollout.is_healthy t).
  { unfold Rollout.counts_healthy. by rewrite Ht. }
  assert (Hdi : Rollout.deficit cfg st i = Rollout.needs cfg t).
  { unfold Rollout.deficit. by rewrite Ht. }
  destruct (evaluate_cases cfg at_ s1)
    as [(Heq & Hover & _)|[(since & Heq & _)|(since & Heq & Hnot & Hsince)]];
    rewrite Heq in Hst'; clear Heq.
  - cbn in Hover. lia.
  - left. rewrite Hst'. by split.
  - right.
    assert (Hinst : Rollout.instances st' = <[i := t']> (Rollout.instances st))
      by (by rewrite Hst').
    assert (Hci' : Rollout.counts_healthy st' i = Rollout.is_healthy t').
    { unfold Rollout.counts_healthy. by rewrite Hinst, lookup_insert_eq. }
    assert (Hdi' : Rollout.deficit cfg st' i = Rollout.needs cfg t').
    { unfold Rollout.deficit. by rewrite Hinst, lookup_insert_eq. }
    assert (Hother : ∀ j, j ≠ i →
              Rollout.counts_healthy st' j = Rollout.counts_healthy st j
              ∧ Rollout.deficit cfg st' j = Rollout.deficit cfg st j
              ∧ (Rollout.young st j → Rollout.young st' j)).
    { intros j Hj. unfold Rollout.counts_healthy, Rollout.deficit, Rollout.young.
      by rewrite Hinst, lookup_insert_ne. }
    assert (Hyi' : Rollout.young st' i).
    { exists t'. by rewrite Hinst, lookup_insert_eq. }
    assert (Hrh' : Rollout.runningHealthy st'
                   = (Rollout.counts_healthy st' 0 + Rollout.counts_healthy st' 1)%nat).
    { assert (Hrun : Rollout.runningHealthy st'
                     = (Rollout.runningHealthy st + Rollout.is_healthy t'
                        - Rollout.is_healthy t)%nat) by (by rewrite Hst').
      rewrite Hrun, Hrh.
      destruct Hi as [-> | ->].
      - destruct (Hother 1%nat) as (-> & _ & _); [done |]. rewrite Hci', Hci. lia.
      - destruct (Hother 0%nat) as (-> & _ & _); [done |]. rewrite Hci', Hci. lia. }
    assert (Hsince' : Rollout.stableSince st' = since) by (by rewrite Hst').
    assert (Hrun1 : Rollout.runningHealthy s1 = Rollout.runningHealthy st'
                    ∧ Rollout.desiredCount s1 = 2%nat
                    ∧ Rollout.stableSince s1 = Rollout.stableSince st).
    { rewrite Hst'. by split_and!. }
    destruct Hrun1 as (Hrun1 & Hdes1 & Hsince1).
    split_and!.
    + split_and!.
      * by rewrite Hst'.
      * by rewrite Hst'.
      * by rewrite Hst'.
      * by rewrite Hst'.
      * destruct Hi as [-> | ->]; [done |]. by apply (Hother 0%nat).
      * destruct Hi as [-> | ->]; [|done]. by apply (Hother 1%nat).
      * done.
      * intros Hboth. rewrite Hsince'.
        destruct Hsince as [(_ & -> & _)|(Hless & _)]; [done |].
        rewrite Hdes1, Hrun1, Hrh' in Hless. lia.
    + intros j. destruct (decide (j = i)) as [-> | Hj].
      * rewrite Hdi', Hdi. lia.
      * by destruct (Hother j Hj) as (_ & -> & _).
    + rewrite Hdi', Hdi. lia.
    + intros since0 Hs0 Hboth. rewrite Hsince'.
      assert (Hkept : (Rollout.counts_healthy st' 0
                       + Rollout.counts_healthy st' 1 = 2)%nat).
      { assert (Hbound : (Rollout.is_healthy t' ≤ 1)%nat)
          by (unfold Rollout.is_healthy; case_decide; lia).
        pose proof (counts_healthy_bound st 0) as Hb0.
        pose proof (counts_healthy_bound st 1) as Hb1.
        destruct Hi as [-> | ->].
        - destruct (Hother 1%nat) as (-> & _ & _); [done |].
          rewrite Hci'. rewrite Hci in Hboth. lia.
        - destruct (Hother 0%nat) as (-> & _ & _); [done |].
          rewrite Hci'. rewrite Hci in Hboth. lia. }
      destruct Hsince as [(_ & -> & Hwait)|(Hless & _)].
      * rewrite Hsince1, Hs0 in Hwait |- *. cbn in Hwait |- *. split; [done | lia].
      * rewrite Hdes1, Hrun1, Hrh' in Hless. lia.
Qed.

Lemma settled_poll cfg st i at_ ok :
  Rollout.settled st → Rollout.step cfg st (Rollout.Poll i at_ ok) = st.
Proof.
  intros [Hp _]. cbn. unfold Rollout.poll. by rewrite Hp.
Qed.

Lemma settled_round cfg health at_ st :
  Rollout.settled st → Rollout.poll_round cfg health [0; 1]%nat at_ st = st.
Proof.
  intros Hs. unfold Rollout.poll_round. cbn [foldl].
  rewrite (settled_poll cfg st) by done. by rewrite settled_poll.
Qed.

Lemma settled_rounds cfg health n k st :
  Rollout.settled st → Rollout.poll_rounds cfg health [0; 1]%nat n k st = st.
Proof.
  revert k. induction n as [|n IH]; intros k Hs; [done |].
  cbn [Rollout.poll_rounds]. rewrite settled_round by done. by apply IH.
Qed.

Lemma poll_rounds_app cfg health ids a b k st :
  Rollout.poll_rounds cfg health ids (a + b) k st
  = Rollout.poll_rounds cfg health ids b (k + Z.of_nat a)
      (Rollout.poll_rounds cfg health ids a k st).
Proof.
  revert k st. induction a as [|a IH]; intros k st.
  - cbn. by rewrite Z.add_0_r.
  - cbn [Nat.add Rollout.poll_rounds]. rewrite IH.
    by replace (k + Z.of_nat (S a)) with (k + 1 + Z.of_nat a) by lia.
Qed.

(** Under evaluation, both instances are healthy exactly when neither
    needs another passed poll. *)
Lemma healed cfg st :
  Rollout.evaluating st →
  Rollout.total_deficit cfg st = 0%nat →
  (Rollout.counts_healthy st 0 + Rollout.counts_healthy st 1 = 2)%nat.
Proof.
  intros (_ & _ & _ & _ & (t0 & Ht0 & _) & (t1 & Ht1 & _) & _) Hzero.
  unfold Rollout.total_deficit, Rollout.deficit, Rollout.counts_healthy in *.
  rewrite Ht0, Ht1 in *. cbn in *. unfold Rollout.needs, Rollout.is_healthy in *.
  repeat case_decide; lia.
Qed.

(** One poll of one of the two instances, passed, or failed before the
    start period has elapsed. *)
Lemma poll_any cfg st i at_ ok :
  Rollout.evaluating st → (i = 0 ∨ i = 1)%nat →
  (ok = false → at_ < Rollout.startPeriod cfg) →
  let st' := Rollout.step cfg st (Rollout.Poll i at_ ok) in
  Rollout.settled st'
  ∨ (Rollout.evaluating st'
     ∧ (∀ j, Rollout.deficit cfg st' j ≤ Rollout.deficit cfg st j)%nat
     ∧ (ok = true → (Rollout.deficit cfg st' i < Rollout.deficit cfg st i
                     ∨ Rollout.deficit cfg st i = 0)%nat)
     ∧ (∀ since, Rollout.stableSince st = Some since →
                 Rollout.total_deficit cfg st = 0%nat →
                 Rollout.stableSince st' = Some since
                 ∧ (ok = true → at_ - since < Rollout.stabilization cfg))).
Proof.
  intros Hev Hi Hok st'. destruct ok.
  - destruct (poll_pass cfg st i at_ Hev Hi) as [Hs|(Hev' & Hle & Hlt & Hsince)];
      [by left | right].
    split_and!; [done | done | done |].
    intros since Hs0 Hzero.
    destruct (Hsince since Hs0 (healed cfg st Hev Hzero)) as [Hkept Hwait].
    by split.
  - right.
    assert (Hsame : st' = st).
    { pose proof Hev as (_ & _ & _ & _ & Hy0 & Hy1 & _).
      assert (Hyi : Rollout.young st i) by (by destruct Hi as [->| ->]).
      destruct Hyi as (t & Ht & _ & Hat & _).
      apply (early_failure_dropped cfg st i at_ t Ht). rewrite Hat.
      specialize (Hok eq_refl). lia. }
    rewrite Hsame. split_and!; [done | done | done |].
    intros since Hs0 _. by split.
Qed.

(** One round of polls of the two instances. *)
Lemma round_any cfg health st at_ :
  Rollout.evaluating st →
  (∀ i, health i at_ = false → at_ < Rollout.startPeriod cfg) →
  let st' := Rollout.poll_round cfg health [0; 1]%nat at_ st in
  Rollout.settled st'
  ∨ (Rollout.evaluating st'
     ∧ (Rollout.total_deficit cfg st' ≤ Rollout.total_deficit cfg st)%nat
     ∧ (health 0%nat at_ = true → health 1%nat at_ = true →
        (Rollout.total_deficit cfg st' < Rollout.total_deficit cfg st
         ∨ Rollout.total_deficit cfg st = 0)%nat)
     ∧ (∀ since, Rollout.stableSince st = Some since →
                 Rollout.total_deficit cfg st = 0%nat →
                 Rollout.stableSince st' = Some since
                 ∧ (health 1%nat at_ = true → at_ - since < Rollout.stabilization cfg))).
Proof.
  intros Hev Hearly st'. unfold st', Rollout.poll_round. cbn [foldl].
  destruct (poll_any cfg st 0%nat at_ (health 0%nat at_) Hev)
    as [Hs|(Hev1 & Hle1 & Hlt1 & Hsince1)]; [by left | apply Hearly | |].
  { left. by rewrite settled_poll. }
  set (st1 := Rollout.step cfg st (Rollout.Poll 0 at_ (health 0%nat at_))) in *.
  destruct (poll_any cfg st1 1%nat at_ (health 1%nat at_) Hev1)
    as [Hs|(Hev2 & Hle2 & Hlt2 & Hsince2)]; [by right | apply Hearly | by left |].
  right. unfold Rollout.total_deficit.
  pose proof (Hle1 0%nat). pose proof (Hle1 1%nat).
  pose proof (Hle2 0%nat). pose proof (Hle2 1%nat).
  split_and!.
  - done.
  - lia.
  - intros Hok0 Hok1. specialize (Hlt1 Hok0). specialize (Hlt2 Hok1). lia.
  - intros since Hs0 Hzero.
    destruct (Hsince1 since Hs0 Hzero) as [Hs1 _].
    assert (Hzero1 : Rollout.total_deficit cfg st1 = 0%nat).
    { unfold Rollout.total_deficit in *. lia. }
    destruct (Hsince2 since Hs1 Hzero1) as [Hs2 Hwait]. by split.
Qed.

Lemma launch_fresh i now st :
  Rollout.phase st = Rollout.PENDING ∨ Rollout.phase st = Rollout.SCALING_UP →
  Rollout.instances st !! i = None →
  (Rollout.launched st < Rollout.desiredCount st)%nat →
  Rollout.launch i now st
  = {| Rollout.desiredCount := Rollout.desiredCount st;
       Rollout.runningHealthy := Rollout.runningHealthy st;
       Rollout.runningUnhealthy := Rollout.runningUnhealthy st;
       Rollout.phase := if decide (S (Rollout.launched st) = Rollout.desiredCount st)
                        then Rollout.HEALTH_EVALUATION else Rollout.SCALING_UP;
       Rollout.startedAt := Rollout.startedAt st;
       Rollout.instances := <[i := Rollout.newInstance now]> (Rollout.instances st);
       Rollout.targetSet := Rollout.targetSet st;
       Rollout.launched := S (Rollout.launched st);
       Rollout.stableSince := Rollout.stableSince st;
       Rollout.rollbacks := Rollout.rollbacks st;
       Rollout.failure := Rollout.failure st |}.
Proof.
  intros Hphase Hfree Hroom. unfold Rollout.launch.
  destruct Hphase as [-> | ->];
    by rewrite (decide_True (P := _ ∧ _)) by done.
Qed.

Lemma two_started_eq cfg (previous : gset nat) :
  0%nat ∉ previous → 1%nat ∉ previous →
  Rollout.two_started cfg previous
  = {| Rollout.desiredCount := 2;
       Rollout.runningHealthy := 0;
       Rollout.runningUnhealthy := 0;
       Rollout.phase := Rollout.HEALTH_EVALUATION;
       Rollout.startedAt := 0;
       Rollout.instances :=
         <[1%nat := Rollout.newInstance 0]>
           (<[0%nat := Rollout.newInstance 0]>
              (gset_to_gmap (Rollout.previousInstance 0) previous));
       Rollout.targetSet := previous;
       Rollout.launched := 2;
       Rollout.stableSince := None;
       Rollout.rollbacks := 0;
       Rollout.failure := None |}.
Proof.
  intros H0 H1. unfold Rollout.two_started, Rollout.run. cbn [foldl Rollout.step].
  rewrite (launch_fresh 0%nat 0 (Rollout.deploy 2 0 previous));
    [| by left | by apply lookup_gset_to_gmap_None | cbn; lia].
  rewrite launch_fresh; cbn; [done | by right | | lia].
  rewrite lookup_insert_ne by done. by apply lookup_gset_to_gmap_None.
Qed.

Lemma two_started_evaluating cfg (previous : gset nat) :
  0%nat ∉ previous → 1%nat ∉ previous →
  Rollout.evaluating (Rollout.two_started cfg previous).
Proof.
  intros H0 H1. rewrite two_started_eq by done.
  unfold Rollout.evaluating, Rollout.young, Rollout.counts_healthy. cbn.
  rewrite lookup_insert_eq, lookup_insert_ne, lookup_insert_eq by done. cbn.
  split_and!; try done.
  - eexists. split; [done |]. by split_and!; [| |left].
  - eexists. split; [done |]. by split_and!; [| |left].
Qed.

(** Rounds of polls keep the rollout under evaluation, or steady, while the
    failed checks fall before the start period has elapsed. *)
Lemma rounds_keep cfg health n k st :
  (∀ i at_, health i at_ = false → at_ < Rollout.startPeriod cfg) →
  Rollout.evaluating st ∨ Rollout.settled st →
  Rollout.evaluating (Rollout.poll_rounds cfg health [0; 1]%nat n k st)
  ∨ Rollout.settled (Rollout.poll_rounds cfg health [0; 1]%nat n k st).
Proof.
  intros Hearly. revert k st. induction n as [|n IH]; intros k st Hst; [done |].
  cbn [Rollout.poll_rounds]. apply IH.
  destruct Hst as [Hev|Hs]; [|right; by rewrite settled_round].
  destruct (round_any cfg health st (Rollout.interval cfg * k) Hev)
    as [Hs|(Hev' & _)]; [intros i; apply Hearly | by right | by left].
Qed.

(** Once every check passes, each round brings the two instances nearer to
    healthy, until both are. *)
Lemma rounds_heal cfg health n k st :
  (∀ i at_, health i at_ = false → at_ < Rollout.startPeriod cfg) →
  0 < Rollout.interval cfg →
  Rollout.startPeriod cfg ≤ Rollout.interval cfg * k →
  Rollout.evaluating st →
  let st' := Rollout.poll_rounds cfg health [0; 1]%nat n k st in
  Rollout.settled st'
  ∨ (Rollout.evaluating st'
     ∧ (Rollout.total_deficit cfg st' + n ≤ Rollout.total_deficit cfg st
        ∨ Rollout.total_deficit cfg st' = 0)%nat).
Proof.
  intros Hearly Hpos. revert k st.
  induction n as [|n IH]; intros k st Hk Hev st'.
  - right. split; [done |]. left. unfold st'. cbn. lia.
  - unfold st'. cbn [Rollout.poll_rounds].
    assert (Hpass : ∀ i, health i (Rollout.interval cfg * k) = true).
    { intros i. destruct (health i (Rollout.interval cfg * k)) eqn:Hh; [done |].
      apply Hearly in Hh. lia. }
    destruct (round_any cfg health st (Rollout.interval cfg * k) Hev)
      as [Hs|(Hev1 & Hle & Hlt & _)]; [intros i; apply Hearly | |].
    { left. by rewrite settled_rounds. }
    specialize (Hlt (Hpass 0%nat) (Hpass 1%nat)).
    destruct (IH (k + 1) _ ltac:(nia) Hev1) as [Hs|(Hev2 & Hdone)]; [by left |].
    right. split; [done |]. lia.
Qed.

(** With both instances healthy and every check passing, the rollout is
    steady as soon as the stabilization window has gone by. *)
Lemma rounds_stabilize cfg health n k st since :
  (∀ i at_, health i at_ = false → at_ < Rollout.startPeriod cfg) →
  0 < Rollout.interval cfg →
  Rollout.startPeriod cfg ≤ Rollout.interval cfg * k →
  Rollout.evaluating st →
  Rollout.total_deficit cfg st = 0%nat →
  Rollout.stableSince st = Some since →
  let st' := Rollout.poll_rounds cfg health [0; 1]%nat n k st in
  Rollout.settled st'
  ∨ (Rollout.evaluating st'
     ∧ ((0 < n)%nat →
        Rollout.interval cfg * (k + Z.of_nat n - 1) - since
        < Rollout.stabilization cfg)).
Proof.
  intros Hearly Hpos. revert k st.
  induction n as [|n IH]; intros k st Hk Hev Hzero Hsince st'.
  - right. split; [done | lia].
  - unfold st'. cbn [Rollout.poll_rounds].
    assert (Hpass : ∀ i, health i (Rollout.interval cfg * k) = true).
    { intros i. destruct (health i (Rollout.interval cfg * k)) eqn:Hh; [done |].
      apply Hearly in Hh. lia. }
    destruct (round_any cfg health st (Rollout.interval cfg * k) Hev)
      as [Hs|(Hev1 & Hle & _ & Hkept)]; [intros i; apply Hearly | |].
    { left. by rewrite settled_rounds. }
    destruct (Hkept since Hsince Hzero) as [Hsince1 Hwait].
    specialize (Hwait (Hpass 1%nat)).
    destruct (IH (k + 1) _ ltac:(nia) Hev1 ltac:(lia) Hsince1)
      as [Hs|(Hev2 & Hlater)]; [by left |].
    right. split; [done |]. intros _.
    destruct n as [|n]; [by replace (k + Z.of_nat 1 - 1) with k by lia |].
    replace (k + Z.of_nat (S (S n)) - 1) with (k + 1 + Z.of_nat (S n) - 1) by lia.
    apply Hlater. lia.
Qed.

Lemma settled_onwards cfg health n m k st :
  Rollout.settled (Rollout.poll_rounds cfg health [0; 1]%nat n k st) →
  (n ≤ m)%nat →
  Rollout.settled (Rollout.poll_rounds cfg health [0; 1]%nat m k st).
Proof.
  intros Hs Hle. replace m with (n + (m - n))%nat by lia.
  rewrite poll_rounds_app. by rewrite settled_rounds.
Qed.

(** Two new instances whose failed checks all fall before the start period
    has elapsed: after enough rounds of polls the rollout is steady, and it
    stays so. *)
Lemma two_instances_settle cfg health (previous : gset nat) :
  0 < Rollout.interval cfg →
  0%nat ∉ previous → 1%nat ∉ previous →
  (∀ i at_, health i at_ = false → at_ < Rollout.startPeriod cfg) →
  ∃ n, Rollout.settled
         (Rollout.poll_rounds cfg health [0; 1]%nat n 1
            (Rollout.two_started cfg previous)).
Proof.
  intros Hpos H0 H1 Hearly.
  pose proof (two_started_evaluating cfg previous H0 H1) as Hev0.
  set (st0 := Rollout.two_started cfg previous) in *.
  set (r0 := (Z.to_nat (Rollout.startPeriod cfg / Rollout.interval cfg) + 1)%nat).
  set (k1 := 1 + Z.of_nat r0).
  assert (Hk1 : Rollout.startPeriod cfg ≤ Rollout.interval cfg * k1).
  { pose proof (Z.mul_succ_div_gt (Rollout.startPeriod cfg) (Rollout.interval cfg) Hpos).
    assert (Z.succ (Rollout.startPeriod cfg / Rollout.interval cfg) ≤ k1)
      by (unfold k1, r0; lia).
    nia. }
  destruct (rounds_keep cfg health r0 1 st0 Hearly (or_introl Hev0)) as [Hev1|Hs1];
    [|by exists r0].
  set (st1 := Rollout.poll_rounds cfg health [0; 1]%nat r0 1 st0) in *.
  set (d1 := Rollout.total_deficit cfg st1).
  destruct (rounds_heal cfg health d1 k1 st1 Hearly Hpos Hk1 Hev1)
    as [Hs2|(Hev2 & Hd2)].
  { exists (r0 + d1)%nat. rewrite poll_rounds_app. exact Hs2. }
  set (st2 := Rollout.poll_rounds cfg health [0; 1]%nat d1 k1 st1) in *.
  assert (Hzero : Rollout.total_deficit cfg st2 = 0%nat) by (unfold d1 in Hd2; lia).
  pose proof (healed cfg st2 Hev2 Hzero) as Hboth.
  pose proof Hev2 as (_ & _ & _ & _ & _ & _ & _ & Hsince).
  destruct (Hsince Hboth) as [since Hs].
  set (k2 := k1 + Z.of_nat d1).
  set (n2 := (Z.to_nat ((Rollout.stabilization cfg + since) / Rollout.interval cfg)
              + 1)%nat).
  assert (Hk2 : Rollout.startPeriod cfg ≤ Rollout.interval cfg * k2)
    by (unfold k2; nia).
  destruct (rounds_stabilize cfg health n2 k2 st2 since Hearly Hpos Hk2 Hev2 Hzero Hs)
    as [Hs3|(_ & Hlater)].
  { exists (r0 + d1 + n2)%nat. rewrite !poll_rounds_app.
    replace (1 + Z.of_nat (r0 + d1)) with k2 by (unfold k2, k1; lia).
    exact Hs3. }
  exfalso. specialize (Hlater ltac:(unfold n2; lia)).
  pose proof (Z.mul_succ_div_gt (Rollout.stabilization cfg + since)
                (Rollout.interval cfg) Hpos).
  assert (Z.succ ((Rollout.stabilization cfg + since) / Rollout.interval cfg)
          ≤ k2 + Z.of_nat n2 - 1) by (unfold k2, k1, n2; lia).
  nia.
Qed.

(** C3. A failed check strictly inside the start period of its instance is
    dropped: it changes nothing, so it begins no rollback; along any run of
    launches and polls whose failures all fall inside start periods, for
    any desired count, no instance is counted unhealthy and the rollout is
    never rolled back. And for two new instances started with the
    deployment, polled every interval, whose checks fail only before the
    start period has elapsed (120 s for failures in the first 90 s): the
    rollout is never rolled back and ends, and stays, [STEADY] with zero
    rollbacks. *)
Theorem C3_start_period_failures_never_roll_back (cfg : Rollout.Config) :
  (∀ st i at_ t,
     Rollout.instances st !! i = Some t →
     at_ - Rollout.launchedAt t < Rollout.startPeriod cfg →
     Rollout.step cfg st (Rollout.Poll i at_ false) = st)
  ∧ (∀ desired now previous evs,
       Rollout.fail_early cfg (Rollout.deploy desired now previous) evs →
       let st := Rollout.run cfg (Rollout.deploy desired now previous) evs in
       ¬ Rollout.rolled_back (Rollout.phase st)
       ∧ Rollout.rollbacks st = 0%nat
       ∧ Rollout.runningUnhealthy st = 0%nat)
  ∧ (∀ health (previous : gset nat),
       0 < Rollout.interval cfg →
       0%nat ∉ previous → 1%nat ∉ previous →
       (∀ i at_, health i at_ = false → at_ < Rollout.startPeriod cfg) →
       (∀ m, let st := Rollout.poll_rounds cfg health [0; 1]%nat m 1
                         (Rollout.two_started cfg previous) in
             ¬ Rollout.rolled_back (Rollout.phase st)
             ∧ Rollout.rollbacks st = 0%nat)
       ∧ ∃ n, ∀ m, (n ≤ m)%nat →
           let st := Rollout.poll_rounds cfg health [0; 1]%nat m 1
                       (Rollout.two_started cfg previous) in
           Rollout.phase st = Rollout.STEADY ∧ Rollout.rollbacks st = 0%nat).
Proof.
  split_and!.
  - intros st i at_ t. apply early_failure_dropped.
  - intros desired now previous evs Hearly st.
    destruct (fail_early_quiet cfg (Rollout.deploy desired now previous) evs Hearly)
      as (Hu & Hr & Hp); [done | by intros [?|[?|?]] |].
    by split_and!.
  - intros health previous Hpos H0 H1 Hearly. split.
    + intros m st.
      destruct (rounds_keep cfg health m 1 (Rollout.two_started cfg previous) Hearly)
        as [(Hp & _ & _ & Hr & _)|(Hp & Hr)];
        [left; by apply two_started_evaluating | |];
        (split; [|done]); fold st in Hp; rewrite Hp; by intros [?|[?|?]].
    + destruct (two_instances_settle cfg health previous Hpos H0 H1 Hearly)
        as [n Hn].
      exists n. intros m Hm st. by apply (settled_onwards cfg health n m).
Qed.

(** The settings of the application stack's container health check and
    service: the scenario's start period of 120 s, interval of 30 s,
    unhealthy threshold of 3 and desired count of 2. *)
Example container_rollout :
  Rollout.ofContainerCheck AppStack.healthCheck AppStack.fargateServiceProps 1 0 0
  = {| Rollout.interval := 30; Rollout.healthyThreshold := 1;
       Rollout.unhealthyThreshold := 3; Rollout.startPeriod := 120;
       Rollout.tolerance := 0; Rollout.gracePeriod := 120;
       Rollout.stabilization := 0 |}
  ∧ ecs.desiredCount AppStack.fargateServiceProps = 2%nat.
Proof. by split. Qed.

(** The scenario run: the polls at 30, 60 and 90 s fail and are dropped,
    the polls at 120 s pass, and the rollout is steady with no rollback. *)
Example scenario_run :
  let cfg := Rollout.ofContainerCheck AppStack.healthCheck
               AppStack.fargateServiceProps 1 0 0 in
  let health := fun (_ : nat) (at_ : Z) => 90 <? at_ in
  map (fun m => Rollout.phase
                  (Rollout.poll_rounds cfg health [0; 1]%nat m 1
                     (Rollout.two_started cfg ∅)))
      [0; 1; 2; 3; 4; 5]%nat
  = [Rollout.HEALTH_EVALUATION; Rollout.HEALTH_EVALUATION;
     Rollout.HEALTH_EVALUATION; Rollout.HEALTH_EVALUATION;
     Rollout.STEADY; Rollout.STEADY]
  ∧ Rollout.rollbacks
      (Rollout.poll_rounds cfg health [0; 1]%nat 5 1 (Rollout.two_started cfg ∅))
    = 0%nat.
Proof. by vm_compute. Qed.

Lemma C3_witness :
  let cfg := Rollout.ofContainerCheck AppStack.healthCheck
               AppStack.fargateServiceProps 1 0 0 in
  let health := fun (_ : nat) (at_ : Z) => 90 <? at_ in
  ∃ n, ∀ m, (n ≤ m)%nat →
    Rollout.phase (Rollout.poll_rounds cfg health [0; 1]%nat m 1
                     (Rollout.two_started cfg ∅))
    = Rollout.STEADY
    ∧ Rollout.rollbacks (Rollout.poll_rounds cfg health [0; 1]%nat m 1
                           (Rollout.two_started cfg ∅))
      = 0%nat.
Proof.
  intros cfg health.
  destruct (C3_start_period_failures_never_roll_back cfg) as (_ & _ & Hscenario).
  destruct (Hscenario health ∅) as [_ Hsteady].
  - reflexivity.
  - apply not_elem_of_empty.
  - apply not_elem_of_empty.
  - intros i at_ Hfail. unfold health in Hfail. cbn.
    apply Z.ltb_ge in Hfail. lia.
  - exact Hsteady.
Defined.

(** * Further properties of the two stacks and of the entry point *)

(** ** The environment variables the constructors read *)

Lemma get_agree (env env' : gmap string string) (k : string) :
  env !! k = env' !! k → Js.get env k = Js.get env' k.
Proof. unfold Js.get. by intros ->. Qed.

Lemma app_stack_frame (env env' : gmap string string) (account : string)
    (props : option AppStackProps.t) :
  (∀ k, k ∈ Inputs.appStack → env !! k = env' !! k) →
  AppStack.stack env account props = AppStack.stack env' account props.
Proof.
  intros Hagree.
  assert (Hget : ∀ k, k ∈ Inputs.appStack → Js.get env k = Js.get env' k).
  { intros k Hk. by apply get_agree, Hagree. }
  unfold AppStack.stack, AppStack.readers, AppStack.readerReplicaCondition,
    AppStack.domainCert, AppStack.repository, AppStack.staticBucket,
    AppStack.uploadBucket, AppStack.secret, AppStack.cluster, AppStack.container,
    AppStack.containerSecrets, AppStack.distribution, AppStack.githubActionsRole,
    AppStack.githubActionsStatements, AppStack.stackOutputs, AppStack.auroraCluster,
    AppStack.securityRules, AppStack.dbSecurityGroup, AppStack.clusterInstance.
  rewrite !(Hget "CERTIFICATE_ARN"), !(Hget "REPOSITORY_NAME"),
    !(Hget "STATIC_BUCKET_NAME"), !(Hget "UPLOAD_BUCKET_NAME"), !(Hget "SECRET_NAME"),
    !(Hget "AURORA_READER_REPLICA"), !(Hget "ECS_CLUSTER_NAME"), !(Hget "DOMAIN_NAME"),
    !(Hget "GITHUB_ACTIONS_ROLE_NAME") by (unfold Inputs.appStack; elem_solve).
  reflexivity.
Qed.


Lemma app_stack_reads (account : string) (props : option AppStackProps.t) :
  Forall (fun k => ∃ env v,
            AppStack.stack (<[k := v]> env) account props
            ≠ AppStack.stack env account props)
    Inputs.appStack.
Proof.
  unfold Inputs.appStack.
  repeat apply Forall_cons_2; try apply Forall_nil_2;
    exists ∅, "false"; intros Heq;
    apply (f_equal (fun s => map Cdk.properties
                               (Construct.except "AppContainer" (resources s)))) in Heq;
    unfold AppStack.stack, AppStack.readers, AppStack.readerReplicaCondition,
      AppStack.domainCert, AppStack.repository, AppStack.staticBucket,
      AppStack.uploadBucket, AppStack.secret, AppStack.cluster,
      AppStack.distribution, AppStack.githubActionsRole, Js.get in Heq;
    rewrite ?lookup_insert_eq, ?lookup_insert_ne, ?lookup_empty in Heq by done;
    simpl in Heq; first [discriminate Heq | simplify_eq].
Qed.

Lemma artifact_stack_frame (env env' : gmap string string) (account : string) :
  (∀ k, k ∈ Inputs.artifactStack → env !! k = env' !! k) →
  ArtifactStack.stack env account = ArtifactStack.stack env' account.
Proof.
  intros Hagree.
  assert (Hget : ∀ k, k ∈ Inputs.artifactStack → Js.get env k = Js.get env' k).
  { intros k Hk. by apply get_agree, Hagree. }
  unfold ArtifactStack.stack, ArtifactStack.repository, ArtifactStack.staticBucket,
    ArtifactStack.githubActionsUser, ArtifactStack.githubActionsRole,
    ArtifactStack.accessKey, ArtifactStack.stackOutputs, ArtifactStack.staticBucketPolicy,
    ArtifactStack.githubActionsRoleStatements, ArtifactStack.githubActionsUserStatements,
    ArtifactStack.attach.
  rewrite !(Hget "REPOSITORY_NAME"), !(Hget "STATIC_BUCKET_NAME"),
    !(Hget "GITHUB_ACTIONS_USER_NAME"), !(Hget "GITHUB_ACTIONS_ROLE_NAME")
    by (unfold Inputs.artifactStack; elem_solve).
  reflexivity.
Qed.

Lemma artifact_stack_reads (account : string) :
  Forall (fun k => ∃ env v,
            ArtifactStack.stack (<[k := v]> env) account
            ≠ ArtifactStack.stack env account)
    Inputs.artifactStack.
Proof.
  unfold Inputs.artifactStack.
  repeat apply Forall_cons_2; try apply Forall_nil_2;
    exists ∅, "false"; intros Heq;
    apply (f_equal (fun s => map Cdk.properties (resources s))) in Heq;
    unfold ArtifactStack.stack, ArtifactStack.repository, ArtifactStack.staticBucket,
      ArtifactStack.githubActionsUser, ArtifactStack.githubActionsRole, Js.get in Heq;
    rewrite ?lookup_insert_eq, ?lookup_insert_ne, ?lookup_empty in Heq by done;
    simpl in Heq; discriminate Heq.
Qed.

(** X1. The application stack reads the environment through nine names and
    no other: two environments that agree on them give the same stack,
    whatever else they hold, and each of the nine is read, since there is an
    environment in which setting it changes the stack. *)
Theorem X1_app_stack_reads_nine_inputs (account : string)
    (props : option AppStackProps.t) :
  (∀ env env' : gmap string string,
     (∀ k, k ∈ Inputs.appStack → env !! k = env' !! k) →
     AppStack.stack env account props = AppStack.stack env' account props)
  ∧ Forall (fun k => ∃ env v,
              AppStack.stack (<[k := v]> env) account props
              ≠ AppStack.stack env account props)
      Inputs.appStack.
Proof.
  split.
  - intros env env'. apply app_stack_frame.
  - apply app_stack_reads.
Qed.

Lemma X1_witness :
  AppStack.stack {["DOMAIN_NAME" := "example.com"; "DATABASE_NAME" := "app"]}
    "123456789012" None
  = AppStack.stack {["DOMAIN_NAME" := "example.com"; "NODE_ENV" := "production"]}
      "123456789012" None.
Proof.
  apply (proj1 (X1_app_stack_reads_nine_inputs "123456789012" None)).
  intros k Hk. unfold Inputs.appStack in Hk.
  elem_cases Hk; vm_compute; reflexivity.
Defined.

(** X2. The artifact stack reads the environment through four names and no
    other: two environments that agree on them give the same stack, and each
    of the four is read. *)
Theorem X2_artifact_stack_reads_four_inputs (account : string) :
  (∀ env env' : gmap string string,
     (∀ k, k ∈ Inputs.artifactStack → env !! k = env' !! k) →
     ArtifactStack.stack env account = ArtifactStack.stack env' account)
  ∧ Forall (fun k => ∃ env v,
              ArtifactStack.stack (<[k := v]> env) account
              ≠ ArtifactStack.stack env account)
      Inputs.artifactStack.
Proof.
  split.
  - intros env env'. apply artifact_stack_frame.
  - apply artifact_stack_reads.
Qed.

Lemma X2_witness :
  ArtifactStack.stack {["REPOSITORY_NAME" := "app"; "SECRET_NAME" := "app-secret"]}
    "123456789012"
  = ArtifactStack.stack {["REPOSITORY_NAME" := "app"; "DOMAIN_NAME" := "example.com"]}
      "123456789012".
Proof.
  apply (proj1 (X2_artifact_stack_reads_four_inputs "123456789012")).
  intros k Hk. unfold Inputs.artifactStack in Hk.
  elem_cases Hk; vm_compute; reflexivity.
Defined.

(** ** What the configuration and the replica flag change *)

Lemma get_insert_ne (env : gmap string string) (k k' v : string) :
  k ≠ k' → Js.get (<[k := v]> env) k' = Js.get env k'.
Proof. intros Hne. unfold Js.get. by rewrite lookup_insert_ne. Qed.

Lemma app_stack_agree (env env' : gmap string string) (account : string)
    (props : option AppStackProps.t) :
  (∀ k, k ∈ AppStack.requiredInputs → env !! k = env' !! k) →
  AppStack.readerReplicaCondition env = AppStack.readerReplicaCondition env' →
  AppStack.stack env account props = AppStack.stack env' account props.
Proof.
  intros Hagree Hcond.
  assert (Hget : ∀ k, k ∈ AppStack.requiredInputs → Js.get env k = Js.get env' k).
  { intros k Hk. by apply get_agree, Hagree. }
  unfold AppStack.stack, AppStack.readers. rewrite Hcond.
  unfold AppStack.domainCert, AppStack.repository, AppStack.staticBucket,
    AppStack.uploadBucket, AppStack.secret, AppStack.cluster, AppStack.container,
    AppStack.containerSecrets, AppStack.distribution, AppStack.githubActionsRole.
  rewrite !(Hget "CERTIFICATE_ARN"), !(Hget "REPOSITORY_NAME"),
    !(Hget "STATIC_BUCKET_NAME"), !(Hget "UPLOAD_BUCKET_NAME"), !(Hget "SECRET_NAME"),
    !(Hget "ECS_CLUSTER_NAME"), !(Hget "DOMAIN_NAME"),
    !(Hget "GITHUB_ACTIONS_ROLE_NAME") by (unfold AppStack.requiredInputs; elem_solve).
  reflexivity.
Qed.

Lemma app_resources_except_container (env : gmap string string) (account : string)
    (props : option AppStackProps.t) :
  Construct.except "AppContainer" (resources (AppStack.stack env account props))
  = [AppStack.domainCert env; AppStack.vpc; AppStack.repository env;
     AppStack.staticBucket env; AppStack.uploadBucket env; AppStack.secret env;
     AppStack.auroraCluster env; AppStack.clusterInstance env AppStack.writer]
    ++ map (AppStack.clusterInstance env) (AppStack.readers env)
    ++ [AppStack.cluster env; AppStack.taskRole; AppStack.taskDefinition;
        AppStack.albSecurityGroup; AppStack.alb; AppStack.listener env;
        AppStack.serviceSecurityGroup; AppStack.fargateService env;
        AppStack.applicationFleet env; AppStack.albCachePolicy; AppStack.WebAcl;
        AppStack.distribution env; AppStack.githubActionsRole env account].
Proof.
  unfold Construct.except, AppStack.stack, AppStack.readers. cbn [resources].
  destruct (AppStack.readerReplicaCondition env); simpl; reflexivity.
Qed.

Lemma container_property_frame (env : gmap string string)
    (props props' : option AppStackProps.t) (k : string) :
  k ≠ "environment" → k ≠ "secrets" →
  Construct.property (AppStack.container env props) k
  = Construct.property (AppStack.container env props') k.
Proof.
  intros Henv Hsec. unfold Construct.property, Construct.field, AppStack.container.
  cbn [Cdk.properties List.find fst].
  repeat match goal with
         | |- context [String.eqb ?a k] =>
             destruct (String.eqb_spec a k) as [?|?]; [first [done | reflexivity] |]
         end.
  reflexivity.
Qed.

(** X3. In the constructor's own statements the props are read through
    [props?.config] only, and, the environment and the account of the stack
    being the same, what they carry there reaches the container and nothing
    else: with any two such props the stacks hold the same constructs apart
    from the container, in the same order, and the same rules, statements,
    grants and outputs; and the two containers differ at most in their
    environment and their secrets.  (What [super(scope, id, props)] does
    with the fields of [cdk.StackProps] is aws-cdk-lib's.) *)
Theorem X3_config_reaches_only_the_container (env : gmap string string)
    (account : string) (props props' : option AppStackProps.t) :
  let s := AppStack.stack env account props in
  let s' := AppStack.stack env account props' in
  Construct.except "AppContainer" (resources s)
  = Construct.except "AppContainer" (resources s')
  ∧ rules s = rules s'
  ∧ policies s = policies s'
  ∧ grants s = grants s'
  ∧ outputs s = outputs s'
  ∧ (∀ k, k ≠ "environment" → k ≠ "secrets" →
       Construct.property (AppStack.container env props) k
       = Construct.property (AppStack.container env props') k).
Proof.
  intros s s'. split; [|split_and!].
  - unfold s, s'. by rewrite !app_resources_except_container.
  - reflexivity.
  - reflexivity.
  - reflexivity.
  - reflexivity.
  - intros k. apply container_property_frame.
Qed.

Lemma replica_off (env : gmap string string) :
  AppStack.readerReplicaCondition (<["AURORA_READER_REPLICA" := "false"]> env) = false.
Proof.
  unfold AppStack.readerReplicaCondition, Js.get. by rewrite lookup_insert_eq.
Qed.

Lemma replica_on (env : gmap string string) (v : string) :
  v ≠ "false" →
  AppStack.readerReplicaCondition (<["AURORA_READER_REPLICA" := v]> env) = true.
Proof.
  intros Hv. unfold AppStack.readerReplicaCondition, Js.get.
  rewrite lookup_insert_eq. simpl. by destruct (String.eqb_spec v "false").
Qed.

Lemma replica_unset (env : gmap string string) :
  AppStack.readerReplicaCondition (delete "AURORA_READER_REPLICA" env) = true.
Proof.
  unfold AppStack.readerReplicaCondition, Js.get. by rewrite lookup_delete_eq.
Qed.

Lemma app_stack_without_replica (env : gmap string string) (account : string)
    (props : option AppStackProps.t) :
  AppStack.readerReplicaCondition env = false →
  resources (AppStack.stack env account props)
  = [AppStack.domainCert env; AppStack.vpc; AppStack.repository env;
     AppStack.staticBucket env; AppStack.uploadBucket env; AppStack.secret env;
     AppStack.auroraCluster env; AppStack.clusterInstance env AppStack.writer;
     AppStack.cluster env; AppStack.taskRole; AppStack.taskDefinition;
     AppStack.container env props; AppStack.albSecurityGroup; AppStack.alb;
     AppStack.listener env; AppStack.serviceSecurityGroup; AppStack.fargateService env;
     AppStack.applicationFleet env; AppStack.albCachePolicy; AppStack.WebAcl;
     AppStack.distribution env; AppStack.githubActionsRole env account].
Proof.
  intros Hoff. unfold AppStack.stack, AppStack.readers. cbn [resources].
  by rewrite Hoff.
Qed.

Lemma app_resources_except_replica (env : gmap string string) (account : string)
    (props : option AppStackProps.t) :
  Construct.except "replica" (resources (AppStack.stack env account props))
  = [AppStack.domainCert env; AppStack.vpc; AppStack.repository env;
     AppStack.staticBucket env; AppStack.uploadBucket env; AppStack.secret env;
     AppStack.auroraCluster env; AppStack.clusterInstance env AppStack.writer;
     AppStack.cluster env; AppStack.taskRole; AppStack.taskDefinition;
     AppStack.container env props; AppStack.albSecurityGroup; AppStack.alb;
     AppStack.listener env; AppStack.serviceSecurityGroup; AppStack.fargateService env;
     AppStack.applicationFleet env; AppStack.albCachePolicy; AppStack.WebAcl;
     AppStack.distribution env; AppStack.githubActionsRole env account].
Proof.
  unfold Construct.except, AppStack.stack, AppStack.readers. cbn [resources].
  destruct (AppStack.readerReplicaCondition env); simpl; reflexivity.
Qed.

(** X4. The reader-replica flag changes the replica and nothing else:
    setting it to the text false gives the stack's constructs without the
    replica, in the same order, with the same rules, statements, grants and
    outputs; any other text gives the same stack as leaving the flag unset. *)
Theorem X4_flag_changes_only_the_replica (env : gmap string string)
    (account : string) (props : option AppStackProps.t) :
  let s := AppStack.stack env account props in
  let off := AppStack.stack (<["AURORA_READER_REPLICA" := "false"]> env) account props in
  let unset := AppStack.stack (delete "AURORA_READER_REPLICA" env) account props in
  resources off = Construct.except "replica" (resources s)
  ∧ rules off = rules s
  ∧ policies off = policies s
  ∧ grants off = grants s
  ∧ outputs off = outputs s
  ∧ (∀ v, v ≠ "false" →
       AppStack.stack (<["AURORA_READER_REPLICA" := v]> env) account props = unset).
Proof.
  intros s off unset. split; [|split_and!].
  - unfold off, s. rewrite app_resources_except_replica.
    rewrite app_stack_without_replica by apply replica_off.
    unfold AppStack.domainCert, AppStack.repository, AppStack.staticBucket,
      AppStack.uploadBucket, AppStack.secret, AppStack.cluster, AppStack.container,
      AppStack.containerSecrets, AppStack.distribution, AppStack.githubActionsRole.
    rewrite !(get_insert_ne env "AURORA_READER_REPLICA") by done.
    reflexivity.
  - reflexivity.
  - reflexivity.
  - reflexivity.
  - reflexivity.
  - intros v Hv. unfold unset. apply app_stack_agree.
    + intros k Hk. unfold AppStack.requiredInputs in Hk.
      elem_cases Hk; by rewrite lookup_insert_ne, lookup_delete_ne.
    + by rewrite replica_on, replica_unset.
Qed.

(** ** The container's secrets in order *)

Lemma existsb_key {V} (o : JsObject.t V) (key : string) :
  existsb (fun kw => String.eqb (fst kw) key) o = bool_decide (key ∈ map fst o).
Proof.
  induction o as [|[k w] o IH]; simpl; [done |].
  rewrite IH. destruct (String.eqb_spec k key) as [->|Hne]; simpl.
  - symmetry. apply bool_decide_eq_true. by left.
  - apply eq_true_iff_eq. rewrite !bool_decide_eq_true. rewrite elem_of_cons.
    split; [by right | by intros [?|?]].
Qed.

Lemma define_present (l : list string) (key : string) :
  key ∈ l →
  JsObject.define (map Container.bySecretKey l) key (ecs.fromSecretsManager "AppSecret" key)
  = map Container.bySecretKey l.
Proof.
  intros Hin. unfold JsObject.define. rewrite existsb_key.
  rewrite map_map. cbn [Container.bySecretKey fst]. rewrite map_id.
  rewrite bool_decide_eq_true_2 by done.
  rewrite map_map. apply map_ext. intros k. unfold Container.bySecretKey. cbn.
  by destruct (String.eqb_spec k key) as [->|?].
Qed.

Lemma define_absent (l : list string) (key : string) :
  key ∉ l → JsObject.arrayIndex key = None →
  JsObject.define (map Container.bySecretKey l) key (ecs.fromSecretsManager "AppSecret" key)
  = map Container.bySecretKey (l ++ [key]).
Proof.
  intros Hout Hkey. unfold JsObject.define. rewrite existsb_key.
  rewrite map_map. cbn [Container.bySecretKey fst]. rewrite map_id.
  rewrite bool_decide_eq_false_2 by done. rewrite Hkey.
  by rewrite map_app.
Qed.

Lemma filter_negb_eqb_absent (l : list string) (x : string) :
  x ∉ l → List.filter (fun y => negb (String.eqb y x)) l = l.
Proof.
  induction l as [|y l IH]; intros Hout; simpl; [done |].
  apply not_elem_of_cons in Hout as [Hne Hout].
  destruct (String.eqb_spec y x) as [->|_]; [done |]. simpl. by rewrite IH.
Qed.

Lemma filter_out_member (l0 l : list string) (x : string) :
  x ∈ l0 →
  List.filter (fun k => negb (bool_decide (k ∈ l0)))
    (List.filter (fun y => negb (String.eqb y x)) l)
  = List.filter (fun k => negb (bool_decide (k ∈ l0))) l.
Proof.
  intros Hin. induction l as [|y l IH]; simpl; [done |].
  destruct (String.eqb_spec y x) as [->|Hne]; simpl.
  - by rewrite (bool_decide_eq_true_2 _ Hin).
  - by rewrite IH.
Qed.

Lemma filter_out_snoc (l0 l : list string) (x : string) :
  List.filter (fun k => negb (bool_decide (k ∈ l0 ++ [x]))) l
  = List.filter (fun k => negb (bool_decide (k ∈ l0)))
      (List.filter (fun y => negb (String.eqb y x)) l).
Proof.
  induction l as [|y l IH]; simpl; [done |].
  destruct (String.eqb_spec y x) as [->|Hne]; simpl.
  - rewrite bool_decide_eq_true_2; [done |].
    rewrite elem_of_app, list_elem_of_singleton. by right.
  - assert (Hiff : bool_decide (y ∈ l0 ++ [x]) = bool_decide (y ∈ l0)).
    { apply eq_true_iff_eq. rewrite !bool_decide_eq_true.
      rewrite elem_of_app, list_elem_of_singleton. tauto. }
    rewrite Hiff. by rewrite IH.
Qed.

Lemma secrets_in_order_from (l0 keys : list string) :
  Forall (fun k => JsObject.arrayIndex k = None) keys →
  foldl (fun acc key =>
           JsObject.define acc key (ecs.fromSecretsManager "AppSecret" key))
        (map Container.bySecretKey l0) keys
  = map Container.bySecretKey
      (l0 ++ List.filter (fun k => negb (bool_decide (k ∈ l0))) (JsObject.distinct keys)).
Proof.
  intros Hkeys. revert l0. induction Hkeys as [|x keys Hx Hkeys IH]; intros l0.
  - simpl. by rewrite app_nil_r.
  - cbn [foldl]. destruct (decide (x ∈ l0)) as [Hin|Hout].
    + rewrite define_present by done. rewrite IH.
      cbn [JsObject.distinct List.filter].
      rewrite (bool_decide_eq_true_2 _ Hin). cbn [negb].
      by rewrite filter_out_member.
    + rewrite define_absent by done. rewrite IH.
      cbn [JsObject.distinct List.filter].
      rewrite (bool_decide_eq_false_2 _ Hout). cbn [negb].
      rewrite <- app_assoc. cbn [app]. by rewrite filter_out_snoc.
Qed.

Lemma filter_out_nil (l : list string) :
  List.filter (fun k => negb (bool_decide (k ∈ @nil string))) l = l.
Proof.
  induction l as [|y l IH]; cbn [List.filter]; [done |].
  rewrite bool_decide_eq_false_2 by apply not_elem_of_nil. cbn [negb].
  by rewrite IH.
Qed.

Lemma secrets_in_order_given (env : gmap string string)
    (vars : option (gmap string string)) (keys : list string) :
  Forall (fun k => JsObject.arrayIndex k = None) keys →
  Container.secretsInOrder env
    (Some {| AppStackProps.config :=
               Some {| AppStackProps.environmentVariables := vars;
                       AppStackProps.secrets := Some keys |} |})
  = map Container.bySecretKey (JsObject.distinct keys).
Proof.
  intros Hkeys. pose proof (secrets_in_order_from [] keys Hkeys) as Hfold.
  rewrite filter_out_nil in Hfold. exact Hfold.
Qed.

Lemma insertIndex_perm {V} (n : N) (key : string) (v : V) (o : JsObject.t V) :
  JsObject.insertIndex n key v o ≡ₚ (key, v) :: o.
Proof.
  induction o as [|[k w] o IH]; simpl; [done |].
  destruct (JsObject.arrayIndex k) as [m|]; [|done].
  destruct (m <? n)%N; [|done].
  rewrite IH. apply Permutation_swap.
Qed.

Lemma replace_keys {V} (o : JsObject.t V) (key : string) (v : V) :
  (map (fun kw : string * V => if String.eqb (fst kw) key then (fst kw, v) else kw) o).*1
  = o.*1.
Proof.
  induction o as [|[k w] o IH]; simpl; [done |].
  destruct (String.eqb k key); simpl; f_equal; exact IH.
Qed.

Lemma replace_absent {V} (o : JsObject.t V) (key : string) (v : V) :
  key ∉ o.*1 →
  map (fun kw : string * V => if String.eqb (fst kw) key then (fst kw, v) else kw) o = o.
Proof.
  induction o as [|[k w] o IH]; simpl; intros Hout; [done |].
  apply not_elem_of_cons in Hout as [Hne Hout]. rewrite IH by done.
  by destruct (String.eqb_spec k key) as [->|_].
Qed.

Lemma replace_to_map {V} (o : JsObject.t V) (key : string) (v : V) :
  NoDup o.*1 → key ∈ o.*1 →
  (list_to_map
     (map (fun kw : string * V => if String.eqb (fst kw) key then (fst kw, v) else kw) o)
   : gmap string V)
  = <[key := v]> (list_to_map o).
Proof.
  induction o as [|[k w] o IH]; simpl; intros Hnd Hin.
  - by apply elem_of_nil in Hin.
  - apply NoDup_cons in Hnd as [Hk Hnd].
    destruct (String.eqb_spec k key) as [->|Hne]; simpl.
    + rewrite replace_absent by done. by rewrite insert_insert_eq.
    + apply elem_of_cons in Hin as [?|Hin]; [congruence |].
      rewrite IH by done. by apply insert_insert_ne.
Qed.

Lemma define_to_map {V} (o : JsObject.t V) (key : string) (v : V) :
  NoDup o.*1 →
  NoDup (JsObject.define o key v).*1
  ∧ (list_to_map (JsObject.define o key v) : gmap string V)
    = <[key := v]> (list_to_map o).
Proof.
  intros Hnd. unfold JsObject.define. rewrite existsb_key.
  change (map fst o) with (o.*1).
  destruct (bool_decide (key ∈ o.*1)) eqn:Hb.
  - apply bool_decide_eq_true in Hb. split.
    + by rewrite replace_keys.
    + by apply replace_to_map.
  - apply bool_decide_eq_false in Hb.
    assert (Hperm : match JsObject.arrayIndex key with
                    | Some n => JsObject.insertIndex n key v o
                    | None => o ++ [(key, v)]
                    end ≡ₚ (key, v) :: o).
    { destruct (JsObject.arrayIndex key) as [n|].
      - apply insertIndex_perm.
      - by rewrite Permutation_app_comm. }
    assert (Hnd' : NoDup ((key, v) :: o).*1).
    { simpl. by apply NoDup_cons. }
    assert (Hnd'' : NoDup (match JsObject.arrayIndex key with
                           | Some n => JsObject.insertIndex n key v o
                           | None => o ++ [(key, v)]
                           end).*1) by (by rewrite Hperm).
    split; [done |].
    by rewrite (list_to_map_proper _ _ Hnd'' Hperm).
Qed.

Lemma secrets_in_order_to_map (env : gmap string string) (keys : list string)
    (o : JsObject.t ecs.Secret) :
  NoDup o.*1 →
  let o' := foldl (fun acc key =>
                     JsObject.define acc key
                       (ecs.fromSecretsManager (Cdk.resourceId (AppStack.secret env)) key))
                  o keys in
  NoDup o'.*1
  ∧ (list_to_map o' : gmap string ecs.Secret)
    = foldl (fun acc key =>
               <[key := ecs.fromSecretsManager (Cdk.resourceId (AppStack.secret env)) key]>
                 acc)
            (list_to_map o) keys.
Proof.
  revert o. induction keys as [|x keys IH]; intros o Hnd; cbn [foldl]; [done |].
  destruct (define_to_map o x
              (ecs.fromSecretsManager (Cdk.resourceId (AppStack.secret env)) x) Hnd)
    as [Hnd' Hmap].
  destruct (IH _ Hnd') as [Hnd'' Hmap'']. split; [done |].
  by rewrite Hmap'', Hmap.
Qed.

Lemma distinct_elem (l : list string) (x : string) : x ∈ JsObject.distinct l ↔ x ∈ l.
Proof.
  induction l as [|y l IH]; simpl; [done |].
  rewrite !elem_of_cons, <- IH, list_elem_of_In, filter_In, <- list_elem_of_In.
  destruct (String.eqb_spec x y) as [->|Hne]; simpl; [tauto |]. split.
  - intros [?|[? _]]; [by left | by right].
  - intros [?|?]; [by left | right; by split].
Qed.

(** X5. For a configured list of secret keys none of which is an array
    index, the object that the reduce builds for the container's secrets
    holds each distinct key once, in the order in which the keys first
    occur in the list, each bound to its by-key reference into [AppSecret];
    repeating a key adds nothing, and two lists give the same object
    exactly when their keys first occur in the same order; read as a
    finite map, the object is the container's secrets. *)
Theorem X5_secrets_keep_first_occurrence_order (env : gmap string string) (vars : option (gmap string string))
    (keys : list string) :
  Forall (fun key => JsObject.arrayIndex key = None) keys →
  let configured (l : list string) :=
    Some {| AppStackProps.config :=
              Some {| AppStackProps.environmentVariables := vars;
                      AppStackProps.secrets := Some l |} |} in
  Container.secretsInOrder env (configured keys)
  = map (fun key => (key, ecs.fromSecretsManager "AppSecret" key))
      (JsObject.distinct keys)
  ∧ map fst (Container.secretsInOrder env (configured keys)) = JsObject.distinct keys
  ∧ NoDup (JsObject.distinct keys)
  ∧ (∀ key, key ∈ JsObject.distinct keys ↔ key ∈ keys)
  ∧ (list_to_map (Container.secretsInOrder env (configured keys)) : gmap string ecs.Secret)
    = AppStack.containerSecrets env (configured keys)
  ∧ (∀ keys', Forall (fun key => JsObject.arrayIndex key = None) keys' →
       Container.secretsInOrder env (configured keys') = Container.secretsInOrder env (configured keys)
       ↔ JsObject.distinct keys' = JsObject.distinct keys).
Proof.
  intros Hkeys configured.
  assert (Heq : ∀ l, Forall (fun key => JsObject.arrayIndex key = None) l →
                     Container.secretsInOrder env (configured l)
                     = map Container.bySecretKey (JsObject.distinct l)).
  { intros l Hl. apply secrets_in_order_given, Hl. }
  assert (Hfst : ∀ l, map fst (map Container.bySecretKey l) = l).
  { intros l. rewrite map_map. apply map_id. }
  destruct (secrets_in_order_to_map env keys [] (NoDup_nil_2 (A := string))) as [Hnd Hmap].
  change (foldl _ [] keys) with (Container.secretsInOrder env (configured keys)) in Hnd, Hmap.
  split; [by apply Heq |].
  split; [rewrite Heq by done; apply Hfst |].
  split.
  { rewrite Heq in Hnd by done.
    change ((map Container.bySecretKey (JsObject.distinct keys)).*1)
      with (map fst (map Container.bySecretKey (JsObject.distinct keys))) in Hnd.
    by rewrite Hfst in Hnd. }
  split; [intros key; apply distinct_elem |].
  split; [exact Hmap |].
  intros keys' Hkeys'. rewrite !Heq by done. split.
  - intros Hsame. apply (f_equal (map fst)) in Hsame. by rewrite !Hfst in Hsame.
  - by intros ->.
Qed.

Lemma X5_witness :
  let configured (l : list string) :=
    Some {| AppStackProps.config :=
              Some {| AppStackProps.environmentVariables := None;
                      AppStackProps.secrets := Some l |} |} in
  Container.secretsInOrder ∅ (configured ["DATABASE_URL"; "API_KEY"; "DATABASE_URL"])
  = [("DATABASE_URL", ecs.fromSecretsManager "AppSecret" "DATABASE_URL");
     ("API_KEY", ecs.fromSecretsManager "AppSecret" "API_KEY")].
Proof.
  intros configured.
  apply (proj1 (X5_secrets_keep_first_occurrence_order ∅ None ["DATABASE_URL"; "API_KEY"; "DATABASE_URL"]
                  ltac:(repeat constructor))).
Defined.

Example secrets_in_order :
  map fst (Container.secretsInOrder ∅
             (Some {| AppStackProps.config :=
                        Some {| AppStackProps.environmentVariables := None;
                                AppStackProps.secrets :=
                                  Some ["DATABASE_URL"; "10"; "API_KEY"; "9"; "API_KEY"] |} |}))
  = ["9"; "10"; "DATABASE_URL"; "API_KEY"].
Proof. reflexivity. Qed.

(** ** The entry point *)

Lemma app_container (env : gmap string string) (account : string)
    (props : option AppStackProps.t) (r : Cdk.Resource) :
  r ∈ resources (AppStack.stack env account props) →
  Cdk.resourceId r = "AppContainer" →
  r = AppStack.container env props.
Proof.
  intros Hr Hid. unfold AppStack.stack, AppStack.readers in Hr. cbn [resources] in Hr.
  destruct (AppStack.readerReplicaCondition env); cbn [map app] in Hr;
    elem_cases Hr; first [done | by vm_compute in Hid].
Qed.

(** X6. The entry point constructs the application stack with no props, so
    whatever the environment holds, the container of the application it
    builds has PORT as its only environment variable and has no secret;
    the artifact stack has no container; and DATABASE_NAME, which neither
    constructor reads, changes nothing in the application; and neither
    stack creates a secret or a certificate: those the application stack
    uses are imported. *)
Theorem X6_entry_point_passes_no_configuration (env : gmap string string)
    (account : string) :
  map fst (Bin.app env account) = ["AppStack"; "ArtifactStack"]
  ∧ (∀ id s r, (id, s) ∈ Bin.app env account → r ∈ resources s →
       Cdk.resourceId r = "AppContainer" →
       id = "AppStack"
       ∧ Construct.property r "environment"
         = Some (Cdk.VObj [("PORT", Cdk.VStr "3000")])
       ∧ Construct.property r "secrets" = Some (Cdk.VObj []))
  ∧ (∃ r, r ∈ resources (AppStack.stack env account None)
          ∧ Cdk.resourceId r = "AppContainer")
  ∧ (∀ v, Bin.app (<["DATABASE_NAME" := v]> env) account = Bin.app env account)
  ∧ Forall (fun st =>
              Forall (fun r => Cdk.resourceType r ≠ "secretsmanager.Secret"
                               ∧ Cdk.resourceType r ≠ "certificatemanager.Certificate")
                (resources st.2))
      (Bin.app env account)
  ∧ Cdk.resourceType (AppStack.secret env) = "secretsmanager.Secret.fromSecretNameV2"
  ∧ Cdk.resourceType (AppStack.domainCert env)
    = "certificatemanager.Certificate.fromCertificateArn".
Proof.
  split; [reflexivity | split; [|split; [|split; [|split; [|split; reflexivity]]]]].
  - intros id s r Hs Hr Hid. unfold Bin.app in Hs. elem_cases Hs.
    + match goal with H : (_, _) = (_, _) |- _ => injection H as -> -> end.
      apply app_container in Hr; [|done]. subst r.
      split; [done | split; by vm_compute].
    + match goal with H : (_, _) = (_, _) |- _ => injection H as -> -> end.
      unfold ArtifactStack.stack in Hr. cbn [resources] in Hr.
      elem_cases Hr; by vm_compute in Hid.
  - exists (AppStack.container env None). split; [|done].
    unfold AppStack.stack. cbn [resources]. rewrite !elem_of_app. right. right.
    elem_solve.
  - intros v. unfold Bin.app. f_equal; [f_equal | f_equal; f_equal].
    + apply app_stack_frame. intros k Hk. unfold Inputs.appStack in Hk.
      elem_cases Hk; by rewrite lookup_insert_ne.
    + apply artifact_stack_frame. intros k Hk. unfold Inputs.artifactStack in Hk.
      elem_cases Hk; by rewrite lookup_insert_ne.
  - unfold Bin.app.
    apply Forall_cons_2; [|apply Forall_cons_2; [|apply Forall_nil_2]]; cbn [snd].
    + unfold AppStack.stack, AppStack.readers. cbn [resources].
      destruct (AppStack.readerReplicaCondition env); cbn [map app];
        repeat apply Forall_cons_2; try apply Forall_nil_2;
        (split; intros Hty; by vm_compute in Hty).
    + unfold ArtifactStack.stack. cbn [resources].
      repeat apply Forall_cons_2; try apply Forall_nil_2;
        (split; intros Hty; by vm_compute in Hty).
Qed.

(** ** The two stacks side by side *)

(** X7. The image path is wired end to end: the artifact stack creates the
    repository under the name read from REPOSITORY_NAME and lets the
    deployment role, and no other construct, push images, to that
    repository only; the application stack imports a repository under the
    same name, and the container, whatever the configuration, takes its
    image from that import. *)
Theorem X7_container_runs_what_the_role_pushes (env : gmap string string)
    (account : string) (props : option AppStackProps.t) :
  Construct.property (ArtifactStack.repository env) "repositoryName"
  = Some (Cdk.VJs (Js.get env "REPOSITORY_NAME"))
  ∧ Construct.property (AppStack.repository env) "repositoryName"
    = Construct.property (ArtifactStack.repository env) "repositoryName"
  ∧ Construct.property (AppStack.container env props) "image"
    = Some (Cdk.ref (Cdk.resourceId (AppStack.repository env)))
  ∧ Forall (fun a => "ecr:PutImage" ∈ iam.actions (iam.attached a) →
                     iam.attachedTo a = Cdk.resourceId (ArtifactStack.githubActionsRole env)
                     ∧ iam.resources (iam.attached a)
                       = [Cdk.attr (Cdk.resourceId (ArtifactStack.repository env))
                            "repositoryArn"])
      (policies (ArtifactStack.stack env account)
       ++ policies (AppStack.stack env account props))
  ∧ (∃ a, a ∈ policies (ArtifactStack.stack env account)
          ∧ "ecr:PutImage" ∈ iam.actions (iam.attached a)).
Proof.
  split_and!; try reflexivity.
  - unfold ArtifactStack.stack, AppStack.stack. cbn [policies].
    unfold ArtifactStack.githubActionsRoleStatements,
      ArtifactStack.githubActionsUserStatements, AppStack.githubActionsStatements.
    cbn [map app].
    repeat apply Forall_cons_2; try apply Forall_nil_2;
      intros Hput; first [split; reflexivity | exfalso; cbn in Hput; by elem_cases Hput].
  - eexists. split; [unfold ArtifactStack.stack; cbn; apply list_elem_of_further, list_elem_of_here |].
    cbn. elem_solve.
Qed.

(** X8. The static-asset path is wired end to end: the artifact stack
    creates the static bucket under the name read from STATIC_BUCKET_NAME;
    the one statement of either stack that names a principal is that
    bucket's resource policy, which lets the CloudFront service read the
    bucket's objects, and do nothing else, for distributions of the stack's
    own account; the application stack imports a bucket under the same name
    and serves the path /static/* of the distribution from that import. *)
Theorem X8_distribution_reads_the_static_bucket (env : gmap string string)
    (account : string) (props : option AppStackProps.t) :
  Construct.property (ArtifactStack.staticBucket env) "bucketName"
  = Some (Cdk.VJs (Js.get env "STATIC_BUCKET_NAME"))
  ∧ Construct.property (AppStack.staticBucket env) "bucketName"
    = Construct.property (ArtifactStack.staticBucket env) "bucketName"
  ∧ Construct.property (AppStack.distribution env) "additionalBehaviors./static/*.origin"
    = Some (Cdk.ref (Cdk.resourceId (AppStack.staticBucket env)))
  ∧ Forall (fun a => iam.principals (iam.attached a) ≠ [] →
                     iam.attachedTo a = Cdk.resourceId (ArtifactStack.staticBucket env)
                     ∧ iam.principals (iam.attached a) = ["cloudfront.amazonaws.com"]
                     ∧ iam.actions (iam.attached a) = ["s3:GetObject"]
                     ∧ iam.resources (iam.attached a)
                       = [Cdk.attr (Cdk.resourceId (ArtifactStack.staticBucket env))
                            "arnForObjects(*)"]
                     ∧ iam.conditions (iam.attached a)
                       = [("StringLike",
                           ("AWS:SourceArn",
                            Cdk.VStr ("arn:aws:cloudfront::" +:+ account
                                      +:+ ":distribution/*")))])
      (policies (ArtifactStack.stack env account)
       ++ policies (AppStack.stack env account props))
  ∧ ArtifactStack.attach (ArtifactStack.staticBucket env)
      (ArtifactStack.staticBucketPolicy env account)
    ∈ policies (ArtifactStack.stack env account).
Proof.
  split_and!; try reflexivity.
  - unfold ArtifactStack.stack, AppStack.stack. cbn [policies].
    unfold ArtifactStack.githubActionsRoleStatements,
      ArtifactStack.githubActionsUserStatements, AppStack.githubActionsStatements.
    cbn [map app].
    repeat apply Forall_cons_2; try apply Forall_nil_2;
      intros Hprincipal; first [split_and!; reflexivity | by cbn in Hprincipal].
  - unfold ArtifactStack.stack. cbn [policies app]. apply list_elem_of_here.
Qed.

(** X9. The deployment role is wired end to end: the artifact stack creates
    the role under the name read from GITHUB_ACTIONS_ROLE_NAME, to be
    assumed by the deployment user it creates; the application stack
    imports the role by the ARN made of the account and of that same name,
    and attaches every statement it adds to that import. *)
Theorem X9_statements_go_to_the_imported_role (env : gmap string string)
    (account : string) (props : option AppStackProps.t) :
  Construct.property (ArtifactStack.githubActionsRole env) "roleName"
  = Some (Cdk.VJs (Js.get env "GITHUB_ACTIONS_ROLE_NAME"))
  ∧ Construct.property (ArtifactStack.githubActionsRole env) "assumedBy"
    = Some (Cdk.ref (Cdk.resourceId (ArtifactStack.githubActionsUser env)))
  ∧ (∀ name,
       Construct.property (ArtifactStack.githubActionsRole env) "roleName"
       = Some (Cdk.VJs name) →
       Construct.property (AppStack.githubActionsRole env account) "roleArn"
       = Some (Cdk.VStr ("arn:aws:iam::" +:+ account +:+ ":role/"
                         +:+ Js.to_string name)))
  ∧ Forall (fun a => iam.attachedTo a
                     = Cdk.resourceId (AppStack.githubActionsRole env account))
      (policies (AppStack.stack env account props))
  ∧ length (policies (AppStack.stack env account props)) = 4%nat.
Proof.
  split_and!; try reflexivity.
  - intros name [= <-]. reflexivity.
  - unfold AppStack.stack, AppStack.githubActionsStatements. cbn [policies map].
    repeat apply Forall_cons_2; try apply Forall_nil_2; reflexivity.
Qed.

(** X10. The upload bucket is reached by the application's tasks and by
    nothing else that the stacks set up: the one grant of the application
    stack gives the task role access to the upload bucket, the task
    definition runs under that role and the container belongs to that task
    definition; and no policy statement of either stack refers to the
    upload bucket. *)
Theorem X10_only_the_tasks_reach_the_upload_bucket (env : gmap string string)
    (account : string) (props : option AppStackProps.t) :
  grants (AppStack.stack env account props)
  = [{| iam.grantee := Cdk.resourceId AppStack.taskRole;
        iam.grantedBucket := Cdk.resourceId (AppStack.uploadBucket env) |}]
  ∧ grants (ArtifactStack.stack env account) = []
  ∧ Construct.property AppStack.taskDefinition "taskRole"
    = Some (Cdk.ref (Cdk.resourceId AppStack.taskRole))
  ∧ Construct.property (AppStack.container env props) "taskDefinition"
    = Some (Cdk.ref (Cdk.resourceId AppStack.taskDefinition))
  ∧ Forall (fun a => Cdk.resourceId (AppStack.uploadBucket env)
                     ∉ iam.attachedTo a
                       :: map Cdk.targetResourceId
                            (Graph.statement_refs (iam.attached a)))
      (policies (ArtifactStack.stack env account)
       ++ policies (AppStack.stack env account props)).
Proof.
  split_and!; try reflexivity.
  unfold ArtifactStack.stack, AppStack.stack. cbn [policies].
  unfold ArtifactStack.githubActionsRoleStatements,
    ArtifactStack.githubActionsUserStatements, AppStack.githubActionsStatements.
  cbn [map app].
  repeat apply Forall_cons_2; try apply Forall_nil_2;
    intros Hin; vm_compute in Hin; by elem_cases Hin.
Qed.

(** ** The security groups *)

(** X11. Whatever the environment and the configuration, the inbound rules
    that the constructor adds with [addIngressRule] form a chain: a rule
    that admits any IPv4 address belongs to the load balancer's group; the
    rules of the service's group admit the load balancer's group on TCP
    3000 and nothing else, and those of the database cluster's group admit
    the service's group on TCP 5432 and nothing else; both of these rules
    are there, and the service runs in the service's group.  Outbound, both
    groups that the constructor creates are left open
    ([allowAllOutbound: true]). *)
Theorem X11_inbound_rules_form_a_chain (env : gmap string string)
    (account : string) (props : option AppStackProps.t) :
  let s := AppStack.stack env account props in
  Forall (fun r =>
            (ec2.peer r = ec2.anyIpv4 →
             ec2.ownerGroupId r = Cdk.resourceId AppStack.albSecurityGroup)
            ∧ (ec2.ownerGroupId r = Cdk.resourceId AppStack.serviceSecurityGroup →
               ec2.peer r = ec2.GroupReference (Cdk.resourceId AppStack.albSecurityGroup)
               ∧ ec2.port r = ec2.tcp 3000)
            ∧ (ec2.ownerGroupId r = AppStack.dbSecurityGroup env →
               ec2.peer r
               = ec2.GroupReference (Cdk.resourceId AppStack.serviceSecurityGroup)
               ∧ ec2.port r = ec2.tcp 5432))
    (rules s)
  ∧ rules s
    = [ec2.addIngressRule "AppALBSecurityGroup" ec2.anyIpv4 (ec2.tcp 443)
         "Allow HTTPS traffic";
       ec2.addIngressRule "AppALBSecurityGroup" ec2.anyIpv4 (ec2.tcp 3000)
         "Allow HTTP traffic";
       ec2.addIngressRule "ServiceSecurityGroup"
         (ec2.GroupReference "AppALBSecurityGroup") (ec2.tcp 3000)
         "Allow inbound from ALB";
       ec2.addIngressRule "AuroraServerlessCluster"
         (ec2.GroupReference "ServiceSecurityGroup") (ec2.tcp 5432)
         "Allow Aurora access from ECS tasks"]
  ∧ AppStack.dbSecurityGroup env = Cdk.resourceId (AppStack.auroraCluster env)
  ∧ Construct.property (AppStack.fargateService env) "securityGroups"
    = Some (Cdk.VList [Cdk.ref "ServiceSecurityGroup"])
  ∧ Construct.property AppStack.albSecurityGroup "allowAllOutbound"
    = Some (Cdk.VBool true)
  ∧ Construct.property AppStack.serviceSecurityGroup "allowAllOutbound"
    = Some (Cdk.VBool true).
Proof.
  intros s. unfold s, AppStack.stack, AppStack.securityRules. cbn [rules].
  split_and!; try reflexivity.
  repeat apply Forall_cons_2; try apply Forall_nil_2;
    split_and!; intros H;
    first [by vm_compute in H | split; reflexivity | reflexivity].
Qed.

(** ** The ids of the constructs *)

Lemma artifact_ids (env : gmap string string) (account : string) :
  Graph.ids (ArtifactStack.stack env account)
  = ["AppRepository"; "AppStaticBucket"; "GitHubActionsDeploymentUser";
     "GithubActionsDeploymentRole"; "GitHubActionsUserAccessKeyId"].
Proof. reflexivity. Qed.

(** X12. Neither constructor gives one id to two things in its scope:
    whatever the environment and the configuration, the ids of the
    constructs and the names of the outputs of the application stack are all
    different, and so are those of the artifact stack. *)
Theorem X12_ids_are_unique (env : gmap string string) (account : string)
    (props : option AppStackProps.t) :
  NoDup (Construct.scope_ids (AppStack.stack env account props))
  ∧ NoDup (Construct.scope_ids (ArtifactStack.stack env account)).
Proof.
  unfold Construct.scope_ids.
  change (map Cdk.resourceId (resources ?s)) with (Graph.ids s).
  rewrite app_ids, artifact_ids. split.
  - destruct (AppStack.readerReplicaCondition env);
      apply (bool_decide_unpack _); by vm_compute.
  - apply (bool_decide_unpack _); by vm_compute.
Qed.

(** ** Constructs are created before they are used *)

Lemma container_refers (env : gmap string string) (props : option AppStackProps.t)
    (t : string) :
  t ∈ Construct.refers (AppStack.container env props) →
  t ∈ ["AppTaskDefinition"; "AppRepository"; "AppSecret"].
Proof.
  intros Ht. apply (container_deps env "" props).
  unfold Graph.deps. unfold Construct.refers in Ht.
  rewrite !elem_of_app in *. tauto.
Qed.

Lemma declared_before_use_spec (declared : list string) (rs : list Cdk.Resource) :
  Construct.declared_before_use declared rs = true
  ↔ ∀ pre r post, rs = pre ++ r :: post →
      ∀ t, t ∈ Construct.refers r → t ∈ declared ++ map Cdk.resourceId pre.
Proof.
  revert declared. induction rs as [|x rs IH]; intros declared; simpl.
  - split; [|done]. intros _ pre r post Heq. by destruct pre.
  - rewrite andb_true_iff, forallb_forall, IH. split.
    + intros [Hx Hrs] pre r post Heq t Ht. destruct pre as [|y pre]; simpl in Heq.
      * injection Heq as <- <-. rewrite app_nil_r.
        apply list_elem_of_In, Hx in Ht. by apply bool_decide_eq_true in Ht.
      * injection Heq as <- ->. simpl.
        specialize (Hrs pre r post eq_refl t Ht).
        by rewrite <- app_assoc in Hrs.
    + intros Hall. split.
      * intros t Ht. apply bool_decide_eq_true.
        specialize (Hall [] x rs eq_refl t). rewrite app_nil_r in Hall.
        by apply Hall, list_elem_of_In.
      * intros pre r post -> t Ht. rewrite <- app_assoc. simpl.
        by apply (Hall (x :: pre) r post).
Qed.

Lemma app_declared_before_use (env : gmap string string) (account : string)
    (props : option AppStackProps.t) :
  Construct.declared_before_use [] (resources (AppStack.stack env account props)) = true.
Proof.
  unfold AppStack.stack, AppStack.readers. cbn [resources].
  destruct (AppStack.readerReplicaCondition env);
    cbn [map app Construct.declared_before_use];
    rewrite !andb_true_iff; split_and!; try reflexivity;
    (apply forallb_forall; intros t Ht%list_elem_of_In%container_refers;
     apply bool_decide_eq_true; elem_cases Ht; simpl; elem_solve).
Qed.

Lemma app_mentioned (env : gmap string string) (account : string)
    (props : option AppStackProps.t) :
  Forall (fun t => t ∈ Graph.ids (AppStack.stack env account props))
    (Construct.mentioned (AppStack.stack env account props)).
Proof.
  apply Forall_forall. intros t Ht. apply app_unconditional.
  vm_compute in Ht. elem_cases Ht; elem_solve.
Qed.

(** X13. Whatever the environment and the configuration, each stack's
    constructor hands a construct only constructs that it has created
    before: the references among a construct's properties point at
    constructs that precede it in the stack; and every security rule,
    policy statement, grant and output names constructs of its stack. *)
Theorem X13_constructs_are_created_before_use (env : gmap string string)
    (account : string) (props : option AppStackProps.t) :
  let app := AppStack.stack env account props in
  let artifact := ArtifactStack.stack env account in
  Construct.declared_before_use [] (resources app) = true
  ∧ (∀ pre r post, resources app = pre ++ r :: post →
       ∀ t, t ∈ Construct.refers r → t ∈ map Cdk.resourceId pre)
  ∧ Forall (fun t => t ∈ map Cdk.resourceId (resources app)) (Construct.mentioned app)
  ∧ Construct.declared_before_use [] (resources artifact) = true
  ∧ (∀ pre r post, resources artifact = pre ++ r :: post →
       ∀ t, t ∈ Construct.refers r → t ∈ map Cdk.resourceId pre)
  ∧ Forall (fun t => t ∈ map Cdk.resourceId (resources artifact))
      (Construct.mentioned artifact).
Proof.
  intros app artifact.
  assert (Happ := app_declared_before_use env account props). fold app in Happ.
  assert (Hart : Construct.declared_before_use [] (resources artifact) = true)
    by reflexivity.
  split_and!.
  - exact Happ.
  - intros pre r post Heq t Ht.
    by apply (proj1 (declared_before_use_spec [] _) Happ pre r post Heq t).
  - apply app_mentioned.
  - exact Hart.
  - intros pre r post Heq t Ht.
    by apply (proj1 (declared_before_use_spec [] _) Hart pre r post Heq t).
  - apply Forall_forall. intros t Ht. vm_compute in Ht.
    elem_cases Ht; vm_compute; elem_solve.
Qed.

(** ** Placement in the VPC *)

(** X14. Whatever the environment and the configuration, a construct that
    selects subnets is in the stack's one VPC, directly or through the ECS
    cluster it runs in, and selects them by a subnet type that the VPC's
    subnet configuration declares; the database cluster and the service
    select the private subnets, and the load balancer is the only construct
    in the public ones. *)
Theorem X14_subnets_are_declared_by_the_vpc (env : gmap string string)
    (account : string) (props : option AppStackProps.t) :
  Forall (fun r => ∀ v, Construct.property r "vpcSubnets" = Some v →
                     (Construct.property r "vpc"
                      = Some (Cdk.ref (Cdk.resourceId AppStack.vpc))
                      ∨ Construct.property r "cluster"
                        = Some (Cdk.ref (Cdk.resourceId (AppStack.cluster env))))
                     ∧ v ∈ Construct.subnetTypes AppStack.vpc
                     ∧ (v = Cdk.VStr "PUBLIC" → Cdk.resourceId r = "AppLoadBalancer"))
    (resources (AppStack.stack env account props))
  ∧ Construct.property (AppStack.cluster env) "vpc"
    = Some (Cdk.ref (Cdk.resourceId AppStack.vpc))
  ∧ Construct.subnetTypes AppStack.vpc
    = [Cdk.VStr "PUBLIC"; Cdk.VStr "PRIVATE_WITH_EGRESS"]
  ∧ Construct.property (AppStack.auroraCluster env) "vpcSubnets"
    = Some (Cdk.VStr "PRIVATE_WITH_EGRESS")
  ∧ Construct.property (AppStack.fargateService env) "vpcSubnets"
    = Some (Cdk.VStr "PRIVATE_WITH_EGRESS")
  ∧ Construct.property AppStack.alb "vpcSubnets" = Some (Cdk.VStr "PUBLIC").
Proof.
  split_and!; try reflexivity.
  unfold AppStack.stack, AppStack.readers. cbn [resources].
  destruct (AppStack.readerReplicaCondition env); cbn [map app];
    repeat apply Forall_cons_2; try apply Forall_nil_2;
    intros v Hv; vm_compute in Hv; try discriminate Hv;
    injection Hv as <-;
    (split_and!; [first [by left | by right] | vm_compute; elem_solve |]);
    intros Hpub; first [reflexivity | discriminate Hpub].
Qed.

(** ** The path of a request *)

(** X15. Whatever the environment and the configuration, a request has one
    path through the stack and the ports along it agree: the distribution,
    guarded by the stack's web ACL of CloudFront scope, sends what is not
    under /static/* to the load balancer over HTTPS; the load balancer's
    one listener terminates HTTPS on 443 with the certificate that the
    distribution presents; the listener's target group forwards to the
    Fargate service on the port that the container maps, that the service's
    security group admits from the load balancer's group, and that the
    container's PORT variable names. *)
Theorem X15_ports_agree_along_the_request_path (env : gmap string string)
    (account : string) (props : option AppStackProps.t) :
  let s := AppStack.stack env account props in
  Construct.property (AppStack.distribution env) "defaultBehavior.origin"
  = Some (Cdk.ref (Cdk.resourceId AppStack.alb))
  ∧ Construct.property (AppStack.distribution env) "defaultBehavior.protocolPolicy"
    = Some (Cdk.VStr "HTTPS_ONLY")
  ∧ Construct.property (AppStack.distribution env) "webAclId"
    = Some (Cdk.attr (Cdk.resourceId AppStack.WebAcl) "attrArn")
  ∧ Construct.property AppStack.WebAcl "scope" = Some (Cdk.VStr "CLOUDFRONT")
  ∧ Construct.property (AppStack.listener env) "loadBalancer"
    = Some (Cdk.ref (Cdk.resourceId AppStack.alb))
  ∧ Construct.property (AppStack.listener env) "port" = Some (Cdk.VNum 443)
  ∧ Construct.property (AppStack.listener env) "protocol" = Some (Cdk.VStr "HTTPS")
  ∧ (∀ c, Construct.property (AppStack.distribution env) "certificate" = Some c →
          Construct.property (AppStack.listener env) "certificates"
          = Some (Cdk.VList [c]))
  ∧ Construct.property (AppStack.applicationFleet env) "listener"
    = Some (Cdk.ref (Cdk.resourceId (AppStack.listener env)))
  ∧ Construct.property (AppStack.applicationFleet env) "targets"
    = Some (Cdk.VList [Cdk.ref (Cdk.resourceId (AppStack.fargateService env))])
  ∧ Construct.property (AppStack.fargateService env) "taskDefinition"
    = Construct.property (AppStack.container env props) "taskDefinition"
  ∧ (∀ n, Construct.property (AppStack.applicationFleet env) "port"
          = Some (Cdk.VNum n) →
          Construct.containerPorts (AppStack.container env props) = [Cdk.VNum n]
          ∧ (∃ d, ec2.addIngressRule (Cdk.resourceId AppStack.serviceSecurityGroup)
                    (ec2.GroupReference (Cdk.resourceId AppStack.albSecurityGroup))
                    (ec2.tcp n) d ∈ rules s)
          ∧ n = 3000
          ∧ AppStack.environment props !! "PORT" = Some (Js.str "3000"))
  ∧ Construct.property (AppStack.applicationFleet env) "port" = Some (Cdk.VNum 3000).
Proof.
  intros s. split_and!; try reflexivity.
  - intros c [= <-]. reflexivity.
  - intros n [= <-]. split_and!; try reflexivity.
    + eexists. unfold s, AppStack.stack, AppStack.securityRules. cbn [rules].
      apply list_elem_of_further, list_elem_of_further, list_elem_of_here.
    + by rewrite environment_lookup.
Qed.

(** ** The credentials of the deployment user *)

(** X16. Whatever the environment, the artifact stack creates one access key,
    for the deployment user it creates, and its two outputs are that key's
    id and that key's secret; every statement the stack attaches to that
    user allows sts:AssumeRole and nothing else, on the deployment role and
    nothing else. *)
Theorem X16_outputs_are_the_user_access_key (env : gmap string string)
    (account : string) :
  let s := ArtifactStack.stack env account in
  Construct.property (ArtifactStack.accessKey env) "userName"
  = Some (Cdk.attr (Cdk.resourceId (ArtifactStack.githubActionsUser env)) "userName")
  ∧ Forall (fun r => Cdk.resourceType r = Cdk.resourceType (ArtifactStack.accessKey env) →
                     r = ArtifactStack.accessKey env)
      (resources s)
  ∧ map Cdk.outputValue (outputs s)
    = [Cdk.attr (Cdk.resourceId (ArtifactStack.accessKey env)) "ref";
       Cdk.attr (Cdk.resourceId (ArtifactStack.accessKey env)) "attrSecretAccessKey"]
  ∧ Forall (fun a => iam.attachedTo a
                     = Cdk.resourceId (ArtifactStack.githubActionsUser env) →
                     iam.actions (iam.attached a) = ["sts:AssumeRole"]
                     ∧ iam.resources (iam.attached a)
                       = [Cdk.attr (Cdk.resourceId (ArtifactStack.githubActionsRole env))
                            "roleArn"])
      (policies s)
  ∧ (∃ a, a ∈ policies s
          ∧ iam.attachedTo a = Cdk.resourceId (ArtifactStack.githubActionsUser env)).
Proof.
  intros s. unfold s, ArtifactStack.stack. cbn [resources outputs policies].
  split_and!; try reflexivity.
  - repeat apply Forall_cons_2; try apply Forall_nil_2;
      intros Hty; first [reflexivity | by vm_compute in Hty].
  - unfold ArtifactStack.githubActionsRoleStatements,
      ArtifactStack.githubActionsUserStatements.
    cbn [map app].
    repeat apply Forall_cons_2; try apply Forall_nil_2;
      intros Hto; first [split; reflexivity | by vm_compute in Hto].
  - exists (ArtifactStack.attach (ArtifactStack.githubActionsUser env)
              (iam.statement ["sts:AssumeRole"]
                 [Cdk.attr (Cdk.resourceId (ArtifactStack.githubActionsRole env))
                    "roleArn"])).
    split; [|reflexivity].
    rewrite !elem_of_app. right. right. cbn. apply list_elem_of_here.
Qed.
